(** * Grid density analysis of [LocationIntelligenceTool]

    A shallow embedding of [LocationIntelligenceTool.analyze_density] and
    [LocationIntelligenceTool.reverse_geocode] (src/main.py), and the
    properties of the density report; then of the code around them:
    [search_places], the messages of [save_heatmap] and [export_data]
    (src/main.py), and [format_address] (src/utils.py).

    - Python [int] is [Z]; [str] is [string]; the [grid_counts] dict is an
      association list in insertion order, because the order of
      [grid_counts.items()] decides how [sorted] breaks ties.
    - Exceptions raised inside the [try] block are the [Raise] outcomes of a
      small error monad; the [except Exception] clause turns them into the
      error dict.
    - The arithmetic on coordinates goes through the interface [PyNum]; its
      instance is IEEE 754 binary64, which is Python's [float], on Rocq's
      primitive floats and their specification [SpecFloat].
    - The HTTP request of [reverse_geocode] is an oracle that gives, for each
      coordinate pair, what the request produced; so are the two requests of
      [search_places]. The writing of the HTML file and of the CSV file are
      oracles as well.

    Statements that do not depend on arithmetic are proved for every
    instance of the interface. Those that depend on rounding are proved on
    binary64: the bounds on the bins, the degenerate bounding box, the
    analysis that completes, what a [grid_size] that is not positive gives,
    the centres of the hotspots against the box, and the counts that do not depend
    on the order of the places.

    Not embedded: [calculate_distance] (src/utils.py), which computes with
    the sine, cosine and arc tangent of the C library on floats, and the
    folium calls of [create_heatmap]. *)

From Stdlib Require Import ZArith List String Ascii Bool Lia.
From Stdlib Require Import Floats.
From Stdlib Require Import Decimal DecimalString DecimalPos DecimalZ.
From Stdlib Require Import Sorted Permutation.
Import ListNotations.

Local Open Scope string_scope.
Local Open Scope list_scope.
Local Open Scope Z_scope.

(** ** Exceptions and the error monad *)

Module Exn.

(** The exception classes the body of [analyze_density] can raise. *)
Inductive exn : Type :=
| ZeroDivisionError
| ValueError
| OverflowError.

Inductive outcome (A : Type) : Type :=
| Raise (e : exn)
| Return (a : A).

Arguments Raise {A} e.
Arguments Return {A} a.

Definition bind {A B : Type} (c : outcome A) (k : A -> outcome B) : outcome B :=
  match c with
  | Raise e => Raise e
  | Return a => k a
  end.

Fixpoint mapM {A B : Type} (f : A -> outcome B) (l : list A) : outcome (list B) :=
  match l with
  | [] => Return []
  | x :: xs =>
      bind (f x) (fun y => bind (mapM f xs) (fun ys => Return (y :: ys)))
  end.

End Exn.
Export Exn.

Declare Scope exn_scope.
Delimit Scope exn_scope with exn.
Notation "x <- c ;; k" := (bind c (fun x => k))
  (at level 61, c at next level, right associativity) : exn_scope.
Notation "' p <- c ;; k" := (bind c (fun p => k))
  (at level 61, p pattern, c at next level, right associativity) : exn_scope.
Local Open Scope exn_scope.

(** ** The arithmetic of coordinates *)

(** What [analyze_density] asks of the numbers it is given: the literals [0],
    [0.01] and [0.5], the four operations, [==] and [<], the conversion of an
    [int] operand to the number type ([None]: the [int] is too large, Python
    raises [OverflowError]) and [int(x)]. [f_div] is the quotient for a
    non-zero divisor; the test for a zero divisor is made by [truediv]. *)
Class PyNum (F : Type) : Type := {
  f_zero : F;
  f_001 : F;
  f_half : F;
  f_add : F -> F -> F;
  f_sub : F -> F -> F;
  f_mul : F -> F -> F;
  f_div : F -> F -> F;
  f_eqb : F -> F -> bool;
  f_ltb : F -> F -> bool;
  f_of_int : Z -> option F;
  f_trunc : F -> outcome Z
}.

(** *** binary64 *)

Module Binary64.

(** [int(x)] for a float: truncation toward zero; [nan] and the infinities
    raise. *)
Definition trunc (x : float) : outcome Z :=
  match Prim2SF x with
  | S754_zero _ => Return 0
  | S754_infinity _ => Raise OverflowError
  | S754_nan => Raise ValueError
  | S754_finite s m e =>
      let v := if 0 <=? e then Z.shiftl (Zpos m) e else Z.shiftr (Zpos m) (- e) in
      Return (if s then - v else v)
  end.

(** An [int] operand converted to [float]: rounded to nearest, ties to even;
    too large an [int] raises. *)
Definition of_int (z : Z) : option float :=
  match binary_normalize prec emax z 0 false with
  | S754_infinity _ => None
  | sf => Some (SF2Prim sf)
  end.

#[global] Instance num : PyNum float := {
  f_zero := 0%float;
  f_001 := 0x1.47ae147ae147bp-7%float;
  f_half := 0x1p-1%float;
  f_add := PrimFloat.add;
  f_sub := PrimFloat.sub;
  f_mul := PrimFloat.mul;
  f_div := PrimFloat.div;
  f_eqb := PrimFloat.eqb;
  f_ltb := PrimFloat.ltb;
  f_of_int := of_int;
  f_trunc := trunc
}.

(** Numbers, as opposed to [nan] and the infinities. *)
Definition sf_finite (s : spec_float) : bool :=
  match s with
  | S754_zero _ | S754_finite _ _ _ => true
  | _ => false
  end.

Definition finite (x : float) : bool := sf_finite (Prim2SF x).

(** The value of a number in units of [2^-1074], the smallest positive
    binary64 number. *)
Definition SFval (s : spec_float) : Z :=
  match s with
  | S754_finite sx m e => cond_Zopp sx (Zpos m * 2 ^ (e + 1074))
  | _ => 0
  end.

Definition value (x : float) : Z := SFval (Prim2SF x).

(** A zero of either sign, a positive number, [+infinity] or [nan]: what
    [int] rejects or turns into an integer that is not negative. *)
Definition sf_nonneg (s : spec_float) : Prop :=
  match s with
  | S754_zero _ | S754_nan => True
  | S754_infinity sx | S754_finite sx _ _ => sx = false
  end.

Definition sf_nonzero (s : spec_float) : Prop :=
  match s with
  | S754_zero _ => False
  | _ => True
  end.

(** A positive number in canonical form, or [+infinity]. *)
Definition sf_positive (s : spec_float) : Prop :=
  match s with
  | S754_finite false m e => bounded prec emax m e = true
  | S754_infinity false => True
  | _ => False
  end.

End Binary64.

(** ** Pieces of the Python runtime the routine relies on *)

(** [str(n)] and [int(s)] for the strings the routine builds and reads back:
    an optional minus sign followed by decimal digits. *)
Definition py_str (n : Z) : string := NilZero.string_of_int (Z.to_int n).

Definition py_int (s : string) : outcome Z :=
  match NilZero.int_of_string s with
  | Some d => Return (Z.of_int d)
  | None => Raise ValueError
  end.

(** [s.split(sep)] for a one-character separator. *)
Fixpoint split (sep : ascii) (s : string) : list string :=
  match s with
  | EmptyString => [EmptyString]
  | String c s' =>
      if Ascii.eqb c sep then EmptyString :: split sep s'
      else match split sep s' with
           | [] => [String c EmptyString]
           | w :: ws => String c w :: ws
           end
  end.

(** A [dict] from [str] to [int], in insertion order. *)
Definition dict : Type := list (string * Z).

Fixpoint dict_get (d : dict) (k : string) (default : Z) : Z :=
  match d with
  | [] => default
  | (k', v) :: d' => if String.eqb k' k then v else dict_get d' k default
  end.

(** [d[k] = v]: an existing key keeps its place, a new key goes last. *)
Fixpoint dict_set (d : dict) (k : string) (v : Z) : dict :=
  match d with
  | [] => [(k, v)]
  | (k', v') :: d' =>
      if String.eqb k' k then (k', v) :: d' else (k', v') :: dict_set d' k v
  end.

(** [sorted(items, key=lambda x: x[1], reverse=True)]: the stable sort by
    decreasing count (items with equal counts keep their order). *)
Fixpoint insert_desc (x : string * Z) (l : list (string * Z)) : list (string * Z) :=
  match l with
  | [] => [x]
  | y :: l' => if snd y <=? snd x then x :: y :: l' else y :: insert_desc x l'
  end.

Definition sorted_desc (l : list (string * Z)) : list (string * Z) :=
  fold_right insert_desc [] l.

(** ** The reverse-geocoding request *)

(** What [requests.get(...).json()] produced: the request or the decoding
    raised, or a JSON object with its ["status"] and, for each entry of
    ["results"], its ["formatted_address"] when it has one. *)
Inductive geocode_response : Type :=
| RequestRaised
| JsonObject (status : option string) (results : list (option string)).

(** ** The analyzer *)

Section Analyzer.

Context {F : Type} {num : PyNum F}.

(** A place; [analyze_density] reads its ["lat"] and ["lng"] only. *)
Record place : Type := mkPlace { lat : F; lng : F }.

(** The [places] argument: a list of places, or a value that is not a list. *)
Inductive places_arg : Type :=
| NotAList
| PlaceList (ps : list place).

Record hotspot : Type := mkHotspot {
  grid_cell : string;
  count : Z;
  center_lat : F;
  center_lng : F;
  approximate_location : string
}.

Record report : Type := mkReport {
  total_places : nat;
  grid_size : Z;
  hotspots : list hotspot
}.

(** The two shapes of the returned dict: [{"error": ...}], with the fixed
    message of the guard or the text of a caught exception, or the report. *)
Inductive error_value : Type :=
| NoPlacesToAnalyze
| Caught (e : exn).

Inductive result : Type :=
| ErrorDict (err : error_value)
| ReportDict (r : report).

Variable api : F -> F -> geocode_response.

Definition reverse_geocode (lat lng : F) : string :=
  match api lat lng with
  | RequestRaised => "Unknown location"
  | JsonObject status results =>
      match status, results with
      | Some st, r :: _ =>
          if String.eqb st "OK" then
            match r with
            | Some formatted_address => formatted_address
            | None => "Unknown location"
            end
          else "Unknown location"
      | _, _ => "Unknown location"
      end
  end.

Definition f_neb (a b : F) : bool := negb (f_eqb a b).

(** [min(l)] and [max(l)]: the first smallest (largest) item. *)
Definition py_min (l : list F) : outcome F :=
  match l with
  | [] => Raise ValueError
  | x :: xs => Return (fold_left (fun m y => if f_ltb y m then y else m) xs x)
  end.

Definition py_max (l : list F) : outcome F :=
  match l with
  | [] => Raise ValueError
  | x :: xs => Return (fold_left (fun m y => if f_ltb m y then y else m) xs x)
  end.

(** [x / y] and [x / n]. *)
Definition truediv (x y : F) : outcome F :=
  if f_eqb y f_zero then Raise ZeroDivisionError else Return (f_div x y).

Definition truediv_int (x : F) (n : Z) : outcome F :=
  match f_of_int n with
  | None => Raise OverflowError
  | Some y => truediv x y
  end.

(** [(hi - lo) / grid_size if hi != lo else 0.01] *)
Definition grid_step (lo hi : F) (grid_size : Z) : outcome F :=
  if f_neb hi lo then truediv_int (f_sub hi lo) grid_size else Return f_001.

(** [int((x - lo) / step) if step != 0 else 0] *)
Definition bin_of (x lo step : F) : outcome Z :=
  if f_neb step f_zero then q <- truediv (f_sub x lo) step ;; f_trunc q
  else Return 0.

(** [if b >= grid_size: b = grid_size - 1] *)
Definition clamp (b grid_size : Z) : Z :=
  if b >=? grid_size then grid_size - 1 else b.

Definition grid_key (lat_bin lng_bin : Z) : string :=
  (py_str lat_bin ++ "," ++ py_str lng_bin)%string.

(** The bounding box and the steps, as the loops below see them. *)
Record grid : Type := mkGrid {
  min_lat : F; max_lat : F;
  min_lng : F; max_lng : F;
  lat_step : F; lng_step : F
}.

Definition make_grid (places : list place) (grid_size : Z) : outcome grid :=
  let lats := map lat places in
  let lngs := map lng places in
  min_lat <- py_min lats ;;
  max_lat <- py_max lats ;;
  min_lng <- py_min lngs ;;
  max_lng <- py_max lngs ;;
  lat_step <- grid_step min_lat max_lat grid_size ;;
  lng_step <- grid_step min_lng max_lng grid_size ;;
  Return (mkGrid min_lat max_lat min_lng max_lng lat_step lng_step).

(** The bins of one place, after the clamp. *)
Definition place_bins (g : grid) (grid_size : Z) (p : place) : outcome (Z * Z) :=
  lat_bin <- bin_of (lat p) (min_lat g) (lat_step g) ;;
  lng_bin <- bin_of (lng p) (min_lng g) (lng_step g) ;;
  Return (clamp lat_bin grid_size, clamp lng_bin grid_size).

Definition place_key (g : grid) (grid_size : Z) (p : place) : outcome string :=
  '(lat_bin, lng_bin) <- place_bins g grid_size p ;;
  Return (grid_key lat_bin lng_bin).

(** The first loop: [grid_counts[grid_key] = grid_counts.get(grid_key, 0) + 1]
    for each place in turn. *)
Fixpoint count_places (g : grid) (grid_size : Z) (places : list place)
    (grid_counts : dict) : outcome dict :=
  match places with
  | [] => Return grid_counts
  | p :: rest =>
      k <- place_key g grid_size p ;;
      count_places g grid_size rest
        (dict_set grid_counts k (dict_get grid_counts k 0 + 1))
  end.

(** [lat_bin, lng_bin = map(int, grid_key.split(','))] *)
Definition parse_key (grid_key : string) : outcome (Z * Z) :=
  match split "," grid_key with
  | [a; b] => lat_bin <- py_int a ;; lng_bin <- py_int b ;; Return (lat_bin, lng_bin)
  | _ => Raise ValueError
  end.

(** [lo + (bin + 0.5) * step] *)
Definition cell_center (lo step : F) (bin : Z) : outcome F :=
  match f_of_int bin with
  | None => Raise OverflowError
  | Some b => Return (f_add lo (f_mul (f_add b f_half) step))
  end.

(** The body of the second loop. *)
Definition hotspot_detail (g : grid) (item : string * Z) : outcome hotspot :=
  let '(grid_key, count) := item in
  '(lat_bin, lng_bin) <- parse_key grid_key ;;
  center_lat <- cell_center (min_lat g) (lat_step g) lat_bin ;;
  center_lng <- cell_center (min_lng g) (lng_step g) lng_bin ;;
  let location_name := reverse_geocode center_lat center_lng in
  Return (mkHotspot grid_key count center_lat center_lng location_name).

(** The [try] block. *)
Definition analyze_body (places : list place) (grid_size : Z) : outcome report :=
  g <- make_grid places grid_size ;;
  grid_counts <- count_places g grid_size places [] ;;
  let hotspots := sorted_desc grid_counts in
  hotspot_details <- mapM (hotspot_detail g) (firstn 3 hotspots) ;;
  Return (mkReport (List.length places) grid_size hotspot_details).

Definition analyze_density (places : places_arg) (grid_size : Z) : result :=
  match places with
  | NotAList => ErrorDict NoPlacesToAnalyze
  | PlaceList [] => ErrorDict NoPlacesToAnalyze
  | PlaceList ps =>
      match analyze_body ps grid_size with
      | Raise e => ErrorDict (Caught e)
      | Return r => ReportDict r
      end
  end.

End Analyzer.

Arguments place F : clear implicits.
Arguments places_arg F : clear implicits.
Arguments hotspot F : clear implicits.
Arguments report F : clear implicits.
Arguments result F : clear implicits.
Arguments grid F : clear implicits.

(** ** Vocabulary of the statements *)

Fixpoint has_char (c : ascii) (s : string) : bool :=
  match s with
  | EmptyString => false
  | String c' s' => Ascii.eqb c' c || has_char c s'
  end.

(** What the first loop leaves in [grid_counts] when the places have the
    keys [keys], in scan order. *)
Definition tally (keys : list string) (d : dict) : dict :=
  fold_left (fun d k => dict_set d k (dict_get d k 0 + 1)) keys d.

(** [sum(c for _, c in d.items())] *)
Definition sum_counts (d : dict) : Z :=
  fold_right (fun kv s => snd kv + s) 0 d.

(** The number of places of the scan that have the key [k]. *)
Definition occurrences (k : string) (keys : list string) : Z :=
  Z.of_nat (count_occ string_dec keys k).

(** [a] stands in [l] before [b]. *)
Definition before {A : Type} (l : list A) (a b : A) : Prop :=
  exists l1 l2 l3, l = l1 ++ a :: l2 ++ b :: l3.

(** In a scan that produces the keys [keys], the cell [a] is created before
    the cell [b]: some place has the key [a] and no earlier place has the
    key [b]. *)
Definition created_before (keys : list string) (a b : string) : Prop :=
  a <> b /\ exists pre post, keys = pre ++ a :: post /\ ~ In b pre.

(** The order of [sorted]: counts do not increase. *)
Definition count_ge (x y : string * Z) : Prop := snd y <= snd x.

Definition has_count (c : Z) (x : string * Z) : bool := snd x =? c.

Section AnalyzerVocabulary.

Context {F : Type} {num : PyNum F}.

(** The dict item a hotspot was made from. *)
Definition hotspot_item (h : hotspot F) : string * Z := (grid_cell h, count h).

(** A hotspot with the label another oracle gives for its centre. *)
Definition relabel (api : F -> F -> geocode_response) (h : hotspot F) : hotspot F :=
  mkHotspot (grid_cell h) (count h) (center_lat h) (center_lng h)
    (reverse_geocode api (center_lat h) (center_lng h)).

(** A coordinate on which the comparisons and the degenerate bin behave as
    on a number: it is not below itself, it equals itself, and
    [int((a - a) / 0.01)] is [0]. *)
Definition ordinary (a : F) : Prop :=
  f_ltb a a = false /\ f_eqb a a = true /\ bin_of a a f_001 = Return 0.

End AnalyzerVocabulary.

(** ** Sample inputs *)

Module Samples.

(** An oracle whose every request raises, and one that always answers. *)
Definition offline : float -> float -> geocode_response :=
  fun _ _ => RequestRaised.

Definition online : float -> float -> geocode_response :=
  fun _ _ => JsonObject (Some "OK") [Some "1 Main St"].

(** Three places, two of them at the same point:
    [(37.0, -122.0), (37.0, -122.0), (37.1, -122.1)]. *)
Definition three_places : list (place float) :=
  [ mkPlace 37%float (-122)%float;
    mkPlace 37%float (-122)%float;
    mkPlace 0x1.28ccccccccccdp+5%float (-0x1.e866666666666p+6)%float ].

(** Its grid for [grid_size = 5]: the box and the steps
    [(37.1 - 37.0) / 5] and [(-122.0 - -122.1) / 5]. *)
Definition three_places_grid : grid float :=
  mkGrid 37%float 0x1.28ccccccccccdp+5%float
    (-0x1.e866666666666p+6)%float (-122)%float
    0x1.47ae147ae14cdp-6%float 0x1.47ae147ae1333p-6%float.

Definition three_places_report : report float :=
  mkReport 3 5
    [ mkHotspot "0,4" 2 0x1.28147ae147ae1p+5%float (-0x1.e80a3d70a3d71p+6)%float
        "Unknown location";
      mkHotspot "4,0" 1 0x1.28b851eb851ecp+5%float (-0x1.e85c28f5c28f5p+6)%float
        "Unknown location" ].

(** The same report when every request answers. *)
Definition three_places_report_online : report float :=
  mkReport 3 5
    [ mkHotspot "0,4" 2 0x1.28147ae147ae1p+5%float (-0x1.e80a3d70a3d71p+6)%float
        "1 Main St";
      mkHotspot "4,0" 1 0x1.28b851eb851ecp+5%float (-0x1.e85c28f5c28f5p+6)%float
        "1 Main St" ].

(** One place, [(10.0, 20.0)]. *)
Definition one_place : list (place float) := [ mkPlace 10%float 20%float ].

(** Two places whose latitudes are neighbours in binary64:
    [(0.9999999999999999, 0.0), (1.0, 1.0)]. *)
Definition close_places : list (place float) :=
  [ mkPlace 0x1.fffffffffffffp-1%float 0%float; mkPlace 1%float 1%float ].

Definition close_places_report : report float :=
  mkReport 2 5
    [ mkHotspot "0,0" 1 0x1.fffffffffffffp-1%float 0x1.999999999999ap-4%float
        "Unknown location";
      mkHotspot "4,4" 1 1%float 0x1.ccccccccccccdp-1%float
        "Unknown location" ].

(** Two places on a box whose width in latitude is three times the smallest
    positive float: [(0.0, 0.0), (1.5e-323, 1.0)]. *)
Definition tiny_places : list (place float) :=
  [ mkPlace 0%float 0%float; mkPlace 0x3p-1074%float 1%float ].

End Samples.

(** ** utils.py: [format_address] *)

(** [sep.join(l)] *)
Fixpoint join (sep : string) (l : list string) : string :=
  match l with
  | [] => ""
  | x :: rest =>
      match rest with
      | [] => x
      | _ :: _ => (x ++ sep ++ join sep rest)%string
      end
  end.

(** [address_components] is [None] or a list of strings; [None] and the
    empty list are false in a condition. *)
Definition format_address (address_components : option (list string)) : string :=
  match address_components with
  | None | Some [] => "Unknown address"
  | Some l => join ", " l
  end.

(** [sep in s] *)
Fixpoint contains (sep s : string) : bool :=
  prefix sep s ||
  match s with
  | EmptyString => false
  | String _ s' => contains sep s'
  end.

(** [s.split(sep)] for a separator that is not empty: the occurrences of
    [sep] are found from the left and do not overlap. [skip] is the number of
    characters of the occurrence under way that are still to be passed. *)
Fixpoint split_from (sep : string) (skip : nat) (s : string) : list string :=
  match s with
  | EmptyString => [EmptyString]
  | String c s' =>
      match skip with
      | S n => split_from sep n s'
      | O =>
          if prefix sep s
          then EmptyString :: split_from sep (String.length sep - 1) s'
          else match split_from sep 0 s' with
               | [] => [String c EmptyString]
               | w :: ws => String c w :: ws
               end
      end
  end.

Definition py_split (sep s : string) : list string := split_from sep 0 s.

(** ** [search_places] *)

(** What [requests.get(...).json()] produced: the request or the decoding
    raised, or the decoded JSON object. *)
Inductive http (A : Type) : Type :=
| HttpRaised
| HttpJson (data : A).

Arguments HttpRaised {A}.
Arguments HttpJson {A} data.

(** The exceptions [search_places] catches: a key that is missing, an empty
    list of results, a request that failed. *)
Inductive search_exn : Type :=
| KeyError
| IndexError
| RequestException.

(** [status != "OK"], for the value of [data.get("status")]. *)
Definition status_not_ok (status : option string) : bool :=
  match status with
  | Some st => negb (String.eqb st "OK")
  | None => true
  end.

(** The status in an f-string. *)
Definition status_text (status : option string) : string :=
  match status with
  | Some st => st
  | None => "None"
  end.

Section Search.

Context {F : Type}.

(** [x["geometry"]["location"]], with its ["lat"] and ["lng"]; [None] when
    a key of the path is missing, so that reading it raises [KeyError]. *)
Definition json_location : Type := option (F * F).

(** The answer of the geocoding endpoint: ["status"] and ["results"], when
    present. *)
Record geocode_data : Type := mkGeocodeData {
  geocode_status : option string;
  geocode_results : option (list json_location)
}.

(** One entry of the ["results"] of the places endpoint. *)
Record place_result : Type := mkPlaceResult {
  result_name : option string;
  result_location : json_location;
  result_rating : option F;
  result_vicinity : option string
}.

Record places_data : Type := mkPlacesData {
  places_status : option string;
  places_results : option (list place_result)
}.

(** [place.get("rating", "N/A")] *)
Inductive rating_value : Type :=
| NotAvailable
| Rated (x : F).

(** A dict of the returned list, with its keys ["name"], ["lat"], ["lng"],
    ["rating"] and ["address"]. *)
Record place_dict : Type := mkPlaceDict {
  place_name : option string;
  place_lat : F;
  place_lng : F;
  place_rating : rating_value;
  place_address : option string
}.

(** The value of ["error"]: a fixed message, or the text of a caught
    exception. *)
Inductive search_error : Type :=
| Message (text : string)
| CaughtException (e : search_exn).

(** The returned value: [{"error": ...}] or the list of places. *)
Inductive search_result : Type :=
| SearchError (err : search_error)
| PlaceDicts (places : list place_dict).

(** The two requests, by what they were asked. *)
Variable geocode_api : string -> http geocode_data.
Variable places_api : F -> F -> Z -> string -> http places_data.

(** [geocode_data["results"][0]["geometry"]["location"]] *)
Definition first_location (d : geocode_data) : search_exn + F * F :=
  match geocode_results d with
  | None => inl KeyError
  | Some [] => inl IndexError
  | Some (None :: _) => inl KeyError
  | Some (Some latlng :: _) => inr latlng
  end.

(** The dict appended for one result. *)
Definition place_entry (place : place_result) : search_exn + place_dict :=
  match result_location place with
  | None => inl KeyError
  | Some (lat, lng) =>
      inr (mkPlaceDict (result_name place) lat lng
             (match result_rating place with
              | Some x => Rated x
              | None => NotAvailable
              end)
             (result_vicinity place))
  end.

(** The loop over [results]. *)
Fixpoint place_dicts (results : list place_result) : search_exn + list place_dict :=
  match results with
  | [] => inr []
  | place :: rest =>
      match place_entry place with
      | inl e => inl e
      | inr d =>
          match place_dicts rest with
          | inl e => inl e
          | inr places => inr (d :: places)
          end
      end
  end.

Definition search_places (location : string) (radius : Z) (place_type : string)
    : search_result :=
  match geocode_api location with
  | HttpRaised => SearchError (CaughtException RequestException)
  | HttpJson geocode_data =>
      if status_not_ok (geocode_status geocode_data)
      then SearchError (Message "Location not found")
      else
        match first_location geocode_data with
        | inl e => SearchError (CaughtException e)
        | inr (latitude, longitude) =>
            match places_api latitude longitude radius place_type with
            | HttpRaised => SearchError (CaughtException RequestException)
            | HttpJson places_data =>
                if status_not_ok (places_status places_data)
                then SearchError
                       (Message ("API error: " ++
                                 status_text (places_status places_data))%string)
                else
                  let results :=
                    match places_results places_data with
                    | Some l => l
                    | None => []
                    end in
                  match place_dicts results with
                  | inl e => SearchError (CaughtException e)
                  | inr places => PlaceDicts places
                  end
            end
        end
  end.

End Search.

Arguments json_location F : clear implicits.
Arguments geocode_data F : clear implicits.
Arguments place_result F : clear implicits.
Arguments places_data F : clear implicits.
Arguments rating_value F : clear implicits.
Arguments place_dict F : clear implicits.
Arguments search_result F : clear implicits.

(** ** What is done with the places found *)

Section Consumers.

Context {F : Type}.

(** [analyze_density] reads the ["lat"] and ["lng"] of a dict only. *)
Definition analyzer_view (d : place_dict F) : place F :=
  mkPlace (place_lat d) (place_lng d).

(** The value returned by [search_places], as an argument of
    [analyze_density]: a dict is not a list. *)
Definition places_argument (found : search_result F) : places_arg F :=
  match found with
  | SearchError _ => NotAList
  | PlaceDicts places => PlaceList (map analyzer_view places)
  end.

(** The map object is opaque: [create_heatmap] returns one, or [None];
    [save] and [to_csv] stand for [heatmap.save(filename)] and
    [pd.DataFrame(places).to_csv(filename)], and give the text of the
    exception when one was raised. A map object is true in a condition. *)
Context {Map : Type}.
Variable save : Map -> string -> option string.
Variable to_csv : list (place_dict F) -> string -> option string.

Definition save_heatmap (heatmap : option Map) (filename : string) : string :=
  match heatmap with
  | Some m =>
      match save m filename with
      | None => ("Heatmap saved as " ++ filename)%string
      | Some e => ("Error saving heatmap: " ++ e)%string
      end
  | None => "No heatmap to save"
  end.

Definition export_data (places : search_result F) (filename : string) : string :=
  match places with
  | PlaceDicts (p :: l) =>
      match to_csv (p :: l) filename with
      | None => ("Data exported to " ++ filename)%string
      | Some e => ("Error exporting data: " ++ e)%string
      end
  | _ => "No data to export"
  end.

(** What relates a result of the places endpoint and the dict made of it. *)
Definition dict_of_result (res : place_result F) (d : place_dict F) : Prop :=
  result_location res = Some (place_lat d, place_lng d) /\
  place_name d = result_name res /\
  place_address d = result_vicinity res /\
  place_rating d = match result_rating res with
             | Some x => Rated x
             | None => NotAvailable
             end.

End Consumers.

(** ** Coordinates of the globe, and far from overflow *)

(** A place on the globe: a latitude from [-90] to [90] degrees and a
    longitude from [-180] to [180] degrees. *)
Definition valid_coordinates (p : place float) : bool :=
  PrimFloat.leb (-90) (lat p) && PrimFloat.leb (lat p) 90 &&
  PrimFloat.leb (-180) (lng p) && PrimFloat.leb (lng p) 180.

(** A binary64 coordinate of magnitude at most [2^1000]: a number, and far
    from the overflow threshold. Every latitude and longitude in degrees is
    one. *)
Definition moderate (x : float) : bool :=
  PrimFloat.leb (PrimFloat.abs x) 0x1p1000%float.

(** ** Sample requests *)

Module SearchSamples.

(** A geocoding endpoint that finds every address at [(37.0, -122.0)], and
    one that finds none. *)
Definition geocoder : string -> http (geocode_data float) :=
  fun _ =>
    HttpJson (mkGeocodeData (Some "OK") (Some [Some (37%float, (-122)%float)])).

Definition no_geocoder : string -> http (geocode_data float) :=
  fun _ => HttpJson (mkGeocodeData (Some "ZERO_RESULTS") (Some [])).

(** Three results at the coordinates of [Samples.three_places]; the second
    has no rating. *)
Definition three_results : list (place_result float) :=
  [ mkPlaceResult (Some "A") (Some (37%float, (-122)%float))
      (Some 4.5%float) (Some "1 Main St");
    mkPlaceResult (Some "B") (Some (37%float, (-122)%float))
      None (Some "2 Main St");
    mkPlaceResult (Some "C")
      (Some (0x1.28ccccccccccdp+5%float, (-0x1.e866666666666p+6)%float))
      (Some 3%float) None ].

Definition nearby : float -> float -> Z -> string -> http (places_data float) :=
  fun _ _ _ _ => HttpJson (mkPlacesData (Some "OK") (Some three_results)).

Definition three_dicts : list (place_dict float) :=
  [ mkPlaceDict (Some "A") 37%float (-122)%float (Rated 4.5%float)
      (Some "1 Main St");
    mkPlaceDict (Some "B") 37%float (-122)%float NotAvailable
      (Some "2 Main St");
    mkPlaceDict (Some "C") 0x1.28ccccccccccdp+5%float
      (-0x1.e866666666666p+6)%float (Rated 3%float) None ].

End SearchSamples.

(** * Facts about the runtime pieces *)

Section Strings.

Lemma string_of_uint_no_comma (d : uint) :
  has_char "," (NilEmpty.string_of_uint d) = false.
Proof. induction d; simpl; auto. Qed.

Lemma py_str_no_comma (n : Z) : has_char "," (py_str n) = false.
Proof.
  unfold py_str, NilZero.string_of_int, NilZero.string_of_uint.
  destruct (Z.to_int n) as [d | d]; destruct d; simpl;
    auto using string_of_uint_no_comma.
Qed.

Lemma split_no_sep (sep : ascii) (s : string) :
  has_char sep s = false -> split sep s = [s].
Proof.
  induction s as [| c s IH]; simpl; intros H; [reflexivity |].
  apply orb_false_iff in H as [Hc Hs].
  rewrite Hc, (IH Hs). reflexivity.
Qed.

Lemma split_app_sep (sep : ascii) (s t : string) :
  has_char sep s = false ->
  split sep (s ++ String sep t)%string = s :: split sep t.
Proof.
  induction s as [| c s IH]; simpl; intros H.
  - rewrite Ascii.eqb_refl. reflexivity.
  - apply orb_false_iff in H as [Hc Hs].
    rewrite Hc, (IH Hs). reflexivity.
Qed.

Lemma py_int_py_str (n : Z) : py_int (py_str n) = Return n.
Proof.
  unfold py_int, py_str.
  rewrite NilZero.isi.
  - rewrite DecimalZ.of_to. reflexivity.
  - destruct n; simpl; try discriminate;
      intros H; injection H; apply Unsigned.to_uint_nonnil.
  - destruct n; simpl; try discriminate;
      intros H; injection H; apply Unsigned.to_uint_nonnil.
Qed.

Lemma split_grid_key (a b : Z) :
  split "," (grid_key a b) = [py_str a; py_str b].
Proof.
  unfold grid_key. simpl.
  rewrite split_app_sep by apply py_str_no_comma.
  rewrite split_no_sep by apply py_str_no_comma.
  reflexivity.
Qed.

(** Reading a key back gives the bins it was built from. *)
Lemma parse_key_grid_key (a b : Z) : parse_key (grid_key a b) = Return (a, b).
Proof.
  unfold parse_key. rewrite split_grid_key.
  rewrite !py_int_py_str. reflexivity.
Qed.

Lemma grid_key_inj (a b a' b' : Z) :
  grid_key a b = grid_key a' b' -> a = a' /\ b = b'.
Proof.
  intros H. pose proof (parse_key_grid_key a b) as P.
  rewrite H, parse_key_grid_key in P. injection P; auto.
Qed.

End Strings.

Section Dicts.

Implicit Types (d : dict) (k : string) (v c : Z) (keys : list string).

Lemma dict_set_keys d k v :
  map fst (dict_set d k v) =
  if in_dec string_dec k (map fst d) then map fst d else map fst d ++ [k].
Proof.
  induction d as [| [k' v'] d IH]; simpl; [reflexivity |].
  destruct (String.eqb_spec k' k) as [-> | Hne]; simpl.
  - destruct (string_dec k k); [| congruence].
    reflexivity.
  - rewrite IH. destruct (string_dec k' k); [congruence |].
    destruct (in_dec string_dec k (map fst d)); reflexivity.
Qed.

Lemma dict_set_sum d k :
  sum_counts (dict_set d k (dict_get d k 0 + 1)) = sum_counts d + 1.
Proof.
  induction d as [| [k' v'] d IH]; simpl; [lia |].
  destruct (String.eqb_spec k' k); simpl; lia.
Qed.

Lemma dict_get_set d k v k' :
  dict_get (dict_set d k v) k' 0 = if String.eqb k k' then v else dict_get d k' 0.
Proof.
  induction d as [| [k0 v0] d IH]; simpl.
  - destruct (String.eqb k k'); reflexivity.
  - destruct (String.eqb_spec k0 k) as [-> | Hne]; simpl.
    + destruct (String.eqb k k'); reflexivity.
    + destruct (String.eqb_spec k0 k') as [-> | Hne'].
      * destruct (String.eqb_spec k k'); congruence.
      * exact IH.
Qed.

Lemma dict_get_in d k c :
  NoDup (map fst d) -> In (k, c) d -> dict_get d k 0 = c.
Proof.
  induction d as [| [k' v'] d IH]; simpl; intros ND H; [contradiction |].
  inversion ND as [| ? ? Hnotin ND']; subst.
  destruct H as [H | H].
  - injection H as -> ->. rewrite String.eqb_refl. reflexivity.
  - destruct (String.eqb_spec k' k) as [-> | Hne]; [| auto].
    exfalso. apply Hnotin. apply (in_map fst) in H. exact H.
Qed.

Lemma tally_cons k keys d :
  tally (k :: keys) d = tally keys (dict_set d k (dict_get d k 0 + 1)).
Proof. reflexivity. Qed.

Lemma tally_sum keys : forall d,
  sum_counts (tally keys d) = sum_counts d + Z.of_nat (List.length keys).
Proof.
  induction keys as [| k keys IH]; intros d.
  - simpl. lia.
  - rewrite tally_cons, IH, dict_set_sum. simpl List.length. lia.
Qed.

Lemma tally_get keys k : forall d,
  dict_get (tally keys d) k 0 = dict_get d k 0 + occurrences k keys.
Proof.
  unfold occurrences.
  induction keys as [| k' keys IH]; intros d.
  - simpl. lia.
  - rewrite tally_cons, IH, dict_get_set. simpl count_occ.
    destruct (string_dec k' k) as [E | Hne].
    + rewrite E, String.eqb_refl. lia.
    + apply String.eqb_neq in Hne. rewrite Hne. lia.
Qed.

Lemma tally_nodup keys : forall d,
  NoDup (map fst d) -> NoDup (map fst (tally keys d)).
Proof.
  induction keys as [| k keys IH]; intros d ND; [exact ND |].
  rewrite tally_cons. apply IH. rewrite dict_set_keys.
  destruct (in_dec string_dec k (map fst d)) as [| Hnotin]; [exact ND |].
  apply NoDup_app; repeat split; auto.
  - constructor; [intros [] | constructor].
  - intros x Hx [<- | []]. contradiction.
Qed.

Lemma tally_keys_in keys k : forall d,
  In k (map fst (tally keys d)) <-> In k (map fst d) \/ In k keys.
Proof.
  induction keys as [| k' keys IH]; intros d.
  - simpl. tauto.
  - rewrite tally_cons, IH, dict_set_keys. simpl.
    destruct (in_dec string_dec k' (map fst d)) as [Hin | Hnotin].
    + split; [tauto |]. intros [H | [-> | H]]; auto.
    + rewrite in_app_iff. simpl. tauto.
Qed.

(** The count of a cell is the number of places that fell into it. *)
Lemma tally_count keys k c :
  In (k, c) (tally keys []) -> c = occurrences k keys.
Proof.
  intros H. apply dict_get_in in H.
  - rewrite tally_get in H. simpl in H. lia.
  - apply tally_nodup. constructor.
Qed.

Lemma before_snoc {A : Type} (l : list A) (x a b : A) :
  before (l ++ [x]) a b -> before l a b \/ (In a l /\ b = x).
Proof.
  intros (l1 & l2 & l3 & E).
  destruct l3 as [| y l3 _] using rev_ind.
  - right.
    replace (l1 ++ a :: l2 ++ [b]) with ((l1 ++ a :: l2) ++ [b]) in E
      by (rewrite <- app_assoc; reflexivity).
    apply app_inj_tail in E as [-> ->].
    split; [| reflexivity]. apply in_or_app. right. left. reflexivity.
  - left.
    replace (l1 ++ a :: l2 ++ b :: l3 ++ [y])
      with ((l1 ++ a :: l2 ++ b :: l3) ++ [y]) in E
      by (rewrite <- !app_assoc; simpl; rewrite <- app_assoc; reflexivity).
    apply app_inj_tail in E as [-> _].
    exists l1, l2, l3. reflexivity.
Qed.

(** The keys of [grid_counts] stand in the order in which the scan first met
    them. *)
Lemma tally_before_gen keys a b : forall d,
  before (map fst (tally keys d)) a b ->
  before (map fst d) a b \/
  (In a (map fst d) /\ ~ In b (map fst d)) \/
  (~ In a (map fst d) /\ ~ In b (map fst d) /\
   exists pre post, keys = pre ++ a :: post /\ ~ In b pre).
Proof.
  induction keys as [| k keys IH]; intros d H; [left; exact H |].
  rewrite tally_cons in H. apply IH in H. clear IH.
  rewrite dict_set_keys in H.
  destruct (in_dec string_dec k (map fst d)) as [Hin | Hnotin].
  - destruct H as [H | [H | (Ha & Hb & pre & post & -> & Hpre)]]; auto.
    right. right. repeat split; auto.
    exists (k :: pre), post. split; [reflexivity |].
    intros [-> | Hb']; auto.
  - destruct H as [H | [[Ha Hb] | (Ha & Hb & pre & post & -> & Hpre)]].
    + apply before_snoc in H as [H | [Ha ->]]; auto.
    + rewrite in_app_iff in Ha, Hb. simpl in Ha, Hb.
      destruct Ha as [Ha | [<- | []]].
      * right. left. tauto.
      * right. right. repeat split; try tauto.
        exists [], keys. split; [reflexivity | intros []].
    + rewrite in_app_iff in Ha, Hb. simpl in Ha, Hb.
      right. right. repeat split; try tauto.
      exists (k :: pre), post. split; [reflexivity |].
      intros [-> | Hb']; tauto.
Qed.

Lemma before_neq {A : Type} (l : list A) (a b : A) :
  NoDup l -> before l a b -> a <> b.
Proof.
  intros ND (l1 & l2 & l3 & ->) <-.
  apply NoDup_remove_2 in ND. apply ND.
  apply in_or_app. right. apply in_or_app. right. left. reflexivity.
Qed.

Lemma tally_before keys a b :
  before (map fst (tally keys [])) a b -> created_before keys a b.
Proof.
  intros H. split.
  - eapply before_neq; [| exact H]. apply tally_nodup. constructor.
  - apply tally_before_gen in H.
    destruct H as [(l1 & l2 & l3 & E) | [[[] _] | (_ & _ & H)]]; [| exact H].
    destruct l1; discriminate.
Qed.

End Dicts.

Section Sorting.

Implicit Types (x y : string * Z) (l : list (string * Z)).

Lemma insert_desc_perm x l : Permutation (insert_desc x l) (x :: l).
Proof.
  induction l as [| y l IH]; simpl; [reflexivity |].
  destruct (snd y <=? snd x); [reflexivity |].
  rewrite IH. apply perm_swap.
Qed.

Lemma sorted_desc_perm l : Permutation (sorted_desc l) l.
Proof.
  induction l as [| x l IH]; simpl; [constructor |].
  rewrite insert_desc_perm. constructor. exact IH.
Qed.

Lemma insert_desc_sorted x l :
  StronglySorted count_ge l -> StronglySorted count_ge (insert_desc x l).
Proof.
  induction 1 as [| y l Hl IH Hy]; simpl.
  - repeat constructor.
  - destruct (Z.leb_spec (snd y) (snd x)) as [Hle | Hgt].
    + constructor; [constructor; assumption |].
      constructor; [exact Hle |].
      eapply Forall_impl; [| exact Hy]. unfold count_ge. intros; lia.
    + constructor; [exact IH |].
      eapply Permutation_Forall; [symmetry; apply insert_desc_perm |].
      constructor; [unfold count_ge; lia | exact Hy].
Qed.

Lemma sorted_desc_sorted l : StronglySorted count_ge (sorted_desc l).
Proof.
  induction l; simpl; [constructor | apply insert_desc_sorted; assumption].
Qed.

(** Stability: among the items of one count, the order is the one of the
    input. *)
Lemma insert_desc_filter c x l :
  filter (has_count c) (insert_desc x l) = filter (has_count c) (x :: l).
Proof.
  induction l as [| y l IH]; [reflexivity |].
  simpl insert_desc.
  destruct (Z.leb_spec (snd y) (snd x)) as [Hle | Hgt]; [reflexivity |].
  simpl in *. rewrite IH. unfold has_count.
  destruct (Z.eqb_spec (snd x) c), (Z.eqb_spec (snd y) c); try reflexivity.
  lia.
Qed.

Lemma sorted_desc_stable c l :
  filter (has_count c) (sorted_desc l) = filter (has_count c) l.
Proof.
  induction l as [| x l IH]; [reflexivity |].
  simpl sorted_desc. rewrite insert_desc_filter. simpl. rewrite IH.
  reflexivity.
Qed.

End Sorting.

Section Order.

Context {A : Type}.
Implicit Types (l : list A) (a b : A).

Lemma before_cons l x a b : before l a b -> before (x :: l) a b.
Proof.
  intros (l1 & l2 & l3 & ->). exists (x :: l1), l2, l3. reflexivity.
Qed.

Lemma before_head l a b : In b l -> before (a :: l) a b.
Proof.
  intros H. apply in_split in H as (l2 & l3 & ->).
  exists [], l2, l3. reflexivity.
Qed.

Lemma before_inv l x a b :
  before (x :: l) a b -> (x = a /\ In b l) \/ before l a b.
Proof.
  intros ([| y l1] & l2 & l3 & E); simpl in E; injection E as -> ->.
  - left. split; [reflexivity |].
    apply in_or_app. right. left. reflexivity.
  - right. exists l1, l2, l3. reflexivity.
Qed.

Lemma before_filter (p : A -> bool) l a b :
  before l a b -> p a = true -> p b = true -> before (filter p l) a b.
Proof.
  intros (l1 & l2 & l3 & ->) Ha Hb.
  exists (filter p l1), (filter p l2), (filter p l3).
  rewrite filter_app. simpl. rewrite Ha, filter_app. simpl. rewrite Hb.
  reflexivity.
Qed.

Lemma before_of_filter (p : A -> bool) l a b :
  before (filter p l) a b -> before l a b.
Proof.
  induction l as [| x l IH]; simpl; intros H.
  - destruct H as ([| ? ?] & ? & ? & E); discriminate.
  - destruct (p x).
    + apply before_inv in H as [[-> Hb] | H].
      * apply before_head. apply filter_In in Hb. tauto.
      * apply before_cons. auto.
    + apply before_cons. auto.
Qed.

Lemma before_firstn (n : nat) l a b : before (firstn n l) a b -> before l a b.
Proof.
  intros (l1 & l2 & l3 & E).
  exists l1, l2, (l3 ++ skipn n l).
  rewrite <- (firstn_skipn n l) at 1. rewrite E.
  rewrite <- !app_assoc. simpl. rewrite <- !app_assoc. reflexivity.
Qed.

Lemma before_map {B : Type} (f : A -> B) l a b :
  before l a b -> before (map f l) (f a) (f b).
Proof.
  intros (l1 & l2 & l3 & ->).
  exists (map f l1), (map f l2), (map f l3).
  rewrite map_app. simpl. rewrite map_app. reflexivity.
Qed.

Lemma nth_error_before l (i j : nat) a b :
  (i < j)%nat -> nth_error l i = Some a -> nth_error l j = Some b ->
  before l a b.
Proof.
  revert i j. induction l as [| x l IH]; intros i j Hij Hi Hj.
  - destruct i; discriminate.
  - destruct j as [| j]; [lia |]. simpl in Hj.
    destruct i as [| i]; simpl in Hi.
    + injection Hi as ->. apply before_head. eapply nth_error_In; eauto.
    + apply before_cons. apply (IH i j); auto. lia.
Qed.

End Order.

(** A stable sort moves an item past another only when their counts
    differ. *)
Lemma sorted_desc_keeps_order (l : list (string * Z)) (x y : string * Z) :
  before (sorted_desc l) x y -> snd x = snd y -> before l x y.
Proof.
  intros H E.
  apply (before_filter (has_count (snd x))) in H.
  - rewrite sorted_desc_stable in H. eapply before_of_filter; eauto.
  - unfold has_count. apply Z.eqb_refl.
  - unfold has_count. rewrite E. apply Z.eqb_refl.
Qed.

Lemma has_count_same (x : string * Z) : has_count (snd x) x = true.
Proof. unfold has_count. apply Z.eqb_refl. Qed.

Lemma has_count_other (c : Z) (x : string * Z) :
  snd x <> c -> has_count c x = false.
Proof. unfold has_count. apply Z.eqb_neq. Qed.

Lemma sorted_head_unique (x : string * Z) (l l' : list (string * Z)) :
  StronglySorted count_ge (x :: l) -> StronglySorted count_ge l' ->
  (forall c, filter (has_count c) (x :: l) = filter (has_count c) l') ->
  exists l'', l' = x :: l''.
Proof.
  intros S1 S2 Hf.
  assert (Hx : In x l').
  { apply (filter_In (has_count (snd x))). rewrite <- Hf. cbn [filter].
    rewrite has_count_same. left. reflexivity. }
  destruct l' as [| y l']; [contradiction |].
  destruct (Z.eq_dec (snd y) (snd x)) as [E | Hne].
  - specialize (Hf (snd x)). cbn [filter] in Hf.
    rewrite has_count_same in Hf.
    rewrite <- E in Hf at 2. rewrite has_count_same in Hf.
    injection Hf as -> _. eauto.
  - exfalso.
    assert (Hlt : snd x < snd y).
    { destruct Hx as [-> | Hx]; [congruence |].
      inversion S2 as [| ? ? _ Hy]; subst.
      rewrite Forall_forall in Hy. specialize (Hy x Hx).
      unfold count_ge in Hy. lia. }
    specialize (Hf (snd y)). cbn [filter] in Hf.
    rewrite has_count_same, (has_count_other (snd y) x) in Hf by lia.
    assert (Hy : In y (filter (has_count (snd y)) l)).
    { rewrite Hf. left. reflexivity. }
    apply filter_In in Hy as [Hy _].
    inversion S1 as [| ? ? _ Hall]; subst.
    rewrite Forall_forall in Hall. specialize (Hall y Hy).
    unfold count_ge in Hall. lia.
Qed.

Lemma sorted_stable_unique (l1 : list (string * Z)) : forall l2,
  StronglySorted count_ge l1 -> StronglySorted count_ge l2 ->
  (forall c, filter (has_count c) l1 = filter (has_count c) l2) ->
  l1 = l2.
Proof.
  induction l1 as [| x l1 IH]; intros l2 S1 S2 Hf.
  - destruct l2 as [| y l2]; [reflexivity |].
    specialize (Hf (snd y)). cbn [filter] in Hf.
    rewrite has_count_same in Hf. discriminate.
  - destruct (sorted_head_unique x l1 l2 S1 S2 Hf) as [l2' ->]. f_equal.
    inversion S1; inversion S2; subst. apply IH; auto.
    intros c. specialize (Hf c). cbn [filter] in Hf.
    destruct (has_count c x); [injection Hf; auto | exact Hf].
Qed.

(** [sorted_desc] is the only stable sort: a list sorted by non-increasing
    count that keeps, for each count, the items of [l] with that count in
    their order, is [sorted_desc l]. So it does not matter which stable
    algorithm [sorted] runs. *)
Lemma sorted_desc_unique (l l' : list (string * Z)) :
  StronglySorted count_ge l' ->
  (forall c, filter (has_count c) l' = filter (has_count c) l) ->
  l' = sorted_desc l.
Proof.
  intros S Hf. apply sorted_stable_unique; auto using sorted_desc_sorted.
  intros c. rewrite sorted_desc_stable. apply Hf.
Qed.

Lemma bind_return {A B : Type} (c : outcome A) (k : A -> outcome B) (b : B) :
  bind c k = Return b -> exists a, c = Return a /\ k a = Return b.
Proof. destruct c as [e | a]; simpl; [discriminate | eauto]. Qed.

Lemma bind_raise {A B : Type} (c : outcome A) (k : A -> outcome B) (e : exn) :
  bind c k = Raise e -> c = Raise e \/ exists a, c = Return a /\ k a = Raise e.
Proof. destruct c as [e' | a]; simpl; [intros [= ->]; auto | eauto]. Qed.

Section ErrorMonad.

Context {A B : Type}.

Lemma mapM_return (f : A -> outcome B) (l : list A) (l' : list B) :
  mapM f l = Return l' -> Forall2 (fun x y => f x = Return y) l l'.
Proof.
  revert l'. induction l as [| x l IH]; simpl; intros l' H.
  - injection H as <-. constructor.
  - apply bind_return in H as (y & Hy & H).
    destruct (mapM f l) as [e | ys]; simpl in H; [discriminate |].
    injection H as <-. constructor; auto.
Qed.

Lemma mapM_total (f : A -> outcome B) (l : list A) :
  Forall (fun x => exists y, f x = Return y) l -> exists l', mapM f l = Return l'.
Proof.
  induction 1 as [| x l [y Hy] _ [l' Hl']]; simpl.
  - eauto.
  - rewrite Hy, Hl'. simpl. eauto.
Qed.

Lemma mapM_map (f : A -> outcome B) (g : A -> B) (l : list A) :
  Forall (fun x => f x = Return (g x)) l -> mapM f l = Return (map g l).
Proof.
  induction 1 as [| x l Hx _ IH]; simpl; [reflexivity |].
  rewrite Hx, IH. reflexivity.
Qed.

End ErrorMonad.

Section SortedLists.

Context {A : Type} (R : A -> A -> Prop).

Lemma StronglySorted_firstn (n : nat) (l : list A) :
  StronglySorted R l -> StronglySorted R (firstn n l).
Proof.
  intros H. revert n. induction H as [| x l Hl IH Hx]; intros n.
  - rewrite firstn_nil. constructor.
  - destruct n as [| n]; simpl; constructor; [apply IH |].
    rewrite Forall_forall in *. intros y Hy. apply Hx.
    rewrite <- (firstn_skipn n l). apply in_or_app. auto.
Qed.


Lemma StronglySorted_map_inv {B : Type} (f : B -> A) (l : list B) :
  StronglySorted R (map f l) -> StronglySorted (fun x y => R (f x) (f y)) l.
Proof.
  induction l as [| x l IH]; simpl; intros H; [constructor |].
  inversion H as [| ? ? Hs Hx]; subst. constructor; [auto |].
  rewrite Forall_forall in *. intros y Hy. apply Hx. apply in_map. exact Hy.
Qed.

End SortedLists.

Lemma NoDup_map_fst_eq {A B : Type} (l : list (A * B)) (x y : A * B) :
  NoDup (map fst l) -> In x l -> In y l -> fst x = fst y -> x = y.
Proof.
  induction l as [| z l IH]; simpl; intros ND Hx Hy E; [contradiction |].
  inversion ND as [| ? ? Hnotin ND']; subst.
  destruct Hx as [-> | Hx], Hy as [-> | Hy]; auto.
  - exfalso. apply Hnotin. rewrite E. apply in_map. exact Hy.
  - exfalso. apply Hnotin. rewrite <- E. apply in_map. exact Hx.
Qed.

Lemma Forall2_in_left {A B : Type} (R : A -> B -> Prop) (l : list A)
    (l' : list B) (x : A) :
  Forall2 R l l' -> In x l -> exists y, In y l' /\ R x y.
Proof.
  induction 1 as [| x0 y0 l l' HR _ IH]; simpl; intros Hx; [contradiction |].
  destruct Hx as [-> | Hx]; [eauto |].
  destruct (IH Hx) as (y & Hy & HRy). eauto.
Qed.

Lemma Forall2_in_right {A B : Type} (R : A -> B -> Prop) (l : list A)
    (l' : list B) (y : B) :
  Forall2 R l l' -> In y l' -> exists x, In x l /\ R x y.
Proof.
  induction 1 as [| x0 y0 l l' HR _ IH]; simpl; intros Hy; [contradiction |].
  destruct Hy as [-> | Hy]; [eauto |].
  destruct (IH Hy) as (x & Hx & HRx). eauto.
Qed.

(** * Facts about the analyzer, for every arithmetic *)

Section AnalyzerFacts.

Context {F : Type} {num : PyNum F}.
Variable api : F -> F -> geocode_response.

Implicit Types (ps : list (place F)) (g : grid F) (r : report F)
  (h : hotspot F) (gs : Z).

Lemma count_places_tally g gs ps : forall d,
  count_places g gs ps d =
  (keys <- mapM (place_key g gs) ps ;; Return (tally keys d)).
Proof.
  induction ps as [| p ps IH]; intros d; simpl; [reflexivity |].
  destruct (place_key g gs p) as [e | k]; simpl; [reflexivity |].
  rewrite IH. destruct (mapM (place_key g gs) ps); reflexivity.
Qed.

Lemma analyze_density_report ps gs r :
  analyze_density api (PlaceList ps) gs = ReportDict r ->
  ps <> [] /\ analyze_body api ps gs = Return r.
Proof.
  unfold analyze_density. destruct ps as [| p ps]; [discriminate |].
  destruct (analyze_body api (p :: ps) gs); [discriminate |].
  intros [= ->]. split; [discriminate | reflexivity].
Qed.

Lemma analyze_density_of_body ps gs r :
  ps <> [] -> analyze_body api ps gs = Return r ->
  analyze_density api (PlaceList ps) gs = ReportDict r.
Proof.
  intros Hne H. unfold analyze_density.
  destruct ps; [contradiction | rewrite H; reflexivity].
Qed.

(** What a returned report was computed from. *)
Lemma analyze_body_return ps gs r :
  analyze_body api ps gs = Return r ->
  exists g keys details,
    make_grid ps gs = Return g /\
    mapM (place_key g gs) ps = Return keys /\
    count_places g gs ps [] = Return (tally keys []) /\
    mapM (hotspot_detail api g) (firstn 3 (sorted_desc (tally keys []))) =
      Return details /\
    r = mkReport (List.length ps) gs details.
Proof.
  unfold analyze_body. intros H.
  apply bind_return in H as (g & Hg & H).
  apply bind_return in H as (cells & Hcells & H).
  apply bind_return in H as (details & Hdetails & H).
  injection H as <-.
  pose proof Hcells as Hcells'.
  rewrite count_places_tally in Hcells.
  apply bind_return in Hcells as (keys & Hkeys & [= <-]).
  exists g, keys, details. auto.
Qed.

Lemma hotspot_detail_return g item h :
  hotspot_detail api g item = Return h ->
  exists lat_bin lng_bin,
    parse_key (fst item) = Return (lat_bin, lng_bin) /\
    cell_center (min_lat g) (lat_step g) lat_bin = Return (center_lat h) /\
    cell_center (min_lng g) (lng_step g) lng_bin = Return (center_lng h) /\
    hotspot_item h = item /\
    approximate_location h = reverse_geocode api (center_lat h) (center_lng h).
Proof.
  destruct item as [k c]. unfold hotspot_detail. intros H.
  apply bind_return in H as ([lat_bin lng_bin] & Hparse & H).
  apply bind_return in H as (clat & Hlat & H).
  apply bind_return in H as (clng & Hlng & H).
  injection H as <-. exists lat_bin, lng_bin. simpl. auto.
Qed.

Lemma hotspot_details_items g l details :
  mapM (hotspot_detail api g) l = Return details ->
  map hotspot_item details = l.
Proof.
  intros H. apply mapM_return in H.
  induction H as [| x y l l' Hxy _ IH]; simpl; [reflexivity |].
  apply hotspot_detail_return in Hxy as (_ & _ & _ & _ & _ & -> & _).
  rewrite IH. reflexivity.
Qed.

(** The items behind the hotspots are the first three of the sorted cells. *)
Lemma hotspots_items ps gs r :
  analyze_body api ps gs = Return r ->
  exists g keys,
    make_grid ps gs = Return g /\
    mapM (place_key g gs) ps = Return keys /\
    map hotspot_item (hotspots r) = firstn 3 (sorted_desc (tally keys [])).
Proof.
  intros H. apply analyze_body_return in H as (g & keys & details & H).
  destruct H as (Hg & Hkeys & _ & Hd & ->).
  exists g, keys. simpl. eauto using hotspot_details_items.
Qed.

(** The second loop does not depend on what the labels are. *)
Lemma hotspot_detail_relabel (api' : F -> F -> geocode_response) g item h :
  hotspot_detail api g item = Return h ->
  hotspot_detail api' g item = Return (relabel api' h).
Proof.
  destruct item as [k c]. unfold hotspot_detail. intros H.
  apply bind_return in H as ([lat_bin lng_bin] & Hparse & H).
  apply bind_return in H as (clat & Hlat & H).
  apply bind_return in H as (clng & Hlng & H).
  injection H as <-. rewrite Hparse. simpl. rewrite Hlat. simpl.
  rewrite Hlng. reflexivity.
Qed.

Lemma hotspot_details_relabel (api' : F -> F -> geocode_response) g l details :
  mapM (hotspot_detail api g) l = Return details ->
  mapM (hotspot_detail api' g) l = Return (map (relabel api') details).
Proof.
  revert details. induction l as [| x l IH]; simpl; intros details H.
  - injection H as <-. reflexivity.
  - apply bind_return in H as (y & Hy & H).
    apply bind_return in H as (ys & Hys & [= <-]).
    rewrite (hotspot_detail_relabel api' _ _ _ Hy). simpl.
    rewrite (IH _ Hys). reflexivity.
Qed.

Lemma analyze_body_relabel (api' : F -> F -> geocode_response) ps gs r :
  analyze_body api ps gs = Return r ->
  analyze_body api' ps gs =
  Return (mkReport (total_places r) (grid_size r) (map (relabel api') (hotspots r))).
Proof.
  intros H. apply analyze_body_return in H as (g & keys & details & H).
  destruct H as (Hg & _ & Hcells & Hd & ->).
  unfold analyze_body. rewrite Hg. cbn [bind]. rewrite Hcells. cbn [bind].
  rewrite (hotspot_details_relabel api' _ _ _ Hd). reflexivity.
Qed.

Lemma sorted_prefix_in (keys : list string) (item : string * Z) :
  In item (firstn 3 (sorted_desc (tally keys []))) -> In (fst item) keys.
Proof.
  intros Hitem. apply (in_map fst) in Hitem.
  assert (Hin : In (fst item) (map fst (tally keys []))).
  { rewrite <- (Permutation_map fst (sorted_desc_perm (tally keys []))).
    rewrite <- (firstn_skipn 3 (sorted_desc _)), map_app.
    apply in_or_app. auto. }
  apply tally_keys_in in Hin as [[] | Hin]. exact Hin.
Qed.

(** A hotspot is the cell of some place, and its centre is computed from
    the bins of that place. *)
Lemma hotspot_cell ps gs g keys details h :
  mapM (place_key g gs) ps = Return keys ->
  mapM (hotspot_detail api g) (firstn 3 (sorted_desc (tally keys []))) =
    Return details ->
  In h details ->
  exists row col frow fcol,
    grid_cell h = grid_key row col /\
    (exists p, In p ps /\ place_bins g gs p = Return (row, col)) /\
    f_of_int row = Some frow /\ f_of_int col = Some fcol /\
    center_lat h = f_add (min_lat g) (f_mul (f_add frow f_half) (lat_step g)) /\
    center_lng h = f_add (min_lng g) (f_mul (f_add fcol f_half) (lng_step g)).
Proof.
  intros Hkeys Hd Hh.
  destruct (Forall2_in_right _ _ _ _ (mapM_return _ _ _ Hd) Hh)
    as (item & Hitem & Hdetail).
  apply hotspot_detail_return in Hdetail
    as (row' & col' & Hparse & Hlat & Hlng & Hit & _).
  apply sorted_prefix_in in Hitem.
  destruct (Forall2_in_right _ _ _ _ (mapM_return _ _ _ Hkeys) Hitem)
    as (p & Hp & Hpk).
  unfold place_key in Hpk.
  apply bind_return in Hpk as ([row col] & Hbins & [= Hkey]).
  rewrite <- Hkey, parse_key_grid_key in Hparse.
  injection Hparse as <- <-.
  unfold cell_center in Hlat, Hlng.
  destruct (f_of_int row) as [frow |] eqn:Erow; [| discriminate].
  destruct (f_of_int col) as [fcol |] eqn:Ecol; [| discriminate].
  injection Hlat as Hlat. injection Hlng as Hlng.
  exists row, col, frow, fcol. repeat split; eauto.
  rewrite Hkey. rewrite <- Hit. reflexivity.
Qed.

Lemma tally_nonempty (keys : list string) : keys <> [] -> tally keys [] <> [].
Proof.
  intros Hne E. pose proof (tally_sum keys []) as H. rewrite E in H.
  destruct keys; [congruence |].
  cbn [sum_counts fold_right List.length] in H. lia.
Qed.

Lemma hotspots_length ps gs g keys details :
  mapM (place_key g gs) ps = Return keys ->
  mapM (hotspot_detail api g) (firstn 3 (sorted_desc (tally keys []))) =
    Return details ->
  List.length details = Nat.min 3 (List.length (tally keys [])) /\
  (ps <> [] -> (1 <= List.length details <= 3)%nat).
Proof.
  intros Hkeys Hd.
  assert (E : List.length details = Nat.min 3 (List.length (tally keys []))).
  { rewrite <- (length_map hotspot_item), (hotspot_details_items _ _ _ Hd).
    rewrite length_firstn, (Permutation_length (sorted_desc_perm _)).
    reflexivity. }
  split; [exact E |]. intros Hne.
  assert (Hk : keys <> []).
  { apply mapM_return, Forall2_length in Hkeys.
    destruct ps; [congruence |]. destruct keys; [discriminate | congruence]. }
  apply tally_nonempty in Hk.
  destruct (tally keys []); [congruence |]. cbn [List.length] in E. lia.
Qed.

(** The returned dict is the error dict of the exception the [try] block
    raised, or the whole report it computed. *)
Lemma analyze_density_shape ps gs :
  ps <> [] ->
  (exists e, analyze_body api ps gs = Raise e /\
             analyze_density api (PlaceList ps) gs = ErrorDict (Caught e)) \/
  (exists r, analyze_body api ps gs = Return r /\
             analyze_density api (PlaceList ps) gs = ReportDict r /\
             total_places r = List.length ps /\
             grid_size r = gs /\
             (1 <= List.length (hotspots r) <= 3)%nat).
Proof.
  intros Hne. unfold analyze_density. destruct ps as [| p ps']; [congruence |].
  destruct (analyze_body api (p :: ps') gs) as [e | r] eqn:E; [left; eauto |].
  right. exists r. split; [reflexivity |]. split; [reflexivity |].
  apply analyze_body_return in E as (g & keys & details & H).
  destruct H as (_ & Hkeys & _ & Hd & ->). cbn [total_places grid_size hotspots].
  repeat split; try reflexivity;
    apply (hotspots_length (p :: ps') gs g keys details Hkeys Hd); exact Hne.
Qed.

Lemma mapM_raise {A B : Type} (f : A -> outcome B) (l : list A) (e : exn) :
  mapM f l = Raise e -> exists x, In x l /\ f x = Raise e.
Proof.
  induction l as [| x l IH]; simpl; [discriminate |]. intros H.
  apply bind_raise in H as [H | (y & _ & H)]; [eauto |].
  apply bind_raise in H as [H | (ys & _ & H)]; [| discriminate].
  destruct (IH H) as (x' & Hx' & Hf). eauto.
Qed.

Lemma bin_of_no_zero_division (x lo step : F) :
  (forall q, f_trunc q <> Raise ZeroDivisionError) ->
  bin_of x lo step <> Raise ZeroDivisionError.
Proof.
  intros Htrunc. unfold bin_of, f_neb, truediv.
  destruct (f_eqb step f_zero); cbn [negb bind]; [discriminate | apply Htrunc].
Qed.

(** The divisions by the steps are guarded: if the [try] block raises
    [ZeroDivisionError], it is [grid_size] that converted to zero. *)
Lemma zero_division_only_by_grid_size ps gs :
  (forall q : F, f_trunc q <> Raise ZeroDivisionError) ->
  analyze_body api ps gs = Raise ZeroDivisionError ->
  exists y, f_of_int gs = Some y /\ f_eqb y f_zero = true.
Proof.
  intros Htrunc H.
  assert (Hstep : forall lo hi : F,
            grid_step lo hi gs = Raise ZeroDivisionError ->
            exists y, f_of_int gs = Some y /\ f_eqb y f_zero = true).
  { intros lo hi. unfold grid_step, truediv_int, truediv.
    destruct (f_neb hi lo); [| discriminate].
    destruct (f_of_int gs) as [y |]; [| discriminate].
    destruct (f_eqb y f_zero) eqn:E; [eauto | discriminate]. }
  assert (Hmin : forall l : list F, py_min l <> Raise ZeroDivisionError)
    by (intros [| ? ?]; discriminate).
  assert (Hmax : forall l : list F, py_max l <> Raise ZeroDivisionError)
    by (intros [| ? ?]; discriminate).
  unfold analyze_body in H.
  apply bind_raise in H as [H | (g & Hg & H)].
  - unfold make_grid in H.
    apply bind_raise in H as [H | (? & _ & H)]; [apply Hmin in H; contradiction |].
    apply bind_raise in H as [H | (? & _ & H)]; [apply Hmax in H; contradiction |].
    apply bind_raise in H as [H | (? & _ & H)]; [apply Hmin in H; contradiction |].
    apply bind_raise in H as [H | (? & _ & H)]; [apply Hmax in H; contradiction |].
    apply bind_raise in H as [H | (? & _ & H)]; [eauto |].
    apply bind_raise in H as [H | (? & _ & H)]; [eauto | discriminate].
  - exfalso. apply bind_raise in H as [H | (cells & _ & H)].
    + rewrite count_places_tally in H.
      apply bind_raise in H as [H | (? & _ & H)]; [| discriminate].
      apply mapM_raise in H as (p & _ & H). unfold place_key, place_bins in H.
      apply bind_raise in H as [H | ([? ?] & _ & H)]; [| discriminate].
      apply bind_raise in H as [H | (? & _ & H)];
        [apply bin_of_no_zero_division in H; auto |].
      apply bind_raise in H as [H | (? & _ & H)];
        [apply bin_of_no_zero_division in H; auto | discriminate].
    + apply bind_raise in H as [H | (? & _ & H)]; [| discriminate].
      apply mapM_raise in H as ([k c] & _ & H). unfold hotspot_detail in H.
      apply bind_raise in H as [H | ([row col] & _ & H)].
      * unfold parse_key, py_int in H.
        destruct (split "," k) as [| a [| b [| ? ?]]]; try discriminate.
        destruct (NilZero.int_of_string a); [| discriminate].
        destruct (NilZero.int_of_string b); discriminate.
      * unfold cell_center in H.
        destruct (f_of_int row); [| discriminate].
        destruct (f_of_int col); discriminate.
Qed.

End AnalyzerFacts.

(** * The report, for every arithmetic *)

Section Report.

Context {F : Type} {num : PyNum F}.
Variable api : F -> F -> geocode_response.

Implicit Types (ps : list (place F)) (g : grid F) (r : report F)
  (h : hotspot F) (gs : Z).

(** C1. When [analyze_density] returns a report, [total_places] is the
    number of places, the counts of the cells of [grid_counts] add up to
    it, every place has its key in exactly one cell, and the count of a cell
    is the number of places with its key. *)
Theorem report_counts_every_place ps gs r :
  analyze_density api (PlaceList ps) gs = ReportDict r ->
  exists g keys cells,
    make_grid ps gs = Return g /\
    mapM (place_key g gs) ps = Return keys /\
    count_places g gs ps [] = Return cells /\
    total_places r = List.length ps /\
    sum_counts cells = Z.of_nat (total_places r) /\
    (forall p, In p ps ->
       exists! cell, In cell cells /\ place_key g gs p = Return (fst cell)) /\
    (forall k c, In (k, c) cells -> c = occurrences k keys).
Proof.
  intros H. apply analyze_density_report in H as [_ H].
  apply analyze_body_return in H as (g & keys & details & H).
  destruct H as (Hg & Hkeys & Hcells & _ & ->).
  exists g, keys, (tally keys []).
  repeat split; auto.
  - rewrite tally_sum. simpl.
    apply mapM_return, Forall2_length in Hkeys. rewrite Hkeys. reflexivity.
  - intros p Hp.
    destruct (Forall2_in_left _ _ _ _ (mapM_return _ _ _ Hkeys) Hp)
      as (k & Hk & Hpk).
    assert (Hin : In k (map fst (tally keys []))) by (apply tally_keys_in; auto).
    apply in_map_iff in Hin as ([k' c] & E & Hcell). simpl in E. subst k'.
    exists (k, c). split; [auto |].
    intros cell' [Hcell' Hkey'].
    apply (NoDup_map_fst_eq (tally keys [])); auto.
    + apply tally_nodup. constructor.
    + rewrite Hpk in Hkey'. injection Hkey' as <-. reflexivity.
  - intros k c. apply tally_count.
Qed.

(** C3. The hotspots of a report stand by non-increasing count; of two
    hotspots with the same count, the one listed first is the cell that the
    scan of the places created first; and the cells, counts and centres of the
    hotspots are the same whatever the labels are. *)
Theorem hotspots_sorted_by_count_then_discovery ps gs r :
  analyze_density api (PlaceList ps) gs = ReportDict r ->
  StronglySorted (fun h h' => count h' <= count h) (hotspots r) /\
  (exists g keys,
     make_grid ps gs = Return g /\
     mapM (place_key g gs) ps = Return keys /\
     forall (i j : nat) h h',
       (i < j)%nat ->
       nth_error (hotspots r) i = Some h ->
       nth_error (hotspots r) j = Some h' ->
       count h = count h' ->
       created_before keys (grid_cell h) (grid_cell h')) /\
  (forall api' : F -> F -> geocode_response,
     analyze_density api' (PlaceList ps) gs =
     ReportDict (mkReport (total_places r) (grid_size r)
                   (map (relabel api') (hotspots r)))).
Proof.
  intros H. apply analyze_density_report in H as [Hne H].
  destruct (hotspots_items api _ _ _ H) as (g & keys & Hg & Hkeys & Hitems).
  split; [| split].
  - apply (StronglySorted_map_inv count_ge hotspot_item).
    rewrite Hitems. apply StronglySorted_firstn, sorted_desc_sorted.
  - exists g, keys. split; [exact Hg | split; [exact Hkeys |]].
    intros i j h h' Hij Hi Hj Hc.
    apply tally_before.
    change (grid_cell h) with (fst (hotspot_item h)).
    change (grid_cell h') with (fst (hotspot_item h')).
    apply before_map. apply sorted_desc_keeps_order; [| exact Hc].
    apply (before_firstn 3). rewrite <- Hitems.
    apply before_map. eapply nth_error_before; eauto.
  - intros api'. apply analyze_density_of_body; [exact Hne |].
    apply (analyze_body_relabel api). exact H.
Qed.

(** C6. An argument that is not a list, or an empty list, gives the error
    dict of the guard, not a report. *)
Theorem no_places_to_analyze gs :
  analyze_density api NotAList gs = ErrorDict NoPlacesToAnalyze /\
  analyze_density api (PlaceList []) gs = ErrorDict NoPlacesToAnalyze.
Proof. split; reflexivity. Qed.


(** C9. Whatever the reverse-geocoding request does, [reverse_geocode]
    returns a string: the report computed with one oracle is computed with
    every other, with the same cells, counts and centres, and a hotspot whose
    request raised, came back with a status other than ["OK"], with no
    result, or with a first result that has no address, is labelled
    ["Unknown location"]. *)
Theorem labeling_failure_is_absorbed ps gs r (api' : F -> F -> geocode_response) :
  analyze_density api (PlaceList ps) gs = ReportDict r ->
  exists r',
    analyze_density api' (PlaceList ps) gs = ReportDict r' /\
    total_places r' = total_places r /\
    grid_size r' = grid_size r /\
    hotspots r' = map (relabel api') (hotspots r) /\
    forall h', In h' (hotspots r') ->
      approximate_location h' = reverse_geocode api' (center_lat h') (center_lng h') /\
      (api' (center_lat h') (center_lng h') = RequestRaised ->
       approximate_location h' = "Unknown location") /\
      (forall status results,
         api' (center_lat h') (center_lng h') = JsonObject status results ->
         status <> Some "OK" \/ results = [] \/ hd_error results = Some None ->
         approximate_location h' = "Unknown location").
Proof.
  intros H. apply analyze_density_report in H as [Hne H].
  eexists. split; [| split; [| split; [| split]]].
  - apply analyze_density_of_body; [exact Hne |].
    apply (analyze_body_relabel api). exact H.
  - reflexivity.
  - reflexivity.
  - reflexivity.
  - simpl. intros h' Hh'. apply in_map_iff in Hh' as (h & <- & _).
    simpl. split; [reflexivity |]. unfold reverse_geocode. split.
    + intros ->. reflexivity.
    + intros status results -> [Hst | [-> | Hnone]].
      * destruct status as [st |]; [| reflexivity].
        destruct results; [reflexivity |].
        destruct (String.eqb_spec st "OK"); [congruence | reflexivity].
      * destruct status; reflexivity.
      * destruct results as [| [address |] rest]; try discriminate.
        destruct status as [st |]; [| reflexivity].
        destruct (String.eqb st "OK"); reflexivity.
Qed.

End Report.

Lemma clamp_range (b gs : Z) :
  (0 <= b)%Z -> (1 <= gs)%Z -> (0 <= clamp b gs < gs)%Z.
Proof.
  intros Hb Hgs. unfold clamp. destruct (Z.geb_spec b gs); lia.
Qed.

(** * Degenerate bounding boxes *)

Section Degenerate.

Context {F : Type} {num : PyNum F}.
Variable api : F -> F -> geocode_response.

Implicit Types (ps : list (place F)) (gs : Z) (a b : F).

Lemma min_fold_same a (xs : list F) :
  f_ltb a a = false -> Forall (eq a) xs ->
  fold_left (fun m y => if f_ltb y m then y else m) xs a = a.
Proof.
  intros Ha. induction 1 as [| x xs E _ IH]; simpl; [reflexivity |].
  subst x. rewrite Ha. exact IH.
Qed.

Lemma max_fold_same a (xs : list F) :
  f_ltb a a = false -> Forall (eq a) xs ->
  fold_left (fun m y => if f_ltb m y then y else m) xs a = a.
Proof.
  intros Ha. induction 1 as [| x xs E _ IH]; simpl; [reflexivity |].
  subst x. rewrite Ha. exact IH.
Qed.

Lemma py_min_same a (l : list F) :
  l <> [] -> f_ltb a a = false -> Forall (eq a) l -> py_min l = Return a.
Proof.
  intros Hne Ha Hl. destruct l as [| x xs]; [congruence |].
  apply Forall_cons_iff in Hl as [E Hxs]. subst x. unfold py_min.
  rewrite min_fold_same; auto.
Qed.

Lemma py_max_same a (l : list F) :
  l <> [] -> f_ltb a a = false -> Forall (eq a) l -> py_max l = Return a.
Proof.
  intros Hne Ha Hl. destruct l as [| x xs]; [congruence |].
  apply Forall_cons_iff in Hl as [E Hxs]. subst x. unfold py_max.
  rewrite max_fold_same; auto.
Qed.

Lemma tally_same (k : string) (keys : list string) :
  Forall (eq k) keys ->
  forall c, tally keys [(k, c)] = [(k, c + Z.of_nat (List.length keys))].
Proof.
  induction 1 as [| k' keys E _ IH]; intros c; [| subst k'].
  - simpl. rewrite Z.add_0_r. reflexivity.
  - rewrite tally_cons. cbn [dict_get dict_set]. rewrite String.eqb_refl.
    rewrite IH. cbn [List.length]. do 2 f_equal. lia.
Qed.

Lemma tally_same_nonempty (k : string) (keys : list string) :
  keys <> [] -> Forall (eq k) keys ->
  tally keys [] = [(k, Z.of_nat (List.length keys))].
Proof.
  intros Hne H. destruct keys as [| k' keys]; [congruence |].
  apply Forall_cons_iff in H as [E Hkeys]. subst k'.
  rewrite tally_cons. cbn [dict_get dict_set].
  rewrite (tally_same k keys Hkeys). cbn [List.length]. do 2 f_equal. lia.
Qed.

(** When all places of a non-empty list have the same ordinary latitude
    [a] and the same ordinary longitude [b], and [grid_size] is positive: both
    steps are the fallback [0.01], nothing raises, every place falls into the
    cell [(0, 0)], [grid_counts] holds that one cell, and the report has one
    hotspot, whose count is [total_places]. *)
Theorem degenerate_box_single_cell ps gs a b (zero : F) :
  ps <> [] ->
  (forall p, In p ps -> lat p = a /\ lng p = b) ->
  ordinary a -> ordinary b ->
  1 <= gs ->
  f_of_int 0 = Some zero ->
  make_grid ps gs = Return (mkGrid a a b b f_001 f_001) /\
  (forall p, In p ps ->
     place_bins (mkGrid a a b b f_001 f_001) gs p = Return (0, 0)) /\
  count_places (mkGrid a a b b f_001 f_001) gs ps [] =
    Return [("0,0", Z.of_nat (List.length ps))] /\
  exists center_lat center_lng,
    center_lat = f_add a (f_mul (f_add zero f_half) f_001) /\
    center_lng = f_add b (f_mul (f_add zero f_half) f_001) /\
    analyze_density api (PlaceList ps) gs =
    ReportDict
      (mkReport (List.length ps) gs
         [mkHotspot "0,0" (Z.of_nat (List.length ps)) center_lat center_lng
            (reverse_geocode api center_lat center_lng)]).
Proof.
  intros Hne Hsame (Ha1 & Ha2 & Ha3) (Hb1 & Hb2 & Hb3) Hgs Hzero.
  assert (Hlats : Forall (eq a) (map lat ps)).
  { apply Forall_forall. intros x Hx. apply in_map_iff in Hx as (p & <- & Hp).
    symmetry. apply Hsame. exact Hp. }
  assert (Hlngs : Forall (eq b) (map lng ps)).
  { apply Forall_forall. intros x Hx. apply in_map_iff in Hx as (p & <- & Hp).
    symmetry. apply Hsame. exact Hp. }
  assert (Hmap : forall f : place F -> F, map f ps <> []).
  { intros f. destruct ps; [congruence | discriminate]. }
  assert (Hgrid : make_grid ps gs = Return (mkGrid a a b b f_001 f_001)).
  { unfold make_grid.
    rewrite (py_min_same a), (py_max_same a), (py_min_same b), (py_max_same b);
      auto.
    cbn [bind]. unfold grid_step, f_neb. rewrite Ha2, Hb2. reflexivity. }
  assert (Hbins : forall p, In p ps ->
            place_bins (mkGrid a a b b f_001 f_001) gs p = Return (0, 0)).
  { intros p Hp. destruct (Hsame p Hp) as [Elat Elng].
    unfold place_bins. cbn [min_lat min_lng lat_step lng_step].
    rewrite Elat, Elng, Ha3, Hb3. cbn [bind]. unfold clamp.
    destruct (Z.geb_spec 0 gs); [lia | reflexivity]. }
  assert (Hkeys : mapM (place_key (mkGrid a a b b f_001 f_001) gs) ps =
                  Return (map (fun _ => "0,0") ps)).
  { apply mapM_map. apply Forall_forall. intros p Hp.
    unfold place_key. rewrite (Hbins p Hp). reflexivity. }
  assert (Hcells : count_places (mkGrid a a b b f_001 f_001) gs ps [] =
                   Return [("0,0", Z.of_nat (List.length ps))]).
  { rewrite count_places_tally, Hkeys. cbn [bind].
    rewrite (tally_same_nonempty "0,0").
    - rewrite length_map. reflexivity.
    - destruct ps; [congruence | discriminate].
    - apply Forall_forall. intros k Hk.
      apply in_map_iff in Hk as (? & <- & _). reflexivity. }
  repeat (split; [assumption |]).
  do 2 eexists. split; [reflexivity |]. split; [reflexivity |].
  apply analyze_density_of_body; [exact Hne |].
  unfold analyze_body. rewrite Hgrid. cbn [bind]. rewrite Hcells. cbn [bind].
  cbn [sorted_desc fold_right insert_desc firstn mapM].
  unfold hotspot_detail. change "0,0" with (grid_key 0 0).
  rewrite parse_key_grid_key. cbn [bind]. unfold cell_center.
  cbn [min_lat min_lng lat_step lng_step]. rewrite Hzero. reflexivity.
Qed.

End Degenerate.

(** * binary64 *)

Section Binary64Facts.

Import Binary64.

Lemma SFcompare_same (s : bool) (m : positive) (e : Z) :
  SFcompare (S754_finite s m e) (S754_finite s m e) = Some Eq.
Proof.
  unfold SFcompare. rewrite Z.compare_refl, Pos.compare_refl.
  destruct s; reflexivity.
Qed.

Lemma SF64sub_same (s : spec_float) :
  sf_finite s = true -> SF64sub s s = S754_zero false.
Proof.
  destruct s as [sx | sx | | sx m e]; try discriminate; intros _.
  - destruct sx; reflexivity.
  - unfold SF64sub, SFsub. rewrite Z.sub_diag. reflexivity.
Qed.

(** A finite binary64 number is ordinary. *)
Lemma binary64_ordinary (x : float) : finite x = true -> ordinary x.
Proof.
  unfold finite, ordinary. intros H.
  assert (Hsub : Prim2SF (x - x) = S754_zero false).
  { rewrite sub_spec. apply SF64sub_same. exact H. }
  cbn [f_ltb f_eqb Binary64.num]. rewrite ltb_spec, eqb_spec.
  unfold SFltb, SFeqb. repeat split.
  - destruct (Prim2SF x) as [sx | sx | | sx m e]; try discriminate.
    + reflexivity.
    + rewrite SFcompare_same. reflexivity.
  - destruct (Prim2SF x) as [sx | sx | | sx m e]; try discriminate.
    + reflexivity.
    + rewrite SFcompare_same. reflexivity.
  - unfold bin_of, f_neb, truediv.
    cbn [f_eqb f_001 f_zero f_sub f_div f_trunc Binary64.num].
    change (PrimFloat.eqb 0x1.47ae147ae147bp-7 0)%float with false.
    cbn [negb bind]. unfold Binary64.trunc.
    rewrite div_spec, Hsub. reflexivity.
Qed.

Lemma digits2_pos_bounds (m : positive) :
  2 ^ (Zpos (digits2_pos m) - 1) <= Zpos m < 2 ^ Zpos (digits2_pos m).
Proof.
  induction m as [m IH | m IH |]; cbn [digits2_pos].
  - rewrite Pos2Z.inj_succ.
    replace (Z.succ (Zpos (digits2_pos m)) - 1) with (Z.succ (Zpos (digits2_pos m) - 1)) by lia.
    rewrite !Z.pow_succ_r by lia. lia.
  - rewrite Pos2Z.inj_succ.
    replace (Z.succ (Zpos (digits2_pos m)) - 1) with (Z.succ (Zpos (digits2_pos m) - 1)) by lia.
    rewrite !Z.pow_succ_r by lia. lia.
  - simpl. lia.
Qed.

Lemma bounded_facts (m : positive) (e : Z) :
  bounded prec emax m e = true ->
  -1074 <= e /\ Zpos m < 2 ^ 53 /\ (-1074 < e -> 2 ^ 52 <= Zpos m).
Proof.
  unfold bounded, canonical_mantissa, fexp, emin, prec, emax.
  intros H. apply andb_prop in H as [H _]. apply Z.eqb_eq in H.
  pose proof (digits2_pos_bounds m) as [Hlo Hhi].
  set (d := Zpos (digits2_pos m)) in *.
  assert (Hd : d <= 53) by lia.
  split; [lia |]. split.
  - apply Z.lt_le_trans with (2 ^ d); [exact Hhi |].
    apply Z.pow_le_mono_r; lia.
  - intros He. assert (d = 53) by lia. subst d. rewrite H0 in Hlo. exact Hlo.
Qed.

Lemma pow2_split (a b : Z) : 0 <= a -> a <= b -> 2 ^ b = 2 ^ (b - a) * 2 ^ a.
Proof. intros. rewrite <- Z.pow_add_r by lia. f_equal. lia. Qed.

(** On canonical mantissas, a larger exponent is a larger number. *)
Lemma mantissa_exponent_lt (m1 m2 : positive) (e1 e2 : Z) :
  bounded prec emax m1 e1 = true -> bounded prec emax m2 e2 = true ->
  e1 < e2 ->
  Zpos m1 * 2 ^ (e1 + 1074) < Zpos m2 * 2 ^ (e2 + 1074).
Proof.
  intros H1 H2 He.
  apply bounded_facts in H1 as (Hmin1 & Hhi1 & _).
  apply bounded_facts in H2 as (Hmin2 & _ & Hlo2).
  specialize (Hlo2 ltac:(lia)).
  rewrite (pow2_split (e1 + 1074) (e2 + 1074)) by lia.
  assert (Hp : 0 < 2 ^ (e1 + 1074)) by (apply Z.pow_pos_nonneg; lia).
  assert (H2le : 2 ^ 1 <= 2 ^ (e2 + 1074 - (e1 + 1074)))
    by (apply Z.pow_le_mono_r; lia).
  change (2 ^ 1) with 2 in H2le.
  set (P := 2 ^ (e1 + 1074)) in *. set (K := 2 ^ (e2 + 1074 - (e1 + 1074))) in *.
  assert (Hm : Zpos m1 < 2 * Zpos m2).
  { change (2 ^ 53) with (2 * 2 ^ 52) in Hhi1. lia. }
  apply Z.lt_le_trans with (2 * Zpos m2 * P).
  - apply Z.mul_lt_mono_pos_r; assumption.
  - assert (HKP : 2 * P <= K * P) by (apply Z.mul_le_mono_nonneg_r; lia).
    replace (2 * Zpos m2 * P) with (Zpos m2 * (2 * P)) by ring.
    apply Z.mul_le_mono_nonneg_l; lia.
Qed.

Lemma SFcompare_val (x y : spec_float) :
  valid_binary x = true -> valid_binary y = true ->
  sf_finite x = true -> sf_finite y = true ->
  SFcompare x y = Some (SFval x ?= SFval y).
Proof.
  destruct x as [sx | sx | | sx mx ex], y as [sy | sy | | sy my ey];
    try discriminate; intros Vx Vy _ _; cbn [SFcompare SFval valid_binary] in *.
  - reflexivity.
  - assert (0 < 2 ^ (ey + 1074)).
    { apply Z.pow_pos_nonneg; [lia |]. apply bounded_facts in Vy. lia. }
    f_equal. symmetry. destruct sy; cbn [cond_Zopp]; [apply Z.compare_gt_iff | apply Z.compare_lt_iff]; nia.
  - assert (0 < 2 ^ (ex + 1074)).
    { apply Z.pow_pos_nonneg; [lia |]. apply bounded_facts in Vx. lia. }
    f_equal. symmetry. destruct sx; cbn [cond_Zopp]; [apply Z.compare_lt_iff | apply Z.compare_gt_iff]; nia.
  - assert (Hpx : 0 < 2 ^ (ex + 1074)).
    { apply Z.pow_pos_nonneg; [lia |]. apply bounded_facts in Vx. lia. }
    assert (Hpy : 0 < 2 ^ (ey + 1074)).
    { apply Z.pow_pos_nonneg; [lia |]. apply bounded_facts in Vy. lia. }
    f_equal. symmetry.
    destruct sx, sy; cbn [cond_Zopp].
    + destruct (Z.compare_spec ex ey) as [E | E | E].
      * subst ey. change (Pos.compare_cont Eq mx my) with (Pos.compare mx my).
        destruct (Pos.compare_spec mx my) as [E | E | E]; cbn [CompOpp].
        -- subst my. apply Z.compare_refl.
        -- apply Z.compare_gt_iff.
           assert (Zpos mx * 2 ^ (ex + 1074) < Zpos my * 2 ^ (ex + 1074))
             by (apply Z.mul_lt_mono_pos_r; [exact Hpx | lia]).
           lia.
        -- apply Z.compare_lt_iff.
           assert (Zpos my * 2 ^ (ex + 1074) < Zpos mx * 2 ^ (ex + 1074))
             by (apply Z.mul_lt_mono_pos_r; [exact Hpx | lia]).
           lia.
      * apply Z.compare_gt_iff.
        pose proof (mantissa_exponent_lt mx my ex ey Vx Vy E). lia.
      * apply Z.compare_lt_iff.
        pose proof (mantissa_exponent_lt my mx ey ex Vy Vx E). lia.
    + apply Z.compare_lt_iff. nia.
    + apply Z.compare_gt_iff. nia.
    + destruct (Z.compare_spec ex ey) as [E | E | E].
      * subst ey. change (Pos.compare_cont Eq mx my) with (Pos.compare mx my).
        destruct (Pos.compare_spec mx my) as [E | E | E].
        -- subst my. apply Z.compare_refl.
        -- apply Z.compare_lt_iff. apply Z.mul_lt_mono_pos_r; [exact Hpx | lia].
        -- apply Z.compare_gt_iff. apply Z.mul_lt_mono_pos_r; [exact Hpx | lia].
      * apply Z.compare_lt_iff. apply mantissa_exponent_lt; assumption.
      * apply Z.compare_gt_iff. apply mantissa_exponent_lt; assumption.
Qed.


Lemma binary_round_aux_nonneg (mx ex : Z) (lx : location) :
  sf_nonneg (binary_round_aux prec emax false mx ex lx).
Proof.
  unfold binary_round_aux.
  destruct (shr_fexp prec emax mx ex lx) as [mrs' e'].
  destruct (shr_fexp prec emax _ e' loc_Exact) as [mrs'' e''].
  destruct (shr_m mrs''); [exact I | | exact I].
  destruct (e'' <=? emax - prec); exact eq_refl.
Qed.

Lemma binary_round_nonneg (mx : positive) (ex : Z) :
  sf_nonneg (binary_round prec emax false mx ex).
Proof.
  unfold binary_round. destruct (shl_align mx ex _) as [mz ez].
  apply binary_round_aux_nonneg.
Qed.

Lemma binary_normalize_nonneg (m e : Z) :
  0 <= m -> sf_nonneg (binary_normalize prec emax m e false).
Proof.
  intros Hm. destruct m as [| p | p]; cbn [binary_normalize]; [exact I | | lia].
  apply binary_round_nonneg.
Qed.

Lemma shl_align_val (m : positive) (e ez : Z) :
  -1074 <= ez -> ez <= e ->
  Zpos (fst (shl_align m e ez)) * 2 ^ (ez + 1074) = Zpos m * 2 ^ (e + 1074).
Proof.
  intros Hez He. unfold shl_align.
  destruct (ez - e) as [| d | d] eqn:E; cbn [fst]; try lia.
  - replace ez with e by lia. reflexivity.
  - change (Pos.iter xO m d) with (shift_pos d m).
    rewrite shift_pos_correct. change (Z.pow_pos 2 d) with (2 ^ Zpos d).
    rewrite (pow2_split (ez + 1074) (e + 1074)) by lia.
    replace (e + 1074 - (ez + 1074)) with (Zpos d) by lia. ring.
Qed.

(** The difference of two finite numbers is not negative when the first is
    not the smaller one. *)
Lemma SFsub_nonneg (x y : spec_float) :
  valid_binary x = true -> valid_binary y = true ->
  sf_finite x = true -> sf_finite y = true ->
  SFval y <= SFval x ->
  sf_nonneg (SF64sub x y).
Proof.
  destruct x as [sx | sx | | sx mx ex], y as [sy | sy | | sy my ey];
    try discriminate; intros Vx Vy _ _ Hle;
    cbn [SF64sub SFsub SFval valid_binary sf_nonneg] in *.
  - destruct sx, sy; exact I.
  - apply bounded_facts in Vy as (He & _).
    assert (0 < 2 ^ (ey + 1074)) by (apply Z.pow_pos_nonneg; lia).
    destruct sy; cbn [cond_Zopp negb] in *; [reflexivity | nia].
  - apply bounded_facts in Vx as (He & _).
    assert (0 < 2 ^ (ex + 1074)) by (apply Z.pow_pos_nonneg; lia).
    destruct sx; cbn [cond_Zopp] in *; [nia | reflexivity].
  - unfold SF64sub, SFsub.
    apply bounded_facts in Vx as (Hex & _). apply bounded_facts in Vy as (Hey & _).
    apply binary_normalize_nonneg.
    set (ez := Z.min ex ey).
    pose proof (shl_align_val mx ex ez ltac:(lia) ltac:(lia)) as Hx.
    pose proof (shl_align_val my ey ez ltac:(lia) ltac:(lia)) as Hy.
    assert (Hp : 0 < 2 ^ (ez + 1074)) by (apply Z.pow_pos_nonneg; lia).
    set (X := Zpos (fst (shl_align mx ex ez))) in *.
    set (Y := Zpos (fst (shl_align my ey ez))) in *.
    assert (Hd : cond_Zopp sy Y * 2 ^ (ez + 1074) <= cond_Zopp sx X * 2 ^ (ez + 1074)).
    { destruct sx, sy; cbn [cond_Zopp] in *; lia. }
    apply Z.mul_le_mono_pos_r in Hd; [lia | exact Hp].
Qed.

Lemma SFdiv_nonneg (x y : spec_float) :
  sf_nonneg x -> sf_nonneg y -> sf_nonzero y -> sf_nonneg (SF64div x y).
Proof.
  destruct x as [sx | sx | | sx mx ex], y as [sy | sy | | sy my ey];
    cbn [sf_nonneg sf_nonzero SF64div SFdiv]; intros Hx Hy Hz;
    subst; try exact I; try contradiction; try reflexivity.
  unfold SF64div, SFdiv.
  destruct (SFdiv_core_binary prec emax (Z.pos mx) ex (Z.pos my) ey)
    as [[mz ez] lz].
  apply binary_round_aux_nonneg.
Qed.

Lemma SFldexp_nonneg (s : spec_float) (e : Z) :
  sf_nonneg s -> sf_nonneg (SFldexp prec emax s e).
Proof.
  destruct s as [sx | sx | | sx m ex]; cbn [SFldexp sf_nonneg]; auto.
  intros ->. apply binary_round_nonneg.
Qed.

(** A positive [int] converts to a float that is not negative. *)
Lemma of_int_nonneg (n : Z) (y : float) :
  0 <= n -> Binary64.of_int n = Some y -> sf_nonneg (Prim2SF y).
Proof.
  unfold Binary64.of_int. intros Hn H.
  pose proof (binary_normalize_nonneg n 0 Hn) as Hs.
  destruct (binary_normalize prec emax n 0 false) as [sx | sx | | sx m e];
    try discriminate; injection H as <-; cbn [sf_nonneg] in Hs.
  - destruct sx; exact I.
  - exact I.
  - subst sx. cbn [SF2Prim]. rewrite Z_ldexp_spec. apply SFldexp_nonneg.
    rewrite of_uint63_spec. apply binary_normalize_nonneg.
    apply Uint63.to_Z_bounded.
Qed.

Lemma trunc_nonneg (q : float) (n : Z) :
  sf_nonneg (Prim2SF q) -> Binary64.trunc q = Return n -> 0 <= n.
Proof.
  unfold Binary64.trunc.
  destruct (Prim2SF q) as [sx | sx | | sx m e]; cbn [sf_nonneg];
    intros Hs H; try discriminate; injection H as <-; [lia |].
  subst sx. destruct (0 <=? e).
  - apply Z.shiftl_nonneg. lia.
  - apply Z.shiftr_nonneg. lia.
Qed.



Lemma binary64_ltb_val (x y : float) :
  finite x = true -> finite y = true ->
  f_ltb x y = (value x <? value y).
Proof.
  intros Hx Hy. cbn [f_ltb Binary64.num]. rewrite ltb_spec. unfold SFltb.
  rewrite SFcompare_val by auto using Prim2SF_valid.
  reflexivity.
Qed.

Lemma binary64_min_fold (xs : list float) : forall m0 m,
  finite m0 = true -> Forall (fun y => finite y = true) xs ->
  fold_left (fun m y => if f_ltb y m then y else m) xs m0 = m ->
  finite m = true /\ value m <= value m0 /\
  forall y, In y xs -> value m <= value y.
Proof.
  induction xs as [| x xs IH]; intros m0 m Hm0 Hxs; cbn [fold_left];
    intros <-.
  - split; [exact Hm0 |]. split; [lia | intros y []].
  - apply Forall_cons_iff in Hxs as [Hx Hxs].
    rewrite (binary64_ltb_val x m0 Hx Hm0).
    destruct (Z.ltb_spec (value x) (value m0)) as [Hlt | Hge].
    + destruct (IH x _ Hx Hxs eq_refl) as (H1 & H2 & H3).
      split; [exact H1 |]. split; [lia |].
      intros y [<- | Hy]; auto.
    + destruct (IH m0 _ Hm0 Hxs eq_refl) as (H1 & H2 & H3).
      split; [exact H1 |]. split; [exact H2 |].
      intros y [<- | Hy]; [lia | auto].
Qed.

Lemma binary64_max_fold (xs : list float) : forall m0 m,
  finite m0 = true -> Forall (fun y => finite y = true) xs ->
  fold_left (fun m y => if f_ltb m y then y else m) xs m0 = m ->
  finite m = true /\ value m0 <= value m /\
  forall y, In y xs -> value y <= value m.
Proof.
  induction xs as [| x xs IH]; intros m0 m Hm0 Hxs; cbn [fold_left];
    intros <-.
  - split; [exact Hm0 |]. split; [lia | intros y []].
  - apply Forall_cons_iff in Hxs as [Hx Hxs].
    rewrite (binary64_ltb_val m0 x Hm0 Hx).
    destruct (Z.ltb_spec (value m0) (value x)) as [Hlt | Hge].
    + destruct (IH x _ Hx Hxs eq_refl) as (H1 & H2 & H3).
      split; [exact H1 |]. split; [lia |].
      intros y [<- | Hy]; auto.
    + destruct (IH m0 _ Hm0 Hxs eq_refl) as (H1 & H2 & H3).
      split; [exact H1 |]. split; [exact H2 |].
      intros y [<- | Hy]; [lia | auto].
Qed.

Lemma binary64_py_min (l : list float) (m : float) :
  Forall (fun y => finite y = true) l -> py_min l = Return m ->
  finite m = true /\ forall y, In y l -> value m <= value y.
Proof.
  destruct l as [| x xs]; [discriminate |]. intros Hl [= H].
  apply Forall_cons_iff in Hl as [Hx Hxs].
  destruct (binary64_min_fold xs x m Hx Hxs H) as (H1 & H2 & H3).
  split; [exact H1 |]. intros y [<- | Hy]; auto.
Qed.

Lemma binary64_py_max (l : list float) (m : float) :
  Forall (fun y => finite y = true) l -> py_max l = Return m ->
  finite m = true /\ forall y, In y l -> value y <= value m.
Proof.
  destruct l as [| x xs]; [discriminate |]. intros Hl [= H].
  apply Forall_cons_iff in Hl as [Hx Hxs].
  destruct (binary64_max_fold xs x m Hx Hxs H) as (H1 & H2 & H3).
  split; [exact H1 |]. intros y [<- | Hy]; auto.
Qed.

Lemma binary64_sub_nonneg (x y : float) :
  finite x = true -> finite y = true -> value y <= value x ->
  sf_nonneg (Prim2SF (x - y)).
Proof.
  intros Hx Hy Hle. rewrite sub_spec.
  apply SFsub_nonneg; auto using Prim2SF_valid.
Qed.

Lemma binary64_nonzero (y : float) :
  PrimFloat.eqb y 0 = false -> sf_nonzero (Prim2SF y).
Proof.
  rewrite eqb_spec. destruct (Prim2SF y); cbn; auto. discriminate.
Qed.

Lemma binary64_step_nonneg (lo hi step : float) (gs : Z) :
  finite lo = true -> finite hi = true -> value lo <= value hi ->
  1 <= gs ->
  grid_step lo hi gs = Return step -> sf_nonneg (Prim2SF step).
Proof.
  intros Hlo Hhi Hle Hgs. unfold grid_step, truediv_int, truediv.
  destruct (f_neb hi lo).
  - cbn [f_of_int f_eqb f_zero f_div f_sub Binary64.num].
    destruct (Binary64.of_int gs) as [y |] eqn:Ey; [| discriminate].
    destruct (PrimFloat.eqb y 0) eqn:E0; [discriminate |].
    intros [= <-]. rewrite div_spec.
    apply SFdiv_nonneg.
    + apply binary64_sub_nonneg; assumption.
    + apply (of_int_nonneg gs); [lia | exact Ey].
    + apply binary64_nonzero. exact E0.
  - intros [= <-]. vm_compute. reflexivity.
Qed.

Lemma binary64_bin_nonneg (x lo step : float) (b : Z) :
  finite x = true -> finite lo = true -> value lo <= value x ->
  sf_nonneg (Prim2SF step) ->
  bin_of x lo step = Return b -> 0 <= b.
Proof.
  intros Hx Hlo Hle Hstep. unfold bin_of, f_neb, truediv.
  cbn [f_eqb f_zero f_div f_sub f_trunc Binary64.num].
  destruct (PrimFloat.eqb step 0) eqn:E0; cbn [negb bind].
  - intros [= <-]. lia.
  - apply trunc_nonneg. rewrite div_spec. apply SFdiv_nonneg.
    + apply binary64_sub_nonneg; assumption.
    + exact Hstep.
    + apply binary64_nonzero. exact E0.
Qed.

(** C2. For places with finite coordinates and a positive [grid_size], the
    bins that [analyze_density] computes for a place of the list are not
    negative, a bin computed as [grid_size] or more becomes
    [grid_size - 1], and the row and the column assigned to the place lie in
    [0, grid_size). *)
Theorem binary64_bins_in_range (ps : list (place float)) (gs : Z)
    (g : grid float) (p : place float) (lat_bin lng_bin : Z) :
  (forall q, In q ps -> finite (lat q) = true /\ finite (lng q) = true) ->
  1 <= gs ->
  make_grid ps gs = Return g ->
  In p ps ->
  bin_of (lat p) (min_lat g) (lat_step g) = Return lat_bin ->
  bin_of (lng p) (min_lng g) (lng_step g) = Return lng_bin ->
  place_bins g gs p = Return (clamp lat_bin gs, clamp lng_bin gs) /\
  0 <= lat_bin /\ 0 <= lng_bin /\
  (gs <= lat_bin -> clamp lat_bin gs = gs - 1) /\
  (gs <= lng_bin -> clamp lng_bin gs = gs - 1) /\
  0 <= clamp lat_bin gs < gs /\
  0 <= clamp lng_bin gs < gs.
Proof.
  intros Hfin Hgs Hg Hp B1 B2.
  assert (Hlats : Forall (fun y => finite y = true) (map lat ps)).
  { apply Forall_forall. intros y Hy. apply in_map_iff in Hy as (q & <- & Hq).
    apply Hfin. exact Hq. }
  assert (Hlngs : Forall (fun y => finite y = true) (map lng ps)).
  { apply Forall_forall. intros y Hy. apply in_map_iff in Hy as (q & <- & Hq).
    apply Hfin. exact Hq. }
  assert (Hbins : place_bins g gs p = Return (clamp lat_bin gs, clamp lng_bin gs)).
  { unfold place_bins. rewrite B1, B2. reflexivity. }
  unfold make_grid in Hg.
  apply bind_return in Hg as (lo_lat & E1 & Hg).
  apply bind_return in Hg as (hi_lat & E2 & Hg).
  apply bind_return in Hg as (lo_lng & E3 & Hg).
  apply bind_return in Hg as (hi_lng & E4 & Hg).
  apply bind_return in Hg as (step_lat & E5 & Hg).
  apply bind_return in Hg as (step_lng & E6 & Hg).
  injection Hg as <-.
  cbn [min_lat min_lng lat_step lng_step] in B1, B2.
  destruct (binary64_py_min _ _ Hlats E1) as [F1 L1].
  destruct (binary64_py_max _ _ Hlats E2) as [F2 L2].
  destruct (binary64_py_min _ _ Hlngs E3) as [F3 L3].
  destruct (binary64_py_max _ _ Hlngs E4) as [F4 L4].
  pose proof (in_map lat _ _ Hp) as Hplat.
  pose proof (in_map lng _ _ Hp) as Hplng.
  destruct (Hfin p Hp) as [Fp1 Fp2].
  assert (S1 : sf_nonneg (Prim2SF step_lat)).
  { apply (binary64_step_nonneg lo_lat hi_lat step_lat gs); auto.
    specialize (L1 _ Hplat). specialize (L2 _ Hplat). lia. }
  assert (S2 : sf_nonneg (Prim2SF step_lng)).
  { apply (binary64_step_nonneg lo_lng hi_lng step_lng gs); auto.
    specialize (L3 _ Hplng). specialize (L4 _ Hplng). lia. }
  apply binary64_bin_nonneg in B1; auto.
  apply binary64_bin_nonneg in B2; auto.
  split; [exact Hbins |].
  unfold clamp. destruct (Z.geb_spec lat_bin gs), (Z.geb_spec lng_bin gs);
    repeat split; intros; lia.
Qed.

Lemma digits2_pos_shift (p k : positive) :
  digits2_pos (Pos.iter xO p k) = (digits2_pos p + k)%positive.
Proof.
  induction k as [| k IH] using Pos.peano_ind.
  - cbn. rewrite Pos.add_1_r. reflexivity.
  - rewrite Pos.iter_succ. cbn [digits2_pos]. rewrite IH. lia.
Qed.

(** A mantissa of 53 digits with an exponent in range is kept as it is. *)
Lemma binary_round_aux_exact (m : positive) (e : Z) :
  digits2_pos m = 53%positive -> -1074 <= e <= 971 ->
  binary_round_aux prec emax false (Zpos m) e loc_Exact = S754_finite false m e.
Proof.
  intros Hd He.
  assert (Hshr : shr_fexp prec emax (Zpos m) e loc_Exact =
                 (Build_shr_record (Zpos m) false false, e)).
  { unfold shr_fexp, fexp, emin, prec, emax. cbn [Zdigits2 shr_record_of_loc].
    rewrite Hd. replace (Z.max (53 + e - 53) (3 - 1024 - 53) - e) with 0 by lia.
    reflexivity. }
  unfold binary_round_aux. rewrite Hshr.
  cbn [shr_m loc_of_shr_record round_nearest_even]. rewrite Hshr.
  cbn [shr_m]. unfold prec, emax.
  destruct (Z.leb_spec e (1024 - 53)); [reflexivity | lia].
Qed.

Lemma bounded_53 (m : positive) (e : Z) :
  digits2_pos m = 53%positive -> -1074 <= e <= 971 ->
  bounded prec emax m e = true.
Proof.
  intros Hd He. unfold bounded, canonical_mantissa, fexp, emin, prec, emax.
  rewrite Hd. apply andb_true_intro. split.
  - apply Z.eqb_eq. lia.
  - apply Z.leb_le. lia.
Qed.

(** An [int] from [1] to [2^53 - 1] converts to a positive float. *)
Lemma binary_normalize_small (p : positive) :
  Zpos p < 2 ^ 53 ->
  exists m e,
    binary_normalize prec emax (Zpos p) 0 false = S754_finite false m e /\
    bounded prec emax m e = true.
Proof.
  intros Hp. cbn [binary_normalize]. unfold binary_round.
  pose proof (digits2_pos_bounds p) as [Hlo Hhi].
  assert (Hd : Zpos (digits2_pos p) <= 53).
  { destruct (Z.le_gt_cases (Zpos (digits2_pos p)) 53) as [H | H]; [exact H |].
    exfalso. assert (2 ^ 53 <= 2 ^ (Zpos (digits2_pos p) - 1))
      by (apply Z.pow_le_mono_r; lia). lia. }
  unfold shl_align, fexp, emin, prec, emax.
  replace (Z.max (Z.pos (digits2_pos p) + 0 - 53) (3 - 1024 - 53) - 0)
    with (Zpos (digits2_pos p) - 53) by lia.
  destruct (Zpos (digits2_pos p) - 53) as [| k | k] eqn:E; [| lia |].
  - assert (Hd53 : digits2_pos p = 53%positive) by lia.
    exists p, 0. split.
    + apply binary_round_aux_exact; [exact Hd53 | lia].
    + apply bounded_53; [exact Hd53 | lia].
  - assert (Hd53 : digits2_pos (Pos.iter xO p k) = 53%positive)
      by (rewrite digits2_pos_shift; lia).
    eexists _, _. split.
    + apply binary_round_aux_exact; [exact Hd53 | lia].
    + apply bounded_53; [exact Hd53 | lia].
Qed.

Lemma shr_1_m (mrs : shr_record) :
  0 <= shr_m mrs -> shr_m (shr_1 mrs) = shr_m mrs / 2.
Proof.
  destruct mrs as [m r s]. cbn [shr_m shr_1].
  destruct m as [| [p | p |] | p]; cbn [shr_m]; intros H;
    try reflexivity; try lia.
  - rewrite Pos2Z.inj_xI. apply Z.div_unique with 1; lia.
  - rewrite Pos2Z.inj_xO. apply Z.div_unique with 0; lia.
Qed.

Lemma iter_shr_1_m (k : positive) : forall mrs : shr_record,
  0 <= shr_m mrs ->
  shr_m (iter_pos shr_1 k mrs) = shr_m mrs / 2 ^ Zpos k.
Proof.
  assert (Hpos : forall j : positive, 0 < 2 ^ Zpos j)
    by (intros j; apply Z.pow_pos_nonneg; lia).
  assert (Hnonneg : forall (j : positive) (x : Z), 0 <= x -> 0 <= x / 2 ^ Zpos j)
    by (intros j x Hx; apply Z.div_pos; auto).
  induction k as [k IH | k IH |]; intros mrs Hm; cbn [iter_pos].
  - assert (H1 : 0 <= shr_m (shr_1 mrs)).
    { rewrite shr_1_m by exact Hm. apply Z.div_pos; lia. }
    rewrite IH.
    + rewrite IH by exact H1. rewrite shr_1_m by exact Hm.
      rewrite !Z.div_div by (pose proof (Hpos k); lia).
      f_equal. rewrite Pos2Z.inj_xI.
      replace (2 * Zpos k + 1) with (1 + Zpos k + Zpos k) by lia.
      rewrite !Z.pow_add_r by lia. change (2 ^ 1) with 2. ring.
    + rewrite IH by exact H1. apply Hnonneg. exact H1.
  - rewrite IH.
    + rewrite IH by exact Hm. rewrite Z.div_div by (pose proof (Hpos k); lia).
      f_equal. rewrite <- Z.pow_add_r by lia. f_equal. lia.
    + rewrite IH by exact Hm. apply Hnonneg. exact Hm.
  - rewrite shr_1_m by exact Hm. reflexivity.
Qed.

Lemma digits2_pos_unique (m : positive) (k : Z) :
  2 ^ (k - 1) <= Zpos m < 2 ^ k -> Zpos (digits2_pos m) = k.
Proof.
  intros [Hlo Hhi]. pose proof (digits2_pos_bounds m) as [Dlo Dhi].
  set (d := Zpos (digits2_pos m)) in *.
  assert (Hk : 0 < k).
  { destruct (Z.lt_ge_cases 0 k) as [H | H]; [exact H |]. exfalso.
    destruct (Z.eq_dec k 0) as [-> | Hne]; [simpl in Hhi; lia |].
    rewrite Z.pow_neg_r in Hhi by lia. lia. }
  destruct (Z.lt_trichotomy d k) as [H | [H | H]]; [| exact H |]; exfalso.
  - assert (2 ^ d <= 2 ^ (k - 1)) by (apply Z.pow_le_mono_r; lia). lia.
  - assert (2 ^ k <= 2 ^ (d - 1)) by (apply Z.pow_le_mono_r; lia). lia.
Qed.

Lemma round_nearest_even_bounds (m : Z) (l : location) :
  m <= round_nearest_even m l <= m + 1.
Proof.
  unfold round_nearest_even. destruct l as [| []]; try lia.
  destruct (Z.even m); lia.
Qed.

(** The last step of a rounding, on a mantissa of 53 digits or on [2^53]. *)
Lemma binary_round_last_step (q : Z) (e : Z) :
  2 ^ 52 <= q <= 2 ^ 53 -> -1074 <= e ->
  sf_positive
    (let '(mrs, e') := shr_fexp prec emax q e loc_Exact in
     match shr_m mrs with
     | Z0 => S754_zero false
     | Zpos m => if e' <=? emax - prec then S754_finite false m e'
                 else S754_infinity false
     | Zneg _ => S754_nan
     end).
Proof.
  intros Hq He. destruct q as [| q | q]; try lia.
  unfold shr_fexp, fexp, emin, prec, emax. cbn [Zdigits2 shr_record_of_loc].
  destruct (Z.eq_dec (Zpos q) (2 ^ 53)) as [E | Hne].
  - assert (Hd : Zpos (digits2_pos q) = 54)
      by (apply digits2_pos_unique; rewrite E; split; [reflexivity | reflexivity]).
    rewrite Hd. replace (Z.max (54 + e - 53) (3 - 1024 - 53) - e) with 1 by lia.
    cbn [shr iter_pos]. rewrite E. cbn [shr_1 shr_m Z.pow Z.pow_pos Pos.iter Z.mul Pos.mul].
    destruct (Z.leb_spec (e + 1) (1024 - 53)); cbn [sf_positive]; [| exact I].
    apply bounded_53; [reflexivity | lia].
  - assert (Hd : Zpos (digits2_pos q) = 53)
      by (apply digits2_pos_unique; change (53 - 1) with 52; lia).
    rewrite Hd. replace (Z.max (53 + e - 53) (3 - 1024 - 53) - e) with 0 by lia.
    cbn [shr shr_m].
    destruct (Z.leb_spec e (1024 - 53)); cbn [sf_positive]; [| exact I].
    apply bounded_53; [lia | lia].
Qed.

Lemma binary_round_positive (p : positive) :
  sf_positive (binary_round prec emax false p 0).
Proof.
  pose proof (digits2_pos_bounds p) as [Hlo Hhi].
  destruct (Z.le_gt_cases (Zpos (digits2_pos p)) 53) as [Hd | Hd].
  - assert (Hp : Zpos p < 2 ^ 53).
    { apply Z.lt_le_trans with (2 ^ Zpos (digits2_pos p)); [exact Hhi |].
      apply Z.pow_le_mono_r; lia. }
    destruct (binary_normalize_small p Hp) as (m & e & Hnorm & Hvalid).
    cbn [binary_normalize] in Hnorm. rewrite Hnorm. exact Hvalid.
  - unfold binary_round, shl_align.
    replace (fexp prec emax (Z.pos (digits2_pos p) + 0) - 0)
      with (Zpos (digits2_pos p) - 53)
      by (unfold fexp, emin, prec, emax; lia).
    destruct (Zpos (digits2_pos p) - 53) as [| k | k] eqn:E; try lia.
    unfold binary_round_aux.
    assert (Hshr : shr_fexp prec emax (Zpos p) 0 loc_Exact =
                   (iter_pos shr_1 k (Build_shr_record (Zpos p) false false),
                    Zpos k)).
    { unfold shr_fexp, fexp, emin, prec, emax.
      cbn [Zdigits2 shr_record_of_loc].
      replace (Z.max (Z.pos (digits2_pos p) + 0 - 53) (3 - 1024 - 53) - 0)
        with (Zpos k) by lia.
      reflexivity. }
    rewrite Hshr.
    set (mrs := iter_pos shr_1 k _).
    assert (Hm : shr_m mrs = Zpos p / 2 ^ Zpos k).
    { unfold mrs. rewrite iter_shr_1_m; cbn [shr_m]; [reflexivity | lia]. }
    assert (Hpk : 0 < 2 ^ Zpos k) by (apply Z.pow_pos_nonneg; lia).
    assert (Hsplit : 2 ^ Zpos (digits2_pos p) = 2 ^ 53 * 2 ^ Zpos k).
    { rewrite <- Z.pow_add_r by lia. f_equal. lia. }
    assert (Hsplit' : 2 ^ (Zpos (digits2_pos p) - 1) = 2 ^ 52 * 2 ^ Zpos k).
    { rewrite <- Z.pow_add_r by lia. f_equal. lia. }
    assert (Hb : 2 ^ 52 <= shr_m mrs < 2 ^ 53).
    { rewrite Hm. split.
      - apply Z.div_le_lower_bound; [exact Hpk |]. rewrite Z.mul_comm. lia.
      - apply Z.div_lt_upper_bound; [exact Hpk |]. rewrite Z.mul_comm. lia. }
    apply binary_round_last_step; [| lia].
    pose proof (round_nearest_even_bounds (shr_m mrs) (loc_of_shr_record mrs)).
    lia.
Qed.

(** An [int] that is at least [1] converts to a float that is not zero. *)
Lemma binary64_of_int_positive (n : Z) (y : float) :
  1 <= n -> Binary64.of_int n = Some y -> f_eqb y f_zero = false.
Proof.
  intros Hn. destruct n as [| p | p]; try lia.
  unfold Binary64.of_int. cbn [binary_normalize].
  pose proof (binary_round_positive p) as Hpos.
  destruct (binary_round prec emax false p 0) as [sx | sx | | sx m e];
    cbn [sf_positive] in Hpos; try contradiction; [discriminate |].
  destruct sx; [contradiction |]. intros H.
  replace y with (SF2Prim (S754_finite false m e)) by congruence.
  cbn [f_eqb f_zero Binary64.num]. rewrite eqb_spec.
  rewrite Prim2SF_SF2Prim by exact Hpos. reflexivity.
Qed.

Lemma binary64_trunc_no_zero_division (q : float) :
  f_trunc q <> Raise ZeroDivisionError.
Proof.
  cbn [f_trunc Binary64.num]. unfold Binary64.trunc.
  destruct (Prim2SF q); discriminate.
Qed.

(** C7. When all places of a non-empty list have the same finite latitude
    [a] and the same finite longitude [b] (a single place is such a list), and
    [grid_size] is positive: both steps are the fallback [0.01], nothing
    raises, every place falls into the cell [(0, 0)], [grid_counts] holds that
    one cell, and the report has one hotspot, whose count is
    [total_places]. *)
Theorem binary64_degenerate_box_single_cell
    (api : float -> float -> geocode_response) (ps : list (place float))
    (gs : Z) (a b : float) :
  ps <> [] ->
  (forall p, In p ps -> lat p = a /\ lng p = b) ->
  finite a = true -> finite b = true ->
  1 <= gs ->
  make_grid ps gs = Return (mkGrid a a b b f_001 f_001) /\
  (forall p, In p ps ->
     place_bins (mkGrid a a b b f_001 f_001) gs p = Return (0, 0)) /\
  count_places (mkGrid a a b b f_001 f_001) gs ps [] =
    Return [("0,0", Z.of_nat (List.length ps))] /\
  exists center_lat center_lng,
    center_lat = (a + (0 + 0x1p-1) * 0x1.47ae147ae147bp-7)%float /\
    center_lng = (b + (0 + 0x1p-1) * 0x1.47ae147ae147bp-7)%float /\
    analyze_density api (PlaceList ps) gs =
    ReportDict
      (mkReport (List.length ps) gs
         [mkHotspot "0,0" (Z.of_nat (List.length ps)) center_lat center_lng
            (reverse_geocode api center_lat center_lng)]).
Proof.
  intros Hne Hsame Ha Hb Hgs.
  exact (degenerate_box_single_cell api ps gs a b 0%float Hne Hsame
           (binary64_ordinary a Ha) (binary64_ordinary b Hb) Hgs eq_refl).
Qed.

End Binary64Facts.

(** * The keys of the cells *)

(** The key [f"{lat_bin},{lng_bin}"] of a cell, read back with
    [split(',')] and [int], gives the two bins it was built from, whatever
    their signs; so two cells have the same key only when they are the same
    cell. *)
Theorem grid_key_round_trip (lat_bin lng_bin : Z) :
  parse_key (grid_key lat_bin lng_bin) = Return (lat_bin, lng_bin) /\
  forall lat_bin' lng_bin',
    grid_key lat_bin lng_bin = grid_key lat_bin' lng_bin' ->
    lat_bin = lat_bin' /\ lng_bin = lng_bin'.
Proof.
  split; [apply parse_key_grid_key |].
  intros a b. apply grid_key_inj.
Qed.

(** * The counts of the hotspots *)

Section CountFacts.

Implicit Types (d : dict) (k : string) (keys : list string).

Lemma sum_counts_app d d' : sum_counts (d ++ d') = sum_counts d + sum_counts d'.
Proof. induction d as [| kv d IH]; simpl; [reflexivity | rewrite IH; lia]. Qed.

Lemma sum_counts_perm d d' : Permutation d d' -> sum_counts d = sum_counts d'.
Proof. induction 1; simpl; lia. Qed.

Lemma sum_counts_nonneg d :
  Forall (fun kv => 1 <= snd kv) d -> 0 <= sum_counts d.
Proof. induction 1; simpl; lia. Qed.

Lemma sum_counts_bound d (c : Z) :
  Forall (fun kv => snd kv <= c) d ->
  sum_counts d <= c * Z.of_nat (List.length d).
Proof.
  induction 1; cbn [sum_counts fold_right List.length]; [lia |].
  unfold sum_counts in *. lia.
Qed.

(** A cell of [grid_counts] holds at least one place. *)
Lemma tally_positive keys (kv : string * Z) :
  In kv (tally keys []) -> 1 <= snd kv.
Proof.
  destruct kv as [k c]. intros H. simpl.
  assert (Hk : In k keys).
  { apply (in_map fst) in H. apply tally_keys_in in H as [[] | H]. exact H. }
  apply tally_count in H. subst c. unfold occurrences.
  apply (count_occ_In string_dec) in Hk. lia.
Qed.

(** The keys of a grid of side [gs] are at most [gs * gs]. *)
Lemma keys_of_grid_length keys (gs : Z) :
  0 <= gs ->
  NoDup keys ->
  Forall (fun k => exists row col,
            k = grid_key row col /\ 0 <= row < gs /\ 0 <= col < gs) keys ->
  Z.of_nat (List.length keys) <= gs * gs.
Proof.
  intros Hgs ND Hall.
  set (range := map Z.of_nat (seq 0 (Z.to_nat gs))).
  set (all := map (fun rc => grid_key (fst rc) (snd rc)) (list_prod range range)).
  assert (Hrange : forall n, 0 <= n < gs -> In n range).
  { intros n Hn. apply in_map_iff. exists (Z.to_nat n). split; [lia |].
    apply in_seq. lia. }
  assert (Hincl : incl keys all).
  { intros k Hk. rewrite Forall_forall in Hall.
    destruct (Hall k Hk) as (row & col & -> & Hrow & Hcol).
    apply in_map_iff. exists (row, col). split; [reflexivity |].
    apply in_prod; auto. }
  apply (NoDup_incl_length ND) in Hincl.
  unfold all in Hincl. rewrite length_map, length_prod in Hincl.
  unfold range in Hincl. rewrite length_map, length_seq in Hincl. nia.
Qed.

End CountFacts.

Section HotspotCounts.

Context {F : Type} {num : PyNum F}.
Variable api : F -> F -> geocode_response.

Implicit Types (ps : list (place F)) (g : grid F) (r : report F)
  (h : hotspot F) (gs : Z).

(** The first of the sorted cells has the largest count, and the number of
    places is at most that count times the number of cells. *)
Lemma top_cell_bounds (keys : list string) (top : string * Z)
    (l : list (string * Z)) :
  sorted_desc (tally keys []) = top :: l ->
  1 <= snd top /\
  (forall cell, In cell (tally keys []) -> snd cell <= snd top) /\
  Z.of_nat (List.length keys) <=
    snd top * Z.of_nat (List.length (tally keys [])).
Proof.
  intros E.
  pose proof (sorted_desc_perm (tally keys [])) as Hperm.
  pose proof (sorted_desc_sorted (tally keys [])) as Hsorted.
  rewrite E in Hperm, Hsorted.
  assert (Hmax : forall cell, In cell (tally keys []) -> snd cell <= snd top).
  { intros cell Hcell.
    apply (Permutation_in _ (Permutation_sym Hperm)) in Hcell.
    destruct Hcell as [<- | Hcell]; [lia |].
    inversion Hsorted as [| ? ? _ Hall]; subst.
    rewrite Forall_forall in Hall. apply (Hall cell Hcell). }
  split; [| split; [exact Hmax |]].
  - apply (tally_positive keys). apply (Permutation_in _ Hperm).
    left. reflexivity.
  - pose proof (tally_sum keys []) as Hsum.
    cbn [sum_counts fold_right] in Hsum. rewrite Z.add_0_l in Hsum.
    rewrite <- Hsum. apply sum_counts_bound. apply Forall_forall. exact Hmax.
Qed.

(** Every hotspot of a report counts at least one place and at most
    [total_places]; no two hotspots are the same cell; the counts of the
    hotspots add up to at most [total_places], and to [total_places] exactly
    when at most three cells are occupied. *)
Theorem hotspot_counts_add_up ps gs r :
  analyze_density api (PlaceList ps) gs = ReportDict r ->
  exists g cells,
    make_grid ps gs = Return g /\
    count_places g gs ps [] = Return cells /\
    (forall h, In h (hotspots r) -> 1 <= count h <= Z.of_nat (total_places r)) /\
    NoDup (map grid_cell (hotspots r)) /\
    sum_counts (map hotspot_item (hotspots r)) <= Z.of_nat (total_places r) /\
    ((List.length cells <= 3)%nat ->
     sum_counts (map hotspot_item (hotspots r)) = Z.of_nat (total_places r)).
Proof.
  intros H. apply analyze_density_report in H as [_ H].
  apply analyze_body_return in H as (g & keys & details & H).
  destruct H as (Hg & Hkeys & Hcells & Hd & ->).
  cbn [hotspots total_places].
  pose proof (hotspot_details_items api _ _ _ Hd) as Hitems.
  pose proof (sorted_desc_perm (tally keys [])) as Hperm.
  assert (Hlen : List.length keys = List.length ps).
  { apply mapM_return, Forall2_length in Hkeys. auto. }
  assert (Hsum : sum_counts (sorted_desc (tally keys [])) =
                 Z.of_nat (List.length ps)).
  { rewrite (sum_counts_perm _ _ Hperm), tally_sum, Hlen. simpl. lia. }
  assert (Hpos : Forall (fun kv => 1 <= snd kv) (sorted_desc (tally keys []))).
  { apply Forall_forall. intros kv Hkv. apply (tally_positive keys).
    apply (Permutation_in _ Hperm). exact Hkv. }
  rewrite <- (firstn_skipn 3 (sorted_desc (tally keys []))) in Hsum, Hpos.
  rewrite sum_counts_app in Hsum. apply Forall_app in Hpos as [Hpos1 Hpos2].
  pose proof (sum_counts_nonneg _ Hpos2) as Hrest.
  exists g, (tally keys []). rewrite Hitems.
  split; [exact Hg |]. split; [exact Hcells |]. split; [| split; [| split]].
  - intros h Hh. apply (in_map hotspot_item) in Hh. rewrite Hitems in Hh.
    pose proof (proj1 (Forall_forall _ _) Hpos1 _ Hh) as H1.
    cbn [hotspot_item snd] in H1. split; [exact H1 |].
    apply in_split in Hh as (l1 & l2 & E). rewrite E in Hsum, Hpos1.
    rewrite sum_counts_app in Hsum. cbn [sum_counts fold_right] in Hsum.
    apply Forall_app in Hpos1 as [P1 P2]. apply Forall_cons_iff in P2 as [_ P2].
    pose proof (sum_counts_nonneg _ P1). pose proof (sum_counts_nonneg _ P2).
    unfold sum_counts in *. cbn [hotspot_item snd] in Hsum. lia.
  - replace (map grid_cell details) with (map fst (map hotspot_item details))
      by (rewrite map_map; reflexivity).
    rewrite Hitems.
    assert (ND : NoDup (map fst (sorted_desc (tally keys [])))).
    { eapply Permutation_NoDup.
      - apply Permutation_map. symmetry. exact Hperm.
      - apply tally_nodup. constructor. }
    rewrite <- (firstn_skipn 3 (sorted_desc (tally keys []))), map_app in ND.
    apply NoDup_app_remove_r in ND. exact ND.
  - lia.
  - intros Hshort.
    rewrite firstn_all2 in Hsum
      by (rewrite (Permutation_length Hperm); exact Hshort).
    rewrite firstn_all2 by (rewrite (Permutation_length Hperm); exact Hshort).
    rewrite skipn_all2 in Hsum
      by (rewrite (Permutation_length Hperm); exact Hshort).
    cbn [sum_counts fold_right] in Hsum. unfold sum_counts in *. lia.
Qed.

(** The first hotspot of a report is a cell of largest count, and it holds
    at least the average: [total_places] is at most its count times the
    number of occupied cells. *)
Theorem top_hotspot_at_least_average ps gs r :
  analyze_density api (PlaceList ps) gs = ReportDict r ->
  exists g cells h rest,
    make_grid ps gs = Return g /\
    count_places g gs ps [] = Return cells /\
    hotspots r = h :: rest /\
    (forall cell, In cell cells -> snd cell <= count h) /\
    Z.of_nat (total_places r) <= count h * Z.of_nat (List.length cells).
Proof.
  intros H. apply analyze_density_report in H as [Hne H].
  apply analyze_body_return in H as (g & keys & details & H).
  destruct H as (Hg & Hkeys & Hcells & Hd & ->).
  cbn [hotspots total_places].
  pose proof (hotspot_details_items api _ _ _ Hd) as Hitems.
  assert (Hlen : List.length keys = List.length ps).
  { apply mapM_return, Forall2_length in Hkeys. auto. }
  destruct (hotspots_length api ps gs g keys details Hkeys Hd) as [_ Hn].
  specialize (Hn Hne).
  destruct details as [| h rest]; [simpl in Hn; lia |].
  destruct (sorted_desc (tally keys [])) as [| top l] eqn:E; [discriminate |].
  cbn [map firstn] in Hitems. injection Hitems as Htop _.
  destruct (top_cell_bounds keys top l E) as (_ & Hmax & Hsum).
  rewrite <- Htop in Hmax, Hsum. cbn [hotspot_item snd] in Hmax, Hsum.
  exists g, (tally keys []), h, rest. rewrite <- Hlen. auto.
Qed.

End HotspotCounts.

(** * The bounding box and the cells, on binary64 *)

Section Extrema.

Context {F : Type} {num : PyNum F}.

Lemma min_fold_in (xs : list F) : forall m0,
  let m := fold_left (fun m y => if f_ltb y m then y else m) xs m0 in
  m = m0 \/ In m xs.
Proof.
  induction xs as [| x xs IH]; intros m0; cbn [fold_left]; [left; reflexivity |].
  destruct (f_ltb x m0).
  - destruct (IH x) as [E | H];
      [right; left; symmetry; exact E | right; right; exact H].
  - destruct (IH m0) as [E | H]; [left; exact E | right; right; exact H].
Qed.

Lemma max_fold_in (xs : list F) : forall m0,
  let m := fold_left (fun m y => if f_ltb m y then y else m) xs m0 in
  m = m0 \/ In m xs.
Proof.
  induction xs as [| x xs IH]; intros m0; cbn [fold_left]; [left; reflexivity |].
  destruct (f_ltb m0 x).
  - destruct (IH x) as [E | H];
      [right; left; symmetry; exact E | right; right; exact H].
  - destruct (IH m0) as [E | H]; [left; exact E | right; right; exact H].
Qed.

(** [min(l)] and [max(l)] are items of [l]. *)
Lemma py_min_in (l : list F) (m : F) : py_min l = Return m -> In m l.
Proof.
  destruct l as [| x xs]; [discriminate |]. intros [= <-].
  destruct (min_fold_in xs x) as [E | H];
    [left; symmetry; exact E | right; exact H].
Qed.

Lemma py_max_in (l : list F) (m : F) : py_max l = Return m -> In m l.
Proof.
  destruct l as [| x xs]; [discriminate |]. intros [= <-].
  destruct (max_fold_in xs x) as [E | H];
    [left; symmetry; exact E | right; exact H].
Qed.

End Extrema.

Section Binary64Cells.

Import Binary64.

Variable api : float -> float -> geocode_response.

Lemma binary64_place_bins_range (ps : list (place float)) (gs : Z)
    (g : grid float) (p : place float) (row col : Z) :
  (forall q, In q ps -> finite (lat q) = true /\ finite (lng q) = true) ->
  1 <= gs ->
  make_grid ps gs = Return g ->
  In p ps ->
  place_bins g gs p = Return (row, col) ->
  0 <= row < gs /\ 0 <= col < gs.
Proof.
  intros Hfin Hgs Hg Hp Hbins.
  assert (Hlats : Forall (fun y => finite y = true) (map lat ps)).
  { apply Forall_forall. intros y Hy. apply in_map_iff in Hy as (q & <- & Hq).
    apply Hfin. exact Hq. }
  assert (Hlngs : Forall (fun y => finite y = true) (map lng ps)).
  { apply Forall_forall. intros y Hy. apply in_map_iff in Hy as (q & <- & Hq).
    apply Hfin. exact Hq. }
  unfold place_bins in Hbins.
  apply bind_return in Hbins as (lat_bin & B1 & Hbins).
  apply bind_return in Hbins as (lng_bin & B2 & [= <- <-]).
  unfold make_grid in Hg.
  apply bind_return in Hg as (lo_lat & E1 & Hg).
  apply bind_return in Hg as (hi_lat & E2 & Hg).
  apply bind_return in Hg as (lo_lng & E3 & Hg).
  apply bind_return in Hg as (hi_lng & E4 & Hg).
  apply bind_return in Hg as (step_lat & E5 & Hg).
  apply bind_return in Hg as (step_lng & E6 & Hg).
  injection Hg as <-.
  cbn [min_lat min_lng lat_step lng_step] in B1, B2.
  destruct (binary64_py_min _ _ Hlats E1) as [F1 L1].
  destruct (binary64_py_max _ _ Hlats E2) as [F2 L2].
  destruct (binary64_py_min _ _ Hlngs E3) as [F3 L3].
  destruct (binary64_py_max _ _ Hlngs E4) as [F4 L4].
  pose proof (in_map lat _ _ Hp) as Hplat.
  pose proof (in_map lng _ _ Hp) as Hplng.
  destruct (Hfin p Hp) as [Fp1 Fp2].
  assert (S1 : sf_nonneg (Prim2SF step_lat)).
  { apply (binary64_step_nonneg lo_lat hi_lat step_lat gs); auto.
    specialize (L1 _ Hplat). specialize (L2 _ Hplat). lia. }
  assert (S2 : sf_nonneg (Prim2SF step_lng)).
  { apply (binary64_step_nonneg lo_lng hi_lng step_lng gs); auto.
    specialize (L3 _ Hplng). specialize (L4 _ Hplng). lia. }
  apply binary64_bin_nonneg in B1; auto.
  apply binary64_bin_nonneg in B2; auto.
  split; apply clamp_range; auto.
Qed.

Lemma binary64_leb_val (x y : float) :
  finite x = true -> finite y = true ->
  value x <= value y -> (x <=? y)%float = true.
Proof.
  intros Hx Hy Hle. rewrite leb_spec. unfold SFleb.
  rewrite SFcompare_val by auto using Prim2SF_valid.
  fold (value x) (value y).
  destruct (Z.compare_spec (value x) (value y)); try reflexivity. lia.
Qed.

(** On binary64, for places with finite coordinates, the bounding box is
    the tightest one: each of its four bounds is a coordinate of some place
    of the list, and every place lies between them, bounds included. *)
Theorem binary64_bounding_box (ps : list (place float)) (gs : Z)
    (g : grid float) :
  (forall q, In q ps -> finite (lat q) = true /\ finite (lng q) = true) ->
  make_grid ps gs = Return g ->
  In (min_lat g) (map lat ps) /\ In (max_lat g) (map lat ps) /\
  In (min_lng g) (map lng ps) /\ In (max_lng g) (map lng ps) /\
  forall p, In p ps ->
    (min_lat g <=? lat p)%float = true /\ (lat p <=? max_lat g)%float = true /\
    (min_lng g <=? lng p)%float = true /\ (lng p <=? max_lng g)%float = true.
Proof.
  intros Hfin Hg.
  assert (Hlats : Forall (fun y => finite y = true) (map lat ps)).
  { apply Forall_forall. intros y Hy. apply in_map_iff in Hy as (q & <- & Hq).
    apply Hfin. exact Hq. }
  assert (Hlngs : Forall (fun y => finite y = true) (map lng ps)).
  { apply Forall_forall. intros y Hy. apply in_map_iff in Hy as (q & <- & Hq).
    apply Hfin. exact Hq. }
  unfold make_grid in Hg.
  apply bind_return in Hg as (lo_lat & E1 & Hg).
  apply bind_return in Hg as (hi_lat & E2 & Hg).
  apply bind_return in Hg as (lo_lng & E3 & Hg).
  apply bind_return in Hg as (hi_lng & E4 & Hg).
  apply bind_return in Hg as (step_lat & E5 & Hg).
  apply bind_return in Hg as (step_lng & E6 & Hg).
  injection Hg as <-. cbn [min_lat max_lat min_lng max_lng].
  destruct (binary64_py_min _ _ Hlats E1) as [F1 L1].
  destruct (binary64_py_max _ _ Hlats E2) as [F2 L2].
  destruct (binary64_py_min _ _ Hlngs E3) as [F3 L3].
  destruct (binary64_py_max _ _ Hlngs E4) as [F4 L4].
  split; [eapply py_min_in; eauto |]. split; [eapply py_max_in; eauto |].
  split; [eapply py_min_in; eauto |]. split; [eapply py_max_in; eauto |].
  intros p Hp. destruct (Hfin p Hp) as [Fp1 Fp2].
  repeat split; apply binary64_leb_val; auto using in_map.
Qed.

(** On binary64, for places with finite coordinates and a positive
    [grid_size], a report comes from at most [grid_size * grid_size] occupied
    cells, and its first hotspot holds at least one place in
    [grid_size * grid_size]: [total_places] is at most its count times
    [grid_size * grid_size]. *)
Theorem binary64_occupied_cells_bounded (ps : list (place float)) (gs : Z)
    (r : report float) :
  (forall q, In q ps -> finite (lat q) = true /\ finite (lng q) = true) ->
  1 <= gs ->
  analyze_density api (PlaceList ps) gs = ReportDict r ->
  exists g cells h rest,
    make_grid ps gs = Return g /\
    count_places g gs ps [] = Return cells /\
    Z.of_nat (List.length cells) <= gs * gs /\
    hotspots r = h :: rest /\
    Z.of_nat (total_places r) <= count h * (gs * gs).
Proof.
  intros Hfin Hgs H. apply analyze_density_report in H as [Hne H].
  apply analyze_body_return in H as (g & keys & details & H).
  destruct H as (Hg & Hkeys & Hcells & Hd & ->).
  cbn [hotspots total_places].
  pose proof (hotspot_details_items api _ _ _ Hd) as Hitems.
  assert (Hlen : List.length keys = List.length ps).
  { apply mapM_return, Forall2_length in Hkeys. auto. }
  assert (Hbound : Z.of_nat (List.length (tally keys [])) <= gs * gs).
  { rewrite <- (length_map fst). apply keys_of_grid_length; [lia | |].
    - apply tally_nodup. constructor.
    - apply Forall_forall. intros k Hk.
      apply tally_keys_in in Hk as [[] | Hk].
      destruct (Forall2_in_right _ _ _ _ (mapM_return _ _ _ Hkeys) Hk)
        as (p & Hp & Hpk).
      unfold place_key in Hpk.
      apply bind_return in Hpk as ([row col] & Hbins & [= <-]).
      exists row, col. split; [reflexivity |].
      eapply binary64_place_bins_range; eauto. }
  destruct (hotspots_length api ps gs g keys details Hkeys Hd) as [_ Hn].
  specialize (Hn Hne).
  destruct details as [| h rest]; [simpl in Hn; lia |].
  destruct (sorted_desc (tally keys [])) as [| top l] eqn:E; [discriminate |].
  cbn [map firstn] in Hitems. injection Hitems as Htop _.
  destruct (top_cell_bounds keys top l E) as (Hh & _ & Hsum).
  rewrite <- Htop in Hh, Hsum. cbn [hotspot_item snd] in Hh, Hsum.
  exists g, (tally keys []), h, rest.
  repeat (split; [first [assumption | reflexivity] |]).
  rewrite <- Hlen. nia.
Qed.

End Binary64Cells.

(** * Rounding, and an analysis that completes on binary64 *)

Section Binary64Rounding.

Import Binary64.

Lemma pow2_pos (k : Z) : 0 <= k -> 0 < 2 ^ k.
Proof. intros. apply Z.pow_pos_nonneg; lia. Qed.

Lemma Zdigits2_nonneg (m : Z) : 0 <= Zdigits2 m.
Proof. destruct m; simpl; lia. Qed.

Lemma Zdigits2_bounds (m : Z) :
  0 < m -> 2 ^ (Zdigits2 m - 1) <= m < 2 ^ Zdigits2 m.
Proof.
  destruct m as [| p | p]; try lia. intros _. apply digits2_pos_bounds.
Qed.

(** A number below [2^k] has at most [k] digits. *)
Lemma Zdigits2_le (m k : Z) : 0 <= m < 2 ^ k -> 0 <= k -> Zdigits2 m <= k.
Proof.
  intros [Hm Hlt] Hk. destruct (Z.eq_dec m 0) as [-> | Hne]; [simpl; lia |].
  pose proof (Zdigits2_bounds m ltac:(lia)) as [Hlo _].
  destruct (Z.le_gt_cases (Zdigits2 m) k) as [H | H]; [exact H |].
  exfalso. assert (2 ^ k <= 2 ^ (Zdigits2 m - 1))
    by (apply Z.pow_le_mono_r; lia). lia.
Qed.

Lemma shr_record_of_loc_m (m : Z) (l : location) :
  shr_m (shr_record_of_loc m l) = m.
Proof. destruct l as [| []]; reflexivity. Qed.

(** [shr_fexp]: the exponent becomes the larger of [e] and the exponent of
    the format, and the mantissa loses the digits in between. *)
Lemma shr_fexp_spec (m e : Z) (l : location) :
  0 <= m ->
  exists mrs,
    shr_fexp prec emax m e l =
      (mrs, Z.max e (fexp prec emax (Zdigits2 m + e))) /\
    shr_m mrs = m / 2 ^ (Z.max e (fexp prec emax (Zdigits2 m + e)) - e).
Proof.
  intros Hm. unfold shr_fexp, shr.
  set (f := fexp prec emax (Zdigits2 m + e)).
  destruct (f - e) as [| k | k] eqn:E.
  - eexists. split; [f_equal; lia |].
    replace (Z.max e f - e) with 0 by lia.
    rewrite shr_record_of_loc_m, Z.div_1_r. reflexivity.
  - eexists. split; [f_equal; lia |].
    rewrite iter_shr_1_m by (rewrite shr_record_of_loc_m; exact Hm).
    rewrite shr_record_of_loc_m. f_equal. f_equal. lia.
  - eexists. split; [f_equal; lia |].
    replace (Z.max e f - e) with 0 by lia.
    rewrite shr_record_of_loc_m, Z.div_1_r. reflexivity.
Qed.

(** The three steps of a rounding: the mantissa cut to the format, rounded,
    and cut again when the rounding carried. *)
Lemma binary_round_aux_spec (m e : Z) (l : location) :
  0 <= m ->
  exists m1 m2 m3 e1 e2,
    e1 = Z.max e (fexp prec emax (Zdigits2 m + e)) /\
    m1 = m / 2 ^ (e1 - e) /\
    m1 <= m2 <= m1 + 1 /\
    e2 = Z.max e1 (fexp prec emax (Zdigits2 m2 + e1)) /\
    m3 = m2 / 2 ^ (e2 - e1) /\
    binary_round_aux prec emax false m e l =
      match m3 with
      | Z0 => S754_zero false
      | Zpos p => if e2 <=? emax - prec then S754_finite false p e2
                  else S754_infinity false
      | Zneg _ => S754_nan
      end.
Proof.
  intros Hm. unfold binary_round_aux.
  destruct (shr_fexp_spec m e l Hm) as (mrs1 & -> & Hm1).
  set (e1 := Z.max e (fexp prec emax (Zdigits2 m + e))) in *.
  set (m2 := round_nearest_even (shr_m mrs1) (loc_of_shr_record mrs1)).
  assert (H1 : 0 <= shr_m mrs1).
  { rewrite Hm1. apply Z.div_pos; [exact Hm |]. apply pow2_pos. lia. }
  pose proof (round_nearest_even_bounds (shr_m mrs1) (loc_of_shr_record mrs1))
    as Hr. fold m2 in Hr.
  destruct (shr_fexp_spec m2 e1 loc_Exact ltac:(lia)) as (mrs2 & -> & Hm2).
  exists (shr_m mrs1), m2, (shr_m mrs2), e1,
    (Z.max e1 (fexp prec emax (Zdigits2 m2 + e1))).
  repeat split; auto; lia.
Qed.

Lemma fexp_eq (x : Z) : fexp prec emax x = Z.max (x - 53) (-1074).
Proof. reflexivity. Qed.

Lemma div_pow2_bounds (m k : Z) :
  0 <= m -> 0 <= k ->
  2 ^ k * (m / 2 ^ k) <= m < 2 ^ k * (m / 2 ^ k + 1).
Proof.
  intros Hm Hk. pose proof (pow2_pos k Hk) as HK.
  pose proof (Z.div_mod m (2 ^ k) ltac:(lia)) as Hdiv.
  pose proof (Z.mod_pos_bound m (2 ^ k) HK) as Hmod.
  lia.
Qed.

(** What a rounding returns, by the mantissa [m] and the exponent [e] it
    is given: no infinity when the number is below [2^1023]; a result that
    is more than half of [m * 2^e]; and at most twice [m * 2^e] when [e] is
    an exponent of the format. *)
Lemma binary_round_aux_facts (m e : Z) (l : location) :
  0 <= m ->
  sf_nonneg (binary_round_aux prec emax false m e l) /\
  binary_round_aux prec emax false m e l <> S754_nan /\
  (e <= 970 -> Zdigits2 m + e <= 1023 ->
   sf_finite (binary_round_aux prec emax false m e l) = true) /\
  (-1074 <= e -> 1 <= m ->
   forall s, binary_round_aux prec emax false m e l <> S754_zero s) /\
  (forall s p e',
     binary_round_aux prec emax false m e l = S754_finite s p e' ->
     s = false /\ e <= e' /\ -1074 <= e' /\
     m + 1 <= 2 * (Zpos p * 2 ^ (e' - e)) /\
     (-1074 <= e -> 1 <= m -> Zpos p * 2 ^ (e' - e) <= 2 * m)).
Proof.
  intros Hm.
  split; [apply binary_round_aux_nonneg |].
  destruct (binary_round_aux_spec m e l Hm)
    as (m1 & m2 & m3 & e1 & e2 & He1 & Hm1 & Hm2 & He2 & Hm3 & ->).
  rewrite fexp_eq in He1, He2.
  set (d := Zdigits2 m) in *.
  pose proof (Zdigits2_nonneg m) as Hd. fold d in Hd.
  assert (Hk : 0 <= e1 - e) by lia.
  pose proof (pow2_pos _ Hk) as HK.
  pose proof (div_pow2_bounds m (e1 - e) Hm Hk) as Hdiv. rewrite <- Hm1 in Hdiv.
  assert (Hm1pos : 0 <= m1) by (subst m1; apply Z.div_pos; lia).
  (* the cut mantissa has at most 53 digits *)
  assert (Hm153 : m1 < 2 ^ 53).
  { destruct (Z.eq_dec m 0) as [E | Hne]; [rewrite E in Hdiv; nia |].
    pose proof (Zdigits2_bounds m ltac:(lia)) as [_ Hhi]. fold d in Hhi.
    destruct (Z.le_gt_cases d 53) as [H53 | H53].
    - assert (2 ^ d <= 2 ^ 53) by (apply Z.pow_le_mono_r; lia). nia.
    - assert (Hsplit : 2 ^ d = 2 ^ 53 * 2 ^ (d - 53))
        by (rewrite <- Z.pow_add_r by lia; f_equal; lia).
      assert (Hle : 2 ^ (d - 53) <= 2 ^ (e1 - e))
        by (apply Z.pow_le_mono_r; lia).
      pose proof (pow2_pos (d - 53) ltac:(lia)).
      destruct (Z.lt_ge_cases m1 (2 ^ 53)) as [Hlt | Hge]; [exact Hlt |].
      exfalso. nia. }
  assert (Hd2 : Zdigits2 m2 <= 54).
  { apply Zdigits2_le; [| lia]. change (2 ^ 54) with (2 * 2 ^ 53). lia. }
  pose proof (Zdigits2_nonneg m2) as Hd2'.
  assert (Hk2 : 0 <= e2 - e1 <= 1) by lia.
  pose proof (pow2_pos (e2 - e1) ltac:(lia)) as HK2.
  pose proof (div_pow2_bounds m2 (e2 - e1) ltac:(lia) ltac:(lia)) as Hdiv2.
  rewrite <- Hm3 in Hdiv2.
  assert (Hm3pos : 0 <= m3) by (subst m3; apply Z.div_pos; lia).
  split; [| split; [| split]].
  - destruct m3 as [| p | p]; [discriminate | | lia].
    destruct (e2 <=? emax - prec); discriminate.
  - intros He Hde. destruct m3 as [| p | p]; [reflexivity | | lia].
    change (emax - prec) with 971.
    destruct (Z.leb_spec e2 971); [reflexivity | lia].
  - intros Hemin H1 s.
    pose proof (Zdigits2_bounds m ltac:(lia)) as [Hlo _]. fold d in Hlo.
    assert (HKm : 2 ^ (e1 - e) <= m).
    { destruct (Z.le_gt_cases d 53) as [H53 | H53].
      - replace (e1 - e) with 0 by lia. simpl. lia.
      - replace (e1 - e) with (d - 53) by lia.
        apply Z.le_trans with (2 ^ (d - 1)); [| exact Hlo].
        apply Z.pow_le_mono_r; lia. }
    assert (H11 : 1 <= m1) by nia.
    assert (H31 : 1 <= m3).
    { destruct (Z.eq_dec (e2 - e1) 0) as [E0 | E1].
      - rewrite E0 in Hdiv2. change (2 ^ 0) with 1 in Hdiv2. lia.
      - assert (E1' : e2 - e1 = 1) by lia.
        assert (Hd54 : Zdigits2 m2 = 54) by lia.
        pose proof (Zdigits2_bounds m2 ltac:(lia)) as [Hlo2 _].
        rewrite Hd54 in Hlo2. change (2 ^ (54 - 1)) with (2 ^ 53) in Hlo2.
        rewrite E1' in Hdiv2. change (2 ^ 1) with 2 in Hdiv2.
        change (2 ^ 53) with 9007199254740992 in *. lia. }
    destruct m3 as [| p | p]; [lia | | lia].
    destruct (e2 <=? emax - prec); discriminate.
  - intros s p e' H. destruct m3 as [| p' | p']; [discriminate | | discriminate].
    change (emax - prec) with 971 in H.
    destruct (Z.leb_spec e2 971); [| discriminate].
    injection H as <- <- <-.
    assert (Hpow : 2 ^ (e2 - e) = 2 ^ (e1 - e) * 2 ^ (e2 - e1))
      by (rewrite <- Z.pow_add_r by lia; f_equal; lia).
    rewrite Hpow.
    set (K := 2 ^ (e1 - e)) in *. set (K2 := 2 ^ (e2 - e1)) in *.
    repeat split; try lia.
    + assert (m + 1 <= K * (m2 + 1)) by nia.
      assert (m2 + 1 <= K2 * (Zpos p' + 1)) by lia.
      assert (K * (m2 + 1) <= K * (K2 * (Zpos p' + 1)))
        by (apply Z.mul_le_mono_nonneg_l; lia).
      nia.
    + intros Hemin H1.
      pose proof (Zdigits2_bounds m ltac:(lia)) as [Hlo _]. fold d in Hlo.
      assert (HKm : K <= m).
      { unfold K. destruct (Z.le_gt_cases d 53) as [H53 | H53].
        - replace (e1 - e) with 0 by lia. simpl. lia.
        - replace (e1 - e) with (d - 53) by lia.
          apply Z.le_trans with (2 ^ (d - 1)); [| exact Hlo].
          apply Z.pow_le_mono_r; lia. }
      assert (K * (K2 * Zpos p') <= K * m2)
        by (apply Z.mul_le_mono_nonneg_l; lia).
      nia.
Qed.

Lemma shl_align_spec (m : positive) (e e' : Z) :
  snd (shl_align m e e') = Z.min e e' /\
  Zpos (fst (shl_align m e e')) = Zpos m * 2 ^ (e - Z.min e e') /\
  Zpos (digits2_pos (fst (shl_align m e e'))) + Z.min e e' =
    Zpos (digits2_pos m) + e.
Proof.
  unfold shl_align. destruct (e' - e) as [| d | d] eqn:E; cbn [fst snd].
  - replace (Z.min e e') with e by lia. rewrite Z.sub_diag. simpl. lia.
  - replace (Z.min e e') with e by lia. rewrite Z.sub_diag. simpl. lia.
  - replace (Z.min e e') with e' by lia. split; [reflexivity |]. split.
    + change (Pos.iter xO m d) with (shift_pos d m).
      rewrite shift_pos_correct. change (Z.pow_pos 2 d) with (2 ^ Zpos d).
      replace (e - e') with (Zpos d) by lia. ring.
    + rewrite digits2_pos_shift. lia.
Qed.

(** The rounding of [p * 2^e] for an exponent [e] of the format, in units
    of [2^-1074]. *)
Lemma binary_round_facts (p : positive) (e : Z) :
  -1074 <= e ->
  sf_nonneg (binary_round prec emax false p e) /\
  binary_round prec emax false p e <> S754_nan /\
  (Zpos (digits2_pos p) + e <= 1023 ->
   sf_finite (binary_round prec emax false p e) = true) /\
  (forall s, binary_round prec emax false p e <> S754_zero s) /\
  (forall s p' e',
     binary_round prec emax false p e = S754_finite s p' e' ->
     s = false /\
     Zpos p * 2 ^ (e + 1074) + 1 <= 2 * SFval (S754_finite s p' e') /\
     SFval (S754_finite s p' e') <= 2 * (Zpos p * 2 ^ (e + 1074))).
Proof.
  intros He. unfold binary_round.
  set (f := fexp prec emax (Zpos (digits2_pos p) + e)).
  destruct (shl_align_spec p e f) as (Hez & Hmz & Hdz).
  destruct (shl_align p e f) as [mz ez]. cbn [fst snd] in *. subst ez.
  assert (Hf : f = Z.max (Zpos (digits2_pos p) + e - 53) (-1074)) by reflexivity.
  destruct (binary_round_aux_facts (Zpos mz) (Z.min e f) loc_Exact ltac:(lia))
    as (H1 & H2 & H3 & H0 & H4).
  split; [exact H1 |]. split; [exact H2 |]. split; [| split].
  - intros Hd. apply H3; cbn [Zdigits2]; lia.
  - apply H0; lia.
  - intros s p' e' Hr. destruct (H4 s p' e' Hr) as (-> & Hle & Hmin & Hlo & Hhi).
    specialize (Hhi ltac:(lia) ltac:(lia)).
    split; [reflexivity |]. cbn [SFval cond_Zopp].
    set (ez := Z.min e f) in *.
    assert (Hp : 0 < 2 ^ (ez + 1074)) by (apply pow2_pos; lia).
    assert (HV : Zpos p * 2 ^ (e + 1074) = Zpos mz * 2 ^ (ez + 1074)).
    { rewrite Hmz, <- Z.mul_assoc, <- Z.pow_add_r by lia. do 2 f_equal. lia. }
    assert (HR : Zpos p' * 2 ^ (e' + 1074) =
                 Zpos p' * 2 ^ (e' - ez) * 2 ^ (ez + 1074)).
    { rewrite <- Z.mul_assoc, <- Z.pow_add_r by lia. do 2 f_equal. lia. }
    rewrite HV, HR. set (P := 2 ^ (ez + 1074)) in *.
    set (R := Zpos p' * 2 ^ (e' - ez)) in *. split; nia.
Qed.

Lemma pow2_lt_inv (a b : Z) : 0 <= b -> 2 ^ a < 2 ^ b -> a < b.
Proof.
  intros Hb H. destruct (Z.lt_ge_cases a b) as [Hlt | Hge]; [exact Hlt |].
  exfalso. assert (2 ^ b <= 2 ^ a) by (apply Z.pow_le_mono_r; lia). lia.
Qed.

(** The difference of two finite numbers, the first not the smaller one,
    when it is below [2^1022]: a number that is not negative, at least half
    and at most twice the exact difference. *)
Lemma SFsub_bounds (x y : spec_float) :
  valid_binary x = true -> valid_binary y = true ->
  sf_finite x = true -> sf_finite y = true ->
  SFval y <= SFval x -> SFval x - SFval y < 2 ^ 2096 ->
  sf_finite (SF64sub x y) = true /\
  sf_nonneg (SF64sub x y) /\
  SFval x - SFval y <= 2 * SFval (SF64sub x y) /\
  SFval (SF64sub x y) <= 2 * (SFval x - SFval y).
Proof.
  destruct x as [sx | sx | | sx mx ex], y as [sy | sy | | sy my ey];
    try discriminate; intros Vx Vy _ _ Hle Hlt;
    cbn [SF64sub SFsub SFval valid_binary] in *.
  - destruct sx, sy; cbn; repeat split; lia.
  - apply bounded_facts in Vy as (He & _).
    pose proof (pow2_pos (ey + 1074) ltac:(lia)).
    destruct sy; cbn [cond_Zopp negb sf_finite sf_nonneg SFval] in *;
      [repeat split; lia | nia].
  - apply bounded_facts in Vx as (He & _).
    pose proof (pow2_pos (ex + 1074) ltac:(lia)).
    destruct sx; cbn [cond_Zopp negb sf_finite sf_nonneg SFval] in *;
      [nia | repeat split; lia].
  - unfold SF64sub, SFsub.
    apply bounded_facts in Vx as (Hex & _). apply bounded_facts in Vy as (Hey & _).
    set (ez := Z.min ex ey) in *.
    pose proof (shl_align_val mx ex ez ltac:(lia) ltac:(lia)) as Hx.
    pose proof (shl_align_val my ey ez ltac:(lia) ltac:(lia)) as Hy.
    pose proof (pow2_pos (ez + 1074) ltac:(lia)) as Hp.
    set (X := Zpos (fst (shl_align mx ex ez))) in *.
    set (Y := Zpos (fst (shl_align my ey ez))) in *.
    set (D := cond_Zopp sx X - cond_Zopp sy Y).
    assert (HD : D * 2 ^ (ez + 1074) =
                 cond_Zopp sx (Zpos mx * 2 ^ (ex + 1074)) -
                 cond_Zopp sy (Zpos my * 2 ^ (ey + 1074))).
    { unfold D. rewrite <- Hx, <- Hy. destruct sx, sy; cbn [cond_Zopp]; ring. }
    rewrite <- HD in *.
    destruct D as [| d | d] eqn:ED; cbn [binary_normalize].
    + cbn. repeat split; lia.
    + destruct (binary_round_facts d ez ltac:(lia)) as (H1 & H2 & H3 & H0 & H4).
      assert (Hfin : sf_finite (binary_round prec emax false d ez) = true).
      { apply H3. pose proof (digits2_pos_bounds d) as [Hlo _].
        assert (Hpow : 2 ^ (Zpos (digits2_pos d) - 1 + (ez + 1074)) < 2 ^ 2096).
        { rewrite Z.pow_add_r by lia.
          apply Z.le_lt_trans with (Zpos d * 2 ^ (ez + 1074)); [| exact Hlt].
          apply Z.mul_le_mono_nonneg_r; lia. }
        apply pow2_lt_inv in Hpow; lia. }
      split; [exact Hfin |]. split; [exact H1 |].
      destruct (binary_round prec emax false d ez) as [s | s | | s p' e'] eqn:Er;
        try discriminate.
      * exfalso. exact (H0 s eq_refl).
      * destruct (H4 s p' e' eq_refl) as (-> & Hlo & Hhi). split; lia.
    + exfalso. pose proof (Pos2Z.neg_is_neg d). nia.
Qed.

(** The quotient of two positive numbers: no infinity when the dividend
    is less than [2^1022] times the divisor, and a result that, when it is
    not zero, is more than half the exact quotient. *)
Lemma SFdiv_facts (mx my : positive) (ex ey : Z) :
  bounded prec emax mx ex = true -> bounded prec emax my ey = true ->
  sf_nonneg (SF64div (S754_finite false mx ex) (S754_finite false my ey)) /\
  SF64div (S754_finite false mx ex) (S754_finite false my ey) <> S754_nan /\
  (Zpos (digits2_pos mx) + ex - (Zpos (digits2_pos my) + ey) <= 1022 ->
   sf_finite (SF64div (S754_finite false mx ex) (S754_finite false my ey)) =
     true) /\
  (forall s p e,
     SF64div (S754_finite false mx ex) (S754_finite false my ey) =
       S754_finite s p e ->
     s = false /\
     SFval (S754_finite false mx ex) * 2 ^ 1074 <
       2 * (SFval (S754_finite s p e) * SFval (S754_finite false my ey))).
Proof.
  intros Vx Vy.
  apply bounded_facts in Vx as (Hex & Hmx & _).
  apply bounded_facts in Vy as (Hey & Hmy & _).
  unfold SF64div, SFdiv, SFdiv_core_binary. cbn [xorb Zdigits2].
  set (dx := Zpos (digits2_pos mx)). set (dy := Zpos (digits2_pos my)).
  set (e' := Z.min (fexp prec emax (dx + ex - (dy + ey))) (ex - ey)).
  assert (He' : e' = Z.min (Z.max (dx + ex - (dy + ey) - 53) (-1074)) (ex - ey))
    by reflexivity.
  set (s := ex - ey - e').
  assert (Hs : 0 <= s) by (unfold s; lia).
  set (m' := match s with
             | 0 => Zpos mx
             | Zpos _ => Z.shiftl (Zpos mx) s
             | Zneg _ => 0
             end).
  assert (Hm' : m' = Zpos mx * 2 ^ s).
  { unfold m'. destruct s as [| k | k] eqn:E; [simpl; lia | | lia].
    apply Z.shiftl_mul_pow2. lia. }
  pose proof (Z_div_mod m' (Zpos my) ltac:(lia)) as Hdiv.
  destruct (Z.div_eucl m' (Zpos my)) as [q r]. destruct Hdiv as [Hqr Hr].
  pose proof (pow2_pos s Hs) as Hps.
  assert (Hq : 0 <= q) by nia.
  destruct (binary_round_aux_facts q e' (new_location (Zpos my) r) Hq)
    as (H1 & H2 & H3 & _ & H4).
  split; [exact H1 |]. split; [exact H2 |]. split.
  - intros Hl. apply H3; [lia |].
    destruct (Z.eq_dec q 0) as [-> | Hq0]; [simpl; lia |].
    pose proof (Zdigits2_bounds q ltac:(lia)) as [Hlo _].
    pose proof (digits2_pos_bounds mx) as [_ Hxhi]. fold dx in Hxhi.
    pose proof (digits2_pos_bounds my) as [Hylo _]. fold dy in Hylo.
    set (dq := Zdigits2 q) in *.
    assert (Hdq : 1 <= dq).
    { destruct q; try lia. unfold dq. simpl. lia. }
    assert (Hprod : 2 ^ (dq - 1 + (dy - 1)) < 2 ^ (dx + s)).
    { rewrite !Z.pow_add_r by (unfold dx, dy in *; lia).
      apply Z.le_lt_trans with (q * Zpos my).
      - apply Z.mul_le_mono_nonneg; try lia;
          apply Z.lt_le_incl, pow2_pos; unfold dy; lia.
      - apply Z.le_lt_trans with m'; [nia |]. rewrite Hm'.
        apply Z.mul_lt_mono_pos_r; lia. }
    apply pow2_lt_inv in Hprod; [| unfold dx; lia]. unfold s in Hprod. lia.
  - intros sg p e Hres. destruct (H4 sg p e Hres) as (-> & Hle & Hmin & Hlo & _).
    split; [reflexivity |]. cbn [SFval cond_Zopp].
    assert (HT : 0 <= e' + ey + 2148) by lia.
    pose proof (pow2_pos _ HT) as HTpos.
    set (T := 2 ^ (e' + ey + 2148)) in *.
    assert (EL : Zpos mx * 2 ^ (ex + 1074) * 2 ^ 1074 = m' * T).
    { rewrite Hm'. unfold T. rewrite <- !Z.mul_assoc, <- !Z.pow_add_r by lia.
      do 2 f_equal. unfold s. lia. }
    assert (ER : Zpos p * 2 ^ (e + 1074) * (Zpos my * 2 ^ (ey + 1074)) =
                 Zpos p * 2 ^ (e - e') * Zpos my * T).
    { unfold T.
      replace (Zpos p * 2 ^ (e + 1074) * (Zpos my * 2 ^ (ey + 1074)))
        with (Zpos p * Zpos my * (2 ^ (e + 1074) * 2 ^ (ey + 1074))) by ring.
      replace (Zpos p * 2 ^ (e - e') * Zpos my * 2 ^ (e' + ey + 2148))
        with (Zpos p * Zpos my * (2 ^ (e - e') * 2 ^ (e' + ey + 2148))) by ring.
      rewrite <- !Z.pow_add_r by lia. do 2 f_equal. lia. }
    rewrite EL, ER.
    set (R := Zpos p * 2 ^ (e - e')) in *.
    assert (Hlt : m' < 2 * (R * Zpos my)) by nia.
    nia.
Qed.

(** The size of a positive number, by its digits and its exponent. *)
Lemma SFval_magnitude (m : positive) (e : Z) :
  -1074 <= e ->
  2 ^ (Zpos (digits2_pos m) + e + 1073) <= Zpos m * 2 ^ (e + 1074) <
  2 ^ (Zpos (digits2_pos m) + e + 1074).
Proof.
  intros He. pose proof (digits2_pos_bounds m) as [Hlo Hhi].
  pose proof (pow2_pos (e + 1074) ltac:(lia)) as Hp.
  replace (Zpos (digits2_pos m) + e + 1073)
    with (Zpos (digits2_pos m) - 1 + (e + 1074)) by lia.
  replace (Zpos (digits2_pos m) + e + 1074)
    with (Zpos (digits2_pos m) + (e + 1074)) by lia.
  rewrite (Z.pow_add_r 2 (Zpos (digits2_pos m) - 1) (e + 1074)) by lia.
  rewrite (Z.pow_add_r 2 (Zpos (digits2_pos m)) (e + 1074)) by lia. split.
  - apply Z.mul_le_mono_nonneg_r; lia.
  - apply Z.mul_lt_mono_pos_r; lia.
Qed.

Lemma magnitude_of_ratio (mx my : positive) (ex ey c : Z) :
  -1074 <= ex -> -1074 <= ey -> 0 <= c ->
  Zpos mx * 2 ^ (ex + 1074) <= 2 ^ c * (Zpos my * 2 ^ (ey + 1074)) ->
  Zpos (digits2_pos mx) + ex - (Zpos (digits2_pos my) + ey) <= c.
Proof.
  intros Hex Hey Hc H.
  pose proof (SFval_magnitude mx ex Hex) as [Hlo _].
  pose proof (SFval_magnitude my ey Hey) as [_ Hhi].
  pose proof (pow2_pos c Hc) as Hpc.
  assert (Hlt : 2 ^ (Zpos (digits2_pos mx) + ex + 1073) <
                2 ^ (c + (Zpos (digits2_pos my) + ey + 1074))).
  { rewrite (Z.pow_add_r 2 c) by lia.
    apply Z.le_lt_trans with (2 ^ c * (Zpos my * 2 ^ (ey + 1074))); [lia |].
    apply Z.mul_lt_mono_pos_l; lia. }
  apply pow2_lt_inv in Hlt; lia.
Qed.

Lemma binary64_eqb_val (x y : float) :
  finite x = true -> finite y = true ->
  f_eqb x y = (value x =? value y).
Proof.
  intros Hx Hy. cbn [f_eqb Binary64.num]. rewrite eqb_spec. unfold SFeqb.
  rewrite SFcompare_val by auto using Prim2SF_valid.
  fold (value x) (value y).
  destruct (Z.compare_spec (value x) (value y)) as [E | E | E];
    symmetry; [apply Z.eqb_eq | apply Z.eqb_neq | apply Z.eqb_neq]; lia.
Qed.

(** [x - y] for finite [x >= y] whose difference is below [2^1022]. *)
Lemma binary64_sub_bounds (x y : float) :
  finite x = true -> finite y = true ->
  value y <= value x -> value x - value y < 2 ^ 2096 ->
  finite (x - y) = true /\
  sf_nonneg (Prim2SF (x - y)) /\
  value x - value y <= 2 * value (x - y) /\
  value (x - y) <= 2 * (value x - value y).
Proof.
  intros Hx Hy Hle Hlt. unfold finite, value. rewrite sub_spec.
  apply SFsub_bounds; auto using Prim2SF_valid.
Qed.

(** The conversion of an [int] that is at least [1], when it does not
    raise: a positive number, at least half and at most twice the [int]. *)
Lemma binary64_of_int_bounds (n : Z) (y : float) :
  1 <= n -> Binary64.of_int n = Some y ->
  exists m e,
    Prim2SF y = S754_finite false m e /\
    bounded prec emax m e = true /\
    n * 2 ^ 1074 + 1 <= 2 * value y /\
    value y <= 2 * (n * 2 ^ 1074).
Proof.
  intros Hn. destruct n as [| p | p]; try lia.
  unfold Binary64.of_int. cbn [binary_normalize].
  pose proof (binary_round_positive p) as Hpos.
  destruct (binary_round_facts p 0 ltac:(lia)) as (_ & _ & _ & _ & H4).
  destruct (binary_round prec emax false p 0) as [sx | sx | | sx m e];
    cbn [sf_positive] in Hpos; try contradiction; [discriminate |].
  destruct sx; [contradiction |]. intros H.
  replace y with (SF2Prim (S754_finite false m e)) by congruence.
  unfold value. rewrite Prim2SF_SF2Prim by exact Hpos.
  destruct (H4 false m e eq_refl) as (_ & Hlo & Hhi).
  exists m, e. change (2 ^ (0 + 1074)) with (2 ^ 1074) in *. auto.
Qed.

(** An [int] from [0] to [2^1000] converts without raising. *)
Lemma binary64_of_int_total (n : Z) :
  0 <= n < 2 ^ 1000 -> exists y, Binary64.of_int n = Some y.
Proof.
  intros [Hn Hlt]. unfold Binary64.of_int.
  destruct n as [| p | p]; [eexists; reflexivity | | lia].
  cbn [binary_normalize].
  destruct (binary_round_facts p 0 ltac:(lia)) as (_ & _ & H3 & _).
  assert (Hfin : sf_finite (binary_round prec emax false p 0) = true).
  { apply H3. pose proof (Zdigits2_le (Zpos p) 1000 ltac:(lia) ltac:(lia)) as H.
    cbn [Zdigits2] in H. lia. }
  destruct (binary_round prec emax false p 0); try discriminate;
    eexists; reflexivity.
Qed.

(** [x / s] for [x] finite and not negative and [s] positive, when [x] is
    at most [2^1020] times [s]: a finite number. *)
Lemma binary64_div_finite (x s : float) (ms : positive) (es : Z) :
  finite x = true -> sf_nonneg (Prim2SF x) ->
  Prim2SF s = S754_finite false ms es ->
  value x <= 2 ^ 1020 * value s ->
  finite (x / s) = true.
Proof.
  intros Hx Hnn Hs Hle. unfold finite, value in *. rewrite div_spec.
  pose proof (Prim2SF_valid x) as Vx. pose proof (Prim2SF_valid s) as Vs.
  rewrite Hs in *.
  destruct (Prim2SF x) as [sx | sx | | sx mx ex]; try discriminate.
  - reflexivity.
  - cbn [sf_nonneg] in Hnn. subst sx. cbn [valid_binary] in Vx, Vs.
    destruct (SFdiv_facts mx ms ex es Vx Vs) as (_ & _ & H3 & _).
    apply H3. cbn [SFval cond_Zopp] in Hle.
    pose proof (proj1 (bounded_facts _ _ Vx)).
    pose proof (proj1 (bounded_facts _ _ Vs)).
    pose proof (magnitude_of_ratio mx ms ex es 1020 ltac:(lia) ltac:(lia)
                  ltac:(lia) Hle).
    lia.
Qed.

Lemma trunc_total (q : float) :
  finite q = true -> exists n, Binary64.trunc q = Return n.
Proof.
  unfold finite, Binary64.trunc.
  destruct (Prim2SF q); try discriminate; intros _; eexists; reflexivity.
Qed.

Lemma moderate_value (x : float) :
  moderate x = true -> finite x = true /\ - 2 ^ 2074 <= value x <= 2 ^ 2074.
Proof.
  unfold moderate, finite, value. rewrite leb_spec, abs_spec.
  pose proof (Prim2SF_valid x) as V.
  change (Prim2SF 0x1p1000) with (S754_finite false 4503599627370496 948).
  destruct (Prim2SF x) as [s | s | | s m e]; cbn [SFabs]; unfold SFleb.
  - intros _. cbn. split; [reflexivity | lia].
  - discriminate.
  - discriminate.
  - rewrite SFcompare_val by (auto; reflexivity).
    cbn [valid_binary] in V. apply bounded_facts in V as (He & _).
    pose proof (pow2_pos (e + 1074) ltac:(lia)).
    change (SFval (S754_finite false 4503599627370496 948)) with (2 ^ 2074).
    cbn [SFval cond_Zopp sf_finite].
    destruct (Z.compare_spec (Zpos m * 2 ^ (e + 1074)) (2 ^ 2074));
      try discriminate; intros _; (split; [reflexivity |]);
      destruct s; cbn [cond_Zopp]; lia.
Qed.

(** The bin of a coordinate of the box is computed, whatever the steps
    are. *)
Lemma binary64_bin_total (x lo hi step : float) (gs : Z) :
  finite x = true -> finite lo = true -> finite hi = true ->
  value lo <= value x <= value hi ->
  value hi - value lo <= 2 ^ 2075 ->
  1 <= gs < 2 ^ 1000 ->
  grid_step lo hi gs = Return step ->
  exists b, bin_of x lo step = Return b.
Proof.
  intros Hx Hlo Hhi Hbox Hwide Hgs Hstep.
  assert (H2075 : 2 ^ 2075 < 2 ^ 2096) by (apply Z.pow_lt_mono_r; lia).
  destruct (binary64_sub_bounds x lo Hx Hlo ltac:(lia) ltac:(lia))
    as (FX & NX & LX & UX).
  unfold bin_of, f_neb, truediv.
  cbn [f_eqb f_zero f_div f_sub f_trunc Binary64.num].
  destruct (PrimFloat.eqb step 0) eqn:E0; cbn [negb bind];
    [eexists; reflexivity |].
  apply trunc_total.
  unfold grid_step, f_neb in Hstep.
  rewrite (binary64_eqb_val hi lo Hhi Hlo) in Hstep.
  destruct (Z.eqb_spec (value hi) (value lo)) as [Eq | Hne];
    cbn [negb] in Hstep.
  - (* a degenerate side: the step is 0.01 and the difference is zero *)
    injection Hstep as <-.
    apply (binary64_div_finite _ _ 5764607523034235 (-59));
      [exact FX | exact NX | vm_compute; reflexivity |].
    assert (Hv : 0 <= value f_001) by (vm_compute; discriminate).
    assert (Hp : 0 < 2 ^ 1020) by (apply pow2_pos; lia).
    assert (Hz : value (x - lo) <= 0) by lia.
    cbn [f_001 Binary64.num] in Hv.
    apply Z.le_trans with 0; [exact Hz |].
    apply Z.mul_nonneg_nonneg; lia.
  - unfold truediv_int, truediv in Hstep.
    cbn [f_of_int f_eqb f_zero f_div f_sub Binary64.num] in Hstep.
    destruct (Binary64.of_int gs) as [y |] eqn:Ey; [| discriminate].
    destruct (PrimFloat.eqb y 0) eqn:Ey0; [discriminate |].
    injection Hstep as Hstep.
    destruct (binary64_of_int_bounds gs y ltac:(lia) Ey)
      as (my & ey & Py & Vy & Ly & Uy).
    destruct (binary64_sub_bounds hi lo Hhi Hlo ltac:(lia) ltac:(lia))
      as (FD & ND & LD & UD).
    (* the step is a positive number *)
    assert (Hs : exists ms es,
               Prim2SF step = S754_finite false ms es /\
               value (hi - lo) * 2 ^ 1074 < 2 * (value step * value y)).
    { rewrite eqb_spec in E0. rewrite <- Hstep in *. unfold value in *.
      rewrite div_spec in *. rewrite Py in *.
      pose proof (Prim2SF_valid (hi - lo)) as VD. unfold finite in FD.
      destruct (Prim2SF (hi - lo)) as [sd | sd | | sd md ed];
        try discriminate.
      cbn [sf_nonneg] in ND. subst sd. cbn [valid_binary] in VD.
      destruct (SFdiv_facts md my ed ey VD Vy) as (N & NaN & Fin & Val).
      assert (Hfin : sf_finite
                (SF64div (S754_finite false md ed) (S754_finite false my ey)) =
                true).
      { apply Fin.
        pose proof (proj1 (bounded_facts _ _ VD)).
        pose proof (proj1 (bounded_facts _ _ Vy)).
        apply (magnitude_of_ratio md my ed ey 1022); try lia.
        cbn [SFval cond_Zopp] in *.
        assert (2 ^ 2076 <= 2 ^ 1022 * 2 ^ 1073)
          by (rewrite <- Z.pow_add_r by lia; apply Z.pow_le_mono_r; lia).
        assert (H1074 : 2 ^ 1074 = 2 * 2 ^ 1073) by reflexivity.
        assert (H2076 : 2 ^ 2076 = 2 * 2 ^ 2075) by reflexivity.
        assert (0 < 2 ^ 1073) by (apply pow2_pos; lia).
        assert (0 < 2 ^ 1022) by (apply pow2_pos; lia).
        nia. }
      destruct (SF64div (S754_finite false md ed) (S754_finite false my ey))
        as [sq | sq | | sq mq eq] eqn:Eq; try discriminate.
      destruct (Val sq mq eq eq_refl) as (-> & Hval).
      exists mq, eq. split; [reflexivity | exact Hval]. }
    destruct Hs as (ms & es & Ps & Hval).
    apply (binary64_div_finite _ _ ms es); auto.
    assert (H1074 : 0 < 2 ^ 1074) by (apply pow2_pos; lia).
    assert (Hpos : 0 <= value step).
    { unfold value. rewrite Ps. cbn [SFval cond_Zopp].
      pose proof (Prim2SF_valid step) as V. rewrite Ps in V.
      cbn [valid_binary] in V. apply bounded_facts in V as (He & _).
      pose proof (pow2_pos (es + 1074) ltac:(lia)). lia. }
    set (St := value step) in *. set (D := value (hi - lo)) in *.
    set (X := value (x - lo)) in *. set (Y := value y) in *.
    set (P := 2 ^ 1074) in *.
    (* D * P < 2 * St * Y <= 4 * gs * St * P *)
    assert (HD : D < 4 * gs * St).
    { assert (D * P < 4 * gs * St * P) by nia.
      apply Z.mul_lt_mono_pos_r with P; lia. }
    assert (HX : X <= 16 * gs * St) by lia.
    assert (H16 : 16 * gs <= 2 ^ 1020).
    { change 16 with (2 ^ 4).
      assert (2 ^ 4 * 2 ^ 1000 <= 2 ^ 1020)
        by (rewrite <- Z.pow_add_r by lia; apply Z.pow_le_mono_r; lia).
      assert (0 < 2 ^ 4) by reflexivity. nia. }
    nia.
Qed.

End Binary64Rounding.

Section Binary64Nearest.

Import Binary64.

Lemma shr_1_even (q : Z) :
  0 <= q ->
  shr_1 (Build_shr_record (2 * q) false false) = Build_shr_record q false false.
Proof. destruct q as [| p | p]; intros H; try lia; reflexivity. Qed.

(** Shifting out digits that are all zero leaves no remainder. *)
Lemma iter_shr_1_exact (k : positive) : forall q : Z,
  0 <= q ->
  iter_pos shr_1 k (Build_shr_record (2 ^ Zpos k * q) false false) =
  Build_shr_record q false false.
Proof.
  induction k as [k IH | k IH |]; intros q Hq; cbn [iter_pos].
  - replace (2 ^ Zpos k~1 * q) with (2 * (2 ^ Zpos k * (2 ^ Zpos k * q))).
    + pose proof (pow2_pos (Zpos k) ltac:(lia)).
      rewrite shr_1_even by nia. rewrite IH by nia. apply IH. exact Hq.
    + replace (Zpos k~1) with (1 + Zpos k + Zpos k) by lia.
      rewrite !Z.pow_add_r by lia. change (2 ^ 1) with 2. ring.
  - replace (2 ^ Zpos k~0 * q) with (2 ^ Zpos k * (2 ^ Zpos k * q)).
    + pose proof (pow2_pos (Zpos k) ltac:(lia)).
      rewrite IH by nia. apply IH. exact Hq.
    + replace (Zpos k~0) with (Zpos k + Zpos k) by lia.
      rewrite !Z.pow_add_r by lia. ring.
  - change (2 ^ 1) with 2. apply shr_1_even. exact Hq.
Qed.

Lemma shr_fexp_exact (m e : Z) :
  0 <= m -> m mod 2 ^ (fexp prec emax (Zdigits2 m + e) - e) = 0 ->
  exists mrs,
    shr_fexp prec emax m e loc_Exact =
      (mrs, Z.max e (fexp prec emax (Zdigits2 m + e))) /\
    loc_of_shr_record mrs = loc_Exact.
Proof.
  intros Hm Hmod. unfold shr_fexp, shr.
  set (f := fexp prec emax (Zdigits2 m + e)) in *.
  destruct (f - e) as [| k | k] eqn:E; cbn [shr_record_of_loc].
  - eexists. split; [f_equal; lia | reflexivity].
  - pose proof (pow2_pos (Zpos k) ltac:(lia)) as Hp.
    apply Z.div_exact in Hmod; [| lia].
    exists (Build_shr_record (m / 2 ^ Zpos k) false false).
    split; [| reflexivity]. f_equal; [| lia].
    rewrite <- (iter_shr_1_exact k (m / 2 ^ Zpos k)) by (apply Z.div_pos; lia).
    rewrite <- Hmod. reflexivity.
  - eexists. split; [f_equal; lia | reflexivity].
Qed.

(** The last cut of a rounding, on a mantissa from [1] to [2^53]. *)
Lemma round_last_value (m2 f : Z) :
  1 <= m2 <= 2 ^ 53 -> -1074 <= f -> (f = -1074 \/ 2 ^ 52 <= m2) ->
  (m2 * 2 ^ (f + 1074) < 2 ^ 2098 ->
   exists p' e',
     (let '(mrs, e') := shr_fexp prec emax m2 f loc_Exact in
      match shr_m mrs with
      | Z0 => S754_zero false
      | Zpos m => if e' <=? emax - prec then S754_finite false m e'
                  else S754_infinity false
      | Zneg _ => S754_nan
      end) = S754_finite false p' e' /\
     Zpos p' * 2 ^ (e' + 1074) = m2 * 2 ^ (f + 1074)) /\
  (2 ^ 2098 <= m2 * 2 ^ (f + 1074) ->
   (let '(mrs, e') := shr_fexp prec emax m2 f loc_Exact in
    match shr_m mrs with
    | Z0 => S754_zero false
    | Zpos m => if e' <=? emax - prec then S754_finite false m e'
                else S754_infinity false
    | Zneg _ => S754_nan
    end) = S754_infinity false).
Proof.
  intros Hm Hf Hnorm.
  pose proof (pow2_pos (f + 1074) ltac:(lia)) as HG.
  change (emax - prec) with 971.
  destruct (Z.eq_dec m2 (2 ^ 53)) as [E | Hne].
  - (* the rounding carried: one more digit is cut *)
    subst m2. unfold shr_fexp. rewrite fexp_eq.
    change (Zdigits2 (2 ^ 53)) with 54.
    replace (Z.max (54 + f - 53) (-1074) - f) with 1 by lia.
    cbn [shr iter_pos shr_record_of_loc].
    change (shr_1 (Build_shr_record (2 ^ 53) false false))
      with (Build_shr_record (2 ^ 52) false false).
    cbn [shr_m]. change (2 ^ 52) with (Zpos 4503599627370496).
    assert (Hval : Zpos 4503599627370496 * 2 ^ (f + 1 + 1074) =
                   2 ^ 53 * 2 ^ (f + 1074)).
    { replace (f + 1 + 1074) with (1 + (f + 1074)) by lia.
      rewrite Z.pow_add_r by lia. change (2 ^ 53) with (4503599627370496 * 2 ^ 1).
      ring. }
    assert (H2098 : 2 ^ 2098 = 2 ^ 53 * 2 ^ 2045) by reflexivity.
    split; intros H.
    + destruct (Z.leb_spec (f + 1) 971) as [Hle | Hgt].
      * eexists _, _. split; [reflexivity | exact Hval].
      * exfalso. assert (2 ^ 2045 <= 2 ^ (f + 1074))
          by (apply Z.pow_le_mono_r; lia).
        assert (0 < 2 ^ 53) by reflexivity. nia.
    + destruct (Z.leb_spec (f + 1) 971) as [Hle | Hgt]; [| reflexivity].
      exfalso. assert (2 ^ (f + 1074) < 2 ^ 2045)
        by (apply Z.pow_lt_mono_r; lia).
      assert (0 < 2 ^ 53) by reflexivity. nia.
  - assert (Hd : Zdigits2 m2 <= 53) by (apply Zdigits2_le; lia).
    pose proof (Zdigits2_nonneg m2) as Hd0.
    unfold shr_fexp. rewrite fexp_eq.
    assert (Hk : Z.max (Zdigits2 m2 + f - 53) (-1074) - f <= 0) by lia.
    assert (Hshr : shr (shr_record_of_loc m2 loc_Exact) f
                     (Z.max (Zdigits2 m2 + f - 53) (-1074) - f) =
                   (Build_shr_record m2 false false, f)).
    { unfold shr. destruct (Z.max (Zdigits2 m2 + f - 53) (-1074) - f);
        try reflexivity. lia. }
    rewrite Hshr. cbn [shr_m].
    destruct m2 as [| p2 | p2]; try lia.
    assert (H2098 : 2 ^ 2098 = 2 ^ 53 * 2 ^ 2045) by reflexivity.
    assert (H2097 : 2 ^ 2098 = 2 ^ 52 * 2 ^ 2046) by reflexivity.
    split; intros H.
    + destruct (Z.leb_spec f 971) as [Hle | Hgt].
      * eexists _, _. split; reflexivity.
      * exfalso. destruct Hnorm as [-> | Hnorm]; [lia |].
        assert (2 ^ 2046 <= 2 ^ (f + 1074)) by (apply Z.pow_le_mono_r; lia).
        assert (0 < 2 ^ 52) by reflexivity. nia.
    + destruct (Z.leb_spec f 971) as [Hle | Hgt]; [| reflexivity].
      exfalso. assert (2 ^ (f + 1074) <= 2 ^ 2045)
        by (apply Z.pow_le_mono_r; lia).
      assert (0 < 2 ^ 53) by reflexivity. nia.
Qed.

(** What a rounding to nearest returns for [p * 2^e], in units of
    [2^-1074]: with [G] the spacing of the numbers of the format around it, a
    multiple [m2 * G] of the spacing, [m2] being the quotient of the number by
    [G] or the next integer, and the quotient itself when the division is
    exact; an infinity when this multiple is [2^1024] or more. *)
Lemma binary_round_value (p : positive) (e : Z) :
  -1074 <= e ->
  exists m2,
    let V := Zpos p * 2 ^ (e + 1074) in
    let G := 2 ^ (Z.max (Zpos (digits2_pos p) + e - 53) (-1074) + 1074) in
    V / G <= m2 <= V / G + 1 /\
    (V mod G = 0 -> m2 = V / G) /\
    1 <= V / G /\
    (m2 * G < 2 ^ 2098 ->
     exists p' e',
       binary_round prec emax false p e = S754_finite false p' e' /\
       Zpos p' * 2 ^ (e' + 1074) = m2 * G) /\
    (2 ^ 2098 <= m2 * G ->
     binary_round prec emax false p e = S754_infinity false).
Proof.
  intros He. unfold binary_round.
  set (f := fexp prec emax (Zpos (digits2_pos p) + e)).
  assert (Hf : f = Z.max (Zpos (digits2_pos p) + e - 53) (-1074)) by reflexivity.
  rewrite <- Hf.
  destruct (shl_align_spec p e f) as (Hez & Hmz & Hdz).
  destruct (shl_align p e f) as [mz ez]. cbn [fst snd] in *. subst ez.
  set (ez := Z.min e f) in *.
  set (k := f - ez). assert (Hk : 0 <= k) by (unfold k, ez; lia).
  pose proof (pow2_pos k Hk) as HK.
  pose proof (pow2_pos (ez + 1074) ltac:(unfold ez; lia)) as HP.
  assert (Hfexp : fexp prec emax (Zdigits2 (Zpos mz) + ez) = f).
  { cbn [Zdigits2]. rewrite Hdz. reflexivity. }
  assert (HV : Zpos p * 2 ^ (e + 1074) = Zpos mz * 2 ^ (ez + 1074)).
  { rewrite Hmz, <- Z.mul_assoc, <- Z.pow_add_r by (unfold ez; lia).
    do 2 f_equal. lia. }
  assert (HG : 2 ^ (f + 1074) = 2 ^ k * 2 ^ (ez + 1074)).
  { rewrite <- Z.pow_add_r by (unfold ez; lia). f_equal. unfold k. lia. }
  assert (Hquot : Zpos p * 2 ^ (e + 1074) / 2 ^ (f + 1074) = Zpos mz / 2 ^ k).
  { rewrite HV, HG. apply Z.div_mul_cancel_r; lia. }
  assert (Hrem : (Zpos p * 2 ^ (e + 1074)) mod 2 ^ (f + 1074) =
                 (Zpos mz mod 2 ^ k) * 2 ^ (ez + 1074)).
  { rewrite HV, HG. apply Z.mul_mod_distr_r; lia. }
  unfold binary_round_aux.
  destruct (shr_fexp_spec (Zpos mz) ez loc_Exact ltac:(lia)) as (mrs1 & E1 & Hm1).
  rewrite Hfexp in E1, Hm1.
  replace (Z.max ez f) with f in E1, Hm1 by (unfold ez; lia).
  fold k in Hm1. rewrite E1.
  set (m1 := shr_m mrs1) in *.
  set (m2 := round_nearest_even m1 (loc_of_shr_record mrs1)).
  pose proof (round_nearest_even_bounds m1 (loc_of_shr_record mrs1)) as Hb.
  fold m2 in Hb.
  pose proof (digits2_pos_bounds mz) as [Dlo Dhi].
  set (dz := Zpos (digits2_pos mz)) in *.
  assert (Hdk : dz - k <= 53) by (unfold k, ez in *; lia).
  pose proof (div_pow2_bounds (Zpos mz) k ltac:(lia) Hk) as Hdiv.
  rewrite <- Hm1 in Hdiv.
  (* the cut mantissa is below 2^53, and has 53 digits unless f = -1074 *)
  assert (Hm153 : m1 < 2 ^ 53).
  { destruct (Z.le_gt_cases dz 53) as [H53 | H53].
    - assert (2 ^ dz <= 2 ^ 53) by (apply Z.pow_le_mono_r; lia). nia.
    - assert (Hsplit : 2 ^ dz = 2 ^ 53 * 2 ^ (dz - 53))
        by (rewrite <- Z.pow_add_r by lia; f_equal; lia).
      assert (Hle : 2 ^ (dz - 53) <= 2 ^ k) by (apply Z.pow_le_mono_r; lia).
      pose proof (pow2_pos (dz - 53) ltac:(lia)).
      destruct (Z.lt_ge_cases m1 (2 ^ 53)) as [Hlt | Hge]; [exact Hlt |].
      exfalso. nia. }
  assert (Hm1lo : f = -1074 /\ 1 <= m1 \/ 2 ^ 52 <= m1).
  { destruct (Z.eq_dec f (-1074)) as [E | Hne].
    - left. split; [exact E |]. assert (k = 0) by (unfold k, ez; lia).
      replace k with 0 in Hdiv by lia. change (2 ^ 0) with 1 in Hdiv. lia.
    - right. assert (Hkz : k = dz - 53) by (unfold k, ez in *; lia).
      assert (Hsplit : 2 ^ (dz - 1) = 2 ^ 52 * 2 ^ k)
        by (rewrite <- Z.pow_add_r by lia; f_equal; lia).
      destruct (Z.le_gt_cases (2 ^ 52) m1) as [Hge | Hlt]; [exact Hge |].
      exfalso. nia. }
  exists m2. cbn zeta. rewrite Hquot, Hrem, <- Hm1.
  split; [exact Hb |]. split; [| split; [lia |]].
  - intros Hz. assert (Hmod : Zpos mz mod 2 ^ k = 0) by nia.
    destruct (shr_fexp_exact (Zpos mz) ez ltac:(lia)) as (mrs & E & Hloc).
    { rewrite Hfexp. exact Hmod. }
    rewrite E1 in E. injection E as <-. unfold m2. rewrite Hloc. reflexivity.
  - apply (round_last_value m2 f); lia.
Qed.


Lemma bounded_canonical (m : positive) (e : Z) :
  bounded prec emax m e = true ->
  e = Z.max (Zpos (digits2_pos m) + e - 53) (-1074) /\ e <= 971.
Proof.
  unfold bounded, canonical_mantissa. rewrite fexp_eq. intros H.
  apply andb_prop in H as [H1 H2]. apply Z.eqb_eq in H1. apply Z.leb_le in H2.
  change (emax - prec) with 971 in H2. lia.
Qed.

(** A number of the format below [2^1024]. *)
Lemma bounded_value_lt (m : positive) (e : Z) :
  bounded prec emax m e = true -> Zpos m * 2 ^ (e + 1074) < 2 ^ 2098.
Proof.
  intros H. pose proof (bounded_canonical m e H) as [_ He].
  apply bounded_facts in H as (Hmin & Hm & _).
  assert (2 ^ (e + 1074) <= 2 ^ 2045) by (apply Z.pow_le_mono_r; lia).
  pose proof (pow2_pos (e + 1074) ltac:(lia)).
  change (2 ^ 2098) with (2 ^ 53 * 2 ^ 2045). nia.
Qed.

(** Rounding to nearest does not cross a number of the format: the rounding
    of a number that is at least [m0 * 2^e0] is at least [m0 * 2^e0]. *)
Lemma binary_round_not_below (p m0 : positive) (e e0 : Z) :
  -1074 <= e -> bounded prec emax m0 e0 = true ->
  Zpos m0 * 2 ^ (e0 + 1074) <= Zpos p * 2 ^ (e + 1074) ->
  binary_round prec emax false p e = S754_infinity false \/
  exists p' e',
    binary_round prec emax false p e = S754_finite false p' e' /\
    Zpos m0 * 2 ^ (e0 + 1074) <= Zpos p' * 2 ^ (e' + 1074).
Proof.
  intros He Hb Hle.
  destruct (binary_round_value p e He) as (m2 & H). cbn zeta in H.
  destruct H as (Hm2 & _ & H1 & Hfin & Hinf).
  pose proof (bounded_canonical m0 e0 Hb) as [Hc0 _].
  pose proof (proj1 (bounded_facts m0 e0 Hb)) as He0.
  set (dp := Zpos (digits2_pos p)) in *. set (d0 := Zpos (digits2_pos m0)) in *.
  set (f := Z.max (dp + e - 53) (-1074)) in *.
  set (V := Zpos p * 2 ^ (e + 1074)) in *.
  set (L := Zpos m0 * 2 ^ (e0 + 1074)) in *.
  pose proof (pow2_pos (f + 1074) ltac:(unfold f; lia)) as HG.
  set (G := 2 ^ (f + 1074)) in *.
  destruct (Z.lt_ge_cases (m2 * G) (2 ^ 2098)) as [Hlt | Hge];
    [| left; apply Hinf; exact Hge].
  right. destruct (Hfin Hlt) as (p' & e' & -> & Hval).
  exists p', e'. split; [reflexivity |]. rewrite Hval.
  pose proof (Z.mul_div_le V G HG) as Hfloor.
  destruct (Z.le_gt_cases f e0) as [Hfe | Hfe].
  - (* the bound is a multiple of the spacing *)
    assert (HL : L = Zpos m0 * 2 ^ (e0 - f) * G).
    { unfold L, G. rewrite <- Z.mul_assoc, <- Z.pow_add_r by lia.
      do 2 f_equal. lia. }
    assert (Hc : Zpos m0 * 2 ^ (e0 - f) <= V / G).
    { apply Z.div_le_lower_bound; [exact HG |]. rewrite Z.mul_comm, <- HL.
      exact Hle. }
    rewrite HL. apply Z.mul_le_mono_nonneg_r; lia.
  - (* the bound is in a binade below *)
    pose proof (SFval_magnitude p e He) as [Vlo _]. fold dp V in Vlo.
    pose proof (SFval_magnitude m0 e0 He0) as [_ Lhi]. fold d0 L in Lhi.
    assert (Hf : f = dp + e - 53) by (unfold f in *; lia).
    assert (HVG : 2 ^ (dp + e + 1073) = 2 ^ 52 * G).
    { unfold G. rewrite <- Z.pow_add_r by lia. f_equal. lia. }
    assert (H52 : 2 ^ 52 <= V / G).
    { apply Z.div_le_lower_bound; [exact HG |]. rewrite Z.mul_comm, <- HVG.
      exact Vlo. }
    assert (Hmag : 2 ^ (d0 + e0 + 1074) <= 2 ^ (dp + e + 1073))
      by (apply Z.pow_le_mono_r; lia).
    assert (2 ^ 52 * G <= m2 * G) by (apply Z.mul_le_mono_nonneg_r; lia).
    lia.
Qed.

(** The rounding of a number that is at most [m0 * 2^e0] is a number, at
    most [m0 * 2^e0]. *)
Lemma binary_round_not_above (p m0 : positive) (e e0 : Z) :
  -1074 <= e -> bounded prec emax m0 e0 = true ->
  Zpos p * 2 ^ (e + 1074) <= Zpos m0 * 2 ^ (e0 + 1074) ->
  exists p' e',
    binary_round prec emax false p e = S754_finite false p' e' /\
    Zpos p' * 2 ^ (e' + 1074) <= Zpos m0 * 2 ^ (e0 + 1074).
Proof.
  intros He Hb Hle.
  destruct (binary_round_value p e He) as (m2 & H). cbn zeta in H.
  destruct H as (Hm2 & Hex & H1 & Hfin & _).
  pose proof (bounded_canonical m0 e0 Hb) as [Hc0 _].
  pose proof (proj1 (bounded_facts m0 e0 Hb)) as He0.
  pose proof (bounded_value_lt m0 e0 Hb) as HL2098.
  set (dp := Zpos (digits2_pos p)) in *. set (d0 := Zpos (digits2_pos m0)) in *.
  set (f := Z.max (dp + e - 53) (-1074)) in *.
  set (V := Zpos p * 2 ^ (e + 1074)) in *.
  set (L := Zpos m0 * 2 ^ (e0 + 1074)) in *.
  pose proof (pow2_pos (f + 1074) ltac:(unfold f; lia)) as HG.
  set (G := 2 ^ (f + 1074)) in *.
  pose proof (SFval_magnitude p e He) as [Vlo _]. fold dp V in Vlo.
  pose proof (SFval_magnitude m0 e0 He0) as [_ Lhi]. fold d0 L in Lhi.
  assert (Hmag : dp + e <= d0 + e0).
  { assert (H : 2 ^ (dp + e + 1073) < 2 ^ (d0 + e0 + 1074)) by lia.
    apply pow2_lt_inv in H; lia. }
  assert (Hfe : f <= e0) by (unfold f; lia).
  assert (HL : L = Zpos m0 * 2 ^ (e0 - f) * G).
  { unfold L, G. rewrite <- Z.mul_assoc, <- Z.pow_add_r by (unfold f in *; lia).
    do 2 f_equal. lia. }
  set (c := Zpos m0 * 2 ^ (e0 - f)) in *.
  assert (Hm2c : m2 <= c).
  { destruct (Z.eq_dec (V mod G) 0) as [Hz | Hnz].
    - rewrite (Hex Hz). apply Z.div_le_upper_bound; [exact HG |].
      rewrite Z.mul_comm, <- HL. exact Hle.
    - assert (Hlt : V < G * c).
      { destruct (Z.eq_dec V (G * c)) as [E | Hne]; [| lia].
        exfalso. apply Hnz. rewrite E, Z.mul_comm. apply Z.mod_mul. lia. }
      apply Z.div_lt_upper_bound in Hlt; [| exact HG]. lia. }
  assert (Hm2L : m2 * G <= L)
    by (rewrite HL; apply Z.mul_le_mono_nonneg_r; lia).
  destruct (Hfin ltac:(lia)) as (p' & e' & -> & Hval).
  exists p', e'. split; [reflexivity | lia].
Qed.

Lemma binary_round_aux_opp (m e : Z) (l : location) :
  binary_round_aux prec emax true m e l =
  SFopp (binary_round_aux prec emax false m e l).
Proof.
  unfold binary_round_aux.
  destruct (shr_fexp prec emax m e l) as [mrs' e'].
  destruct (shr_fexp prec emax _ e' loc_Exact) as [mrs'' e''].
  destruct (shr_m mrs''); [reflexivity | | reflexivity].
  destruct (e'' <=? emax - prec); reflexivity.
Qed.

Lemma binary_round_opp (p : positive) (e : Z) :
  binary_round prec emax true p e = SFopp (binary_round prec emax false p e).
Proof.
  unfold binary_round. destruct (shl_align p e _) as [mz ez].
  apply binary_round_aux_opp.
Qed.


(** Adding a number that is not negative, or [+infinity], to a number does
    not give less. *)
Lemma SFadd_not_below (x t : spec_float) :
  valid_binary x = true -> valid_binary t = true ->
  sf_finite x = true -> sf_nonneg t -> t <> S754_nan ->
  valid_binary (SF64add x t) = true ->
  SFleb x (SF64add x t) = true.
Proof.
  destruct x as [sx | sx | | sx mx ex]; try discriminate;
    destruct t as [st | st | | st mt et]; cbn [sf_nonneg];
    intros Vx Vt _ Hnn Hnan Vr; try congruence; try subst st.
  - destruct sx, st; reflexivity.
  - reflexivity.
  - reflexivity.
  - unfold SF64add, SFadd, SFleb. rewrite SFcompare_same. reflexivity.
  - destruct sx; reflexivity.
  - unfold SF64add, SFadd in *. cbn [valid_binary] in Vx, Vt.
    pose proof (proj1 (bounded_facts _ _ Vx)) as Hex.
    pose proof (proj1 (bounded_facts _ _ Vt)) as Het.
    set (ez := Z.min ex et) in *.
    pose proof (shl_align_val mx ex ez ltac:(lia) ltac:(lia)) as Hx.
    pose proof (shl_align_val mt et ez ltac:(lia) ltac:(lia)) as Ht.
    pose proof (pow2_pos (ez + 1074) ltac:(lia)) as Hp.
    set (X := fst (shl_align mx ex ez)) in *.
    set (Y := fst (shl_align mt et ez)) in *.
    destruct sx; cbn [cond_Zopp] in *.
    + (* a negative number *)
      destruct (- Zpos X + Zpos Y) as [| d | d] eqn:ED; cbn [binary_normalize] in *.
      * reflexivity.
      * destruct (binary_round_facts d ez ltac:(lia)) as (H1 & H2 & _ & H0 & _).
        destruct (binary_round prec emax false d ez) as [s | s | | s p' e'];
          cbn [sf_nonneg] in H1.
        -- exfalso. exact (H0 s eq_refl).
        -- subst s. reflexivity.
        -- congruence.
        -- subst s. reflexivity.
      * rewrite binary_round_opp in *.
        destruct (binary_round_not_above d mx ez ex ltac:(lia) Vx)
          as (p' & e' & Er & Hle).
        { rewrite <- Hx. apply Z.mul_le_mono_nonneg_r; lia. }
        rewrite Er in *. cbn [SFopp negb] in *. unfold SFleb.
        rewrite SFcompare_val by auto. cbn [SFval cond_Zopp].
        destruct (Z.compare_spec (- (Zpos mx * 2 ^ (ex + 1074)))
                    (- (Zpos p' * 2 ^ (e' + 1074)))); try reflexivity. lia.
    + change (Zpos X + Zpos Y) with (Zpos (X + Y)) in *.
      cbn [binary_normalize] in *.
      destruct (binary_round_not_below (X + Y) mx ez ex ltac:(lia) Vx)
        as [Er | (p' & e' & Er & Hle)].
      { rewrite <- Hx. apply Z.mul_le_mono_nonneg_r; lia. }
      * rewrite Er. reflexivity.
      * rewrite Er in *. unfold SFleb.
        rewrite SFcompare_val by auto. cbn [SFval cond_Zopp].
        destruct (Z.compare_spec (Zpos mx * 2 ^ (ex + 1074))
                    (Zpos p' * 2 ^ (e' + 1074))); try reflexivity. lia.
Qed.

Lemma binary64_add_not_below (x t : float) :
  finite x = true -> sf_nonneg (Prim2SF t) -> Prim2SF t <> S754_nan ->
  PrimFloat.leb x (x + t) = true.
Proof.
  intros Hx Hnn Hnan. rewrite leb_spec, add_spec.
  apply SFadd_not_below; auto using Prim2SF_valid.
  rewrite <- add_spec. apply Prim2SF_valid.
Qed.

End Binary64Nearest.

Section Binary64Signs.

Import Binary64.

Lemma SFopp_involutive (x : spec_float) : SFopp (SFopp x) = x.
Proof. destruct x as [s | s | | s m e]; cbn; rewrite ?negb_involutive; reflexivity. Qed.

(** Changing the sign of the divisor changes the sign of the quotient. *)
Lemma SFdiv_opp_r (x y : spec_float) :
  SF64div x (SFopp y) = SFopp (SF64div x y).
Proof.
  destruct x as [sx | sx | | sx mx ex], y as [sy | sy | | sy my ey];
    cbn [SF64div SFdiv SFopp]; try reflexivity;
    try (destruct sx, sy; reflexivity).
  unfold SF64div, SFdiv.
  destruct (SFdiv_core_binary prec emax (Zpos mx) ex (Zpos my) ey)
    as [[mz ez] lz].
  destruct sx, sy; cbn [xorb negb]; rewrite ?binary_round_aux_opp;
    rewrite ?SFopp_involutive; reflexivity.
Qed.

Lemma binary64_div_opp_r (x y : float) : (x / - y = - (x / y))%float.
Proof.
  apply Prim2SF_inj. rewrite opp_spec, !div_spec, opp_spec.
  apply SFdiv_opp_r.
Qed.

Lemma binary64_eqb_opp_zero (s : float) :
  PrimFloat.eqb (- s) 0 = PrimFloat.eqb s 0.
Proof.
  rewrite !eqb_spec, opp_spec.
  destruct (Prim2SF s) as [sx | sx | | sx m e]; try reflexivity;
    destruct sx; reflexivity.
Qed.

(** [int(-q)] is [-int(q)]. *)
Lemma trunc_opp (q : float) :
  Binary64.trunc (- q) =
  match Binary64.trunc q with
  | Return n => Return (- n)
  | Raise e => Raise e
  end.
Proof.
  unfold Binary64.trunc. rewrite opp_spec.
  destruct (Prim2SF q) as [s | s | | s m e]; cbn [SFopp]; try reflexivity.
  destruct s; cbn [negb]; f_equal; lia.
Qed.

(** The bin computed with the opposite step is the opposite bin. *)
Lemma binary64_bin_of_opp (x lo step : float) (b : Z) :
  bin_of x lo step = Return b -> bin_of x lo (PrimFloat.opp step) = Return (- b).
Proof.
  unfold bin_of, f_neb, truediv.
  cbn [f_eqb f_zero f_div f_sub f_trunc Binary64.num].
  rewrite binary64_eqb_opp_zero.
  destruct (PrimFloat.eqb step 0); cbn [negb bind].
  - intros [= <-]. reflexivity.
  - rewrite binary64_div_opp_r, trunc_opp. intros ->. reflexivity.
Qed.

(** An [int] whose magnitude is at most that of a float converts. *)
Lemma of_int_of_bounded (v : Z) (m : positive) (e : Z) :
  bounded prec emax m e = true ->
  0 <= v -> v * 2 ^ 1074 <= Zpos m * 2 ^ (e + 1074) ->
  (exists f, Binary64.of_int v = Some f) /\
  (exists f, Binary64.of_int (- v) = Some f).
Proof.
  intros Hb Hv Hle. destruct v as [| p | p]; try lia.
  - split; eexists; reflexivity.
  - destruct (binary_round_not_above p m 0 e ltac:(lia) Hb Hle)
      as (p' & e' & Er & _).
    unfold Binary64.of_int. cbn [Z.opp binary_normalize].
    rewrite binary_round_opp, Er. cbn [SFopp].
    split; eexists; reflexivity.
Qed.

(** What [int(q)] returns converts back to a float. *)
Lemma trunc_converts (q : float) (b : Z) :
  Binary64.trunc q = Return b -> exists f, Binary64.of_int b = Some f.
Proof.
  unfold Binary64.trunc. pose proof (Prim2SF_valid q) as V.
  destruct (Prim2SF q) as [s | s | | s m e]; try discriminate.
  - intros [= <-]. eexists. reflexivity.
  - cbn [valid_binary] in V. pose proof (proj1 (bounded_facts _ _ V)) as He.
    set (v := if 0 <=? e then Z.shiftl (Zpos m) e else Z.shiftr (Zpos m) (- e)).
    assert (Hv : 0 <= v /\ v * 2 ^ 1074 <= Zpos m * 2 ^ (e + 1074)).
    { unfold v. destruct (Z.leb_spec 0 e) as [H0 | H0].
      - rewrite Z.shiftl_mul_pow2 by lia. rewrite Z.pow_add_r by lia.
        pose proof (pow2_pos e H0). split; [lia | lia].
      - rewrite Z.shiftr_div_pow2 by lia.
        pose proof (pow2_pos (- e) ltac:(lia)) as Hp.
        pose proof (pow2_pos (e + 1074) ltac:(lia)) as Hq.
        pose proof (Z.mul_div_le (Zpos m) (2 ^ (- e)) Hp) as Hfloor.
        assert (Hsplit : 2 ^ 1074 = 2 ^ (- e) * 2 ^ (e + 1074))
          by (rewrite <- Z.pow_add_r by lia; f_equal; lia).
        split; [apply Z.div_pos; lia |]. rewrite Hsplit. nia. }
    destruct Hv as [Hv0 Hv1].
    destruct (of_int_of_bounded v m e V Hv0 Hv1) as [Hp Hn].
    intros [= <-]. destruct s; assumption.
Qed.

Lemma binary64_bin_converts (x lo step : float) (b : Z) :
  bin_of x lo step = Return b -> exists f, Binary64.of_int b = Some f.
Proof.
  unfold bin_of, truediv. cbn [f_trunc Binary64.num].
  destruct (f_neb step f_zero); [| intros [= <-]; eexists; reflexivity].
  destruct (f_eqb step f_zero); cbn [bind]; [discriminate |].
  apply trunc_converts.
Qed.

(** An [int] from [-2^1000] to [2^1000] converts. *)
Lemma binary64_of_int_medium (n : Z) :
  - 2 ^ 1000 <= n <= 2 ^ 1000 -> exists f, Binary64.of_int n = Some f.
Proof.
  intros Hn.
  assert (Hb : bounded prec emax 4503599627370496 948 = true) by reflexivity.
  assert (Hv : Zpos 4503599627370496 * 2 ^ (948 + 1074) = 2 ^ 1000 * 2 ^ 1074)
    by reflexivity.
  pose proof (pow2_pos 1074 ltac:(lia)) as Hp.
  destruct (Z.le_gt_cases 0 n) as [H0 | H0].
  - apply (of_int_of_bounded n _ _ Hb H0). rewrite Hv.
    apply Z.mul_le_mono_nonneg_r; lia.
  - replace n with (- - n) by lia.
    apply (of_int_of_bounded (- n) _ _ Hb ltac:(lia)). rewrite Hv.
    apply Z.mul_le_mono_nonneg_r; lia.
Qed.

(** The bin of a place, once clamped, converts back to a float. *)
Lemma binary64_clamp_converts (x lo step : float) (b gs : Z) :
  bin_of x lo step = Return b -> - 2 ^ 1000 < gs <= 2 ^ 1000 ->
  exists f, Binary64.of_int (clamp b gs) = Some f.
Proof.
  intros Hb Hgs. unfold clamp. destruct (b >=? gs).
  - apply binary64_of_int_medium. lia.
  - apply (binary64_bin_converts x lo step). exact Hb.
Qed.

End Binary64Signs.

Section BodyTotal.

Context {F : Type} {num : PyNum F}.
Variable api : F -> F -> geocode_response.

(** When the grid is made and every place gets bins that convert to the
    number type, the [try] block raises nothing. *)
Lemma analyze_body_total (ps : list (place F)) (gs : Z) (g : grid F) :
  make_grid ps gs = Return g ->
  (forall p, In p ps ->
     exists row col frow fcol,
       place_bins g gs p = Return (row, col) /\
       f_of_int row = Some frow /\ f_of_int col = Some fcol) ->
  exists r, analyze_body api ps gs = Return r.
Proof.
  intros Hg Hbins. unfold analyze_body. rewrite Hg. cbn [bind].
  rewrite count_places_tally.
  destruct (mapM_total (place_key g gs) ps) as [keys Hkeys].
  { apply Forall_forall. intros p Hp.
    destruct (Hbins p Hp) as (row & col & _ & _ & Hb & _).
    unfold place_key. rewrite Hb. eexists. reflexivity. }
  rewrite Hkeys. cbn [bind].
  destruct (mapM_total (hotspot_detail api g)
              (firstn 3 (sorted_desc (tally keys [])))) as [details ->].
  - apply Forall_forall. intros [k c] Hin.
    apply sorted_prefix_in in Hin. cbn [fst] in Hin.
    destruct (Forall2_in_right _ _ _ _ (mapM_return _ _ _ Hkeys) Hin)
      as (p & Hp & Hpk).
    destruct (Hbins p Hp) as (row & col & frow & fcol & Hb & Hr & Hc).
    unfold place_key in Hpk. rewrite Hb in Hpk. cbn [bind] in Hpk.
    injection Hpk as <-.
    unfold hotspot_detail. rewrite parse_key_grid_key. cbn [bind].
    unfold cell_center. rewrite Hr, Hc. cbn [bind]. eexists. reflexivity.
  - cbn [bind]. eexists. reflexivity.
Qed.

End BodyTotal.

Section Binary64Completes.

Import Binary64.

Variable api : float -> float -> geocode_response.

Lemma binary64_grid_step_total (lo hi : float) (gs : Z) :
  1 <= gs < 2 ^ 1000 -> exists step, grid_step lo hi gs = Return step.
Proof.
  intros Hgs. unfold grid_step, truediv_int, truediv.
  destruct (f_neb hi lo); [| eexists; reflexivity].
  cbn [f_of_int Binary64.num].
  destruct (binary64_of_int_total gs ltac:(lia)) as [y Hy]. rewrite Hy.
  rewrite (binary64_of_int_positive gs y ltac:(lia) Hy).
  eexists. reflexivity.
Qed.

Lemma py_min_total (l : list float) : l <> [] -> exists m, py_min l = Return m.
Proof. destruct l; [congruence | eexists; reflexivity]. Qed.

Lemma py_max_total (l : list float) : l <> [] -> exists m, py_max l = Return m.
Proof. destruct l; [congruence | eexists; reflexivity]. Qed.

(** For moderate coordinates and a [grid_size] from [1] to below [2^1000]
    the grid is made and every place gets its two bins. *)
Lemma binary64_moderate_grid (ps : list (place float)) (n : Z) :
  ps <> [] ->
  (forall p, In p ps -> moderate (lat p) = true /\ moderate (lng p) = true) ->
  1 <= n < 2 ^ 1000 ->
  exists g,
    make_grid ps n = Return g /\
    forall p, In p ps ->
      exists b1 b2,
        bin_of (lat p) (min_lat g) (lat_step g) = Return b1 /\
        bin_of (lng p) (min_lng g) (lng_step g) = Return b2.
Proof.
  intros Hne Hmod Hn.
  assert (Hfin : forall q, In q ps ->
            finite (lat q) = true /\ finite (lng q) = true).
  { intros q Hq. destruct (Hmod q Hq) as [H1 H2].
    apply moderate_value in H1, H2. tauto. }
  assert (Hlats : Forall (fun y => finite y = true) (map lat ps)).
  { apply Forall_forall. intros y Hy. apply in_map_iff in Hy as (q & <- & Hq).
    apply Hfin. exact Hq. }
  assert (Hlngs : Forall (fun y => finite y = true) (map lng ps)).
  { apply Forall_forall. intros y Hy. apply in_map_iff in Hy as (q & <- & Hq).
    apply Hfin. exact Hq. }
  assert (Hvlat : forall y, In y (map lat ps) -> - 2 ^ 2074 <= value y <= 2 ^ 2074).
  { intros y Hy. apply in_map_iff in Hy as (q & <- & Hq).
    destruct (Hmod q Hq) as [H1 _]. apply moderate_value in H1. tauto. }
  assert (Hvlng : forall y, In y (map lng ps) -> - 2 ^ 2074 <= value y <= 2 ^ 2074).
  { intros y Hy. apply in_map_iff in Hy as (q & <- & Hq).
    destruct (Hmod q Hq) as [_ H2]. apply moderate_value in H2. tauto. }
  assert (Hmap : forall f : place float -> float, map f ps <> []).
  { intros f. destruct ps; [congruence | discriminate]. }
  destruct (py_min_total _ (Hmap lat)) as [lo_lat E1].
  destruct (py_max_total _ (Hmap lat)) as [hi_lat E2].
  destruct (py_min_total _ (Hmap lng)) as [lo_lng E3].
  destruct (py_max_total _ (Hmap lng)) as [hi_lng E4].
  destruct (binary64_grid_step_total lo_lat hi_lat n Hn) as [step_lat E5].
  destruct (binary64_grid_step_total lo_lng hi_lng n Hn) as [step_lng E6].
  exists (mkGrid lo_lat hi_lat lo_lng hi_lng step_lat step_lng). split.
  { unfold make_grid. rewrite E1, E2, E3, E4. cbn [bind].
    rewrite E5, E6. reflexivity. }
  cbn [min_lat min_lng lat_step lng_step].
  destruct (binary64_py_min _ _ Hlats E1) as [F1 L1].
  destruct (binary64_py_max _ _ Hlats E2) as [F2 L2].
  destruct (binary64_py_min _ _ Hlngs E3) as [F3 L3].
  destruct (binary64_py_max _ _ Hlngs E4) as [F4 L4].
  pose proof (Hvlat _ (py_min_in _ _ E1)) as B1.
  pose proof (Hvlat _ (py_max_in _ _ E2)) as B2.
  pose proof (Hvlng _ (py_min_in _ _ E3)) as B3.
  pose proof (Hvlng _ (py_max_in _ _ E4)) as B4.
  assert (H2075 : 2 ^ 2075 = 2 * 2 ^ 2074) by reflexivity.
  intros p Hp. destruct (Hfin p Hp) as [Fp1 Fp2].
  pose proof (in_map lat _ _ Hp) as Hplat.
  pose proof (in_map lng _ _ Hp) as Hplng.
  destruct (binary64_bin_total (lat p) lo_lat hi_lat step_lat n Fp1 F1 F2
              (conj (L1 _ Hplat) (L2 _ Hplat)) ltac:(lia) Hn E5) as [b1 Hb1].
  destruct (binary64_bin_total (lng p) lo_lng hi_lng step_lng n Fp2 F3 F4
              (conj (L3 _ Hplng) (L4 _ Hplng)) ltac:(lia) Hn E6) as [b2 Hb2].
  exists b1, b2. split; assumption.
Qed.

(** Once the grid is made and the places have their bins, the [try] block
    raises nothing, whatever the sign of [grid_size]. *)
Lemma binary64_body_of_bins (ps : list (place float)) (gs : Z) (g : grid float) :
  make_grid ps gs = Return g ->
  (forall p, In p ps ->
     exists b1 b2,
       bin_of (lat p) (min_lat g) (lat_step g) = Return b1 /\
       bin_of (lng p) (min_lng g) (lng_step g) = Return b2) ->
  - 2 ^ 1000 < gs <= 2 ^ 1000 ->
  exists r, analyze_body api ps gs = Return r.
Proof.
  intros Hg Hbins Hgs. apply (analyze_body_total api ps gs g Hg).
  intros p Hp. destruct (Hbins p Hp) as (b1 & b2 & Hb1 & Hb2).
  destruct (binary64_clamp_converts _ _ _ b1 gs Hb1 Hgs) as [frow Hfrow].
  destruct (binary64_clamp_converts _ _ _ b2 gs Hb2 Hgs) as [fcol Hfcol].
  exists (clamp b1 gs), (clamp b2 gs), frow, fcol.
  split; [| split; assumption].
  unfold place_bins. rewrite Hb1, Hb2. reflexivity.
Qed.

(** On binary64, for a non-empty list of places whose coordinates are
    moderate (of magnitude at most [2^1000]: every latitude and longitude in
    degrees), and a [grid_size] from [1] to below [2^1000], the [try] block
    raises nothing: no overflow, no [nan], no division by zero.
    [analyze_density] returns a whole report: the number of places, the grid
    size, and from one to three hotspots. *)
Theorem binary64_analysis_completes (ps : list (place float)) (gs : Z) :
  ps <> [] ->
  (forall p, In p ps -> moderate (lat p) = true /\ moderate (lng p) = true) ->
  1 <= gs < 2 ^ 1000 ->
  exists r,
    analyze_body api ps gs = Return r /\
    analyze_density api (PlaceList ps) gs = ReportDict r /\
    total_places r = List.length ps /\
    grid_size r = gs /\
    (1 <= List.length (hotspots r) <= 3)%nat.
Proof.
  intros Hne Hmod Hgs.
  destruct (binary64_moderate_grid ps gs Hne Hmod Hgs) as (g & Hg & Hbins).
  destruct (binary64_body_of_bins ps gs g Hg Hbins ltac:(lia)) as [r Hr].
  exists r. split; [exact Hr |].
  destruct (analyze_density_shape api ps gs Hne)
    as [(e & He & _) | (r' & Hr' & Hd & Hshape)]; [congruence |].
  rewrite Hr in Hr'. injection Hr' as <-. auto.
Qed.

End Binary64Completes.

(** * Places on the globe *)

Section Binary64Valid.

Import Binary64.

Variable api : float -> float -> geocode_response.

Lemma moderate_of_value (x : float) :
  finite x = true -> - 2 ^ 2074 <= value x <= 2 ^ 2074 -> moderate x = true.
Proof.
  unfold moderate, finite, value. rewrite leb_spec, abs_spec.
  pose proof (Prim2SF_valid x) as V.
  change (Prim2SF 0x1p1000) with (S754_finite false 4503599627370496 948).
  destruct (Prim2SF x) as [s | s | | s m e]; try discriminate; intros _;
    cbn [SFabs]; unfold SFleb.
  - reflexivity.
  - rewrite SFcompare_val by (auto; reflexivity).
    cbn [valid_binary] in V. apply bounded_facts in V as (He & _).
    pose proof (pow2_pos (e + 1074) ltac:(lia)).
    change (SFval (S754_finite false 4503599627370496 948)) with (2 ^ 2074).
    cbn [SFval cond_Zopp]. intros Hv.
    destruct (Z.compare_spec (Zpos m * 2 ^ (e + 1074)) (2 ^ 2074));
      try reflexivity.
    destruct s; cbn [cond_Zopp] in Hv; lia.
Qed.

(** A float between two numbers is a number between them. *)
Lemma binary64_between (lo x hi : float) :
  finite lo = true -> finite hi = true ->
  PrimFloat.leb lo x = true -> PrimFloat.leb x hi = true ->
  finite x = true /\ value lo <= value x <= value hi.
Proof.
  intros Hlo Hhi. rewrite !leb_spec. unfold SFleb.
  assert (Hx : SFcompare (Prim2SF lo) (Prim2SF x) <> None ->
               SFcompare (Prim2SF lo) (Prim2SF x) <> Some Gt ->
               SFcompare (Prim2SF x) (Prim2SF hi) <> Some Gt ->
               finite x = true).
  { unfold finite in *.
    destruct (Prim2SF lo) as [sl | sl | | sl ml el]; try discriminate;
      destruct (Prim2SF hi) as [sh | sh | | sh mh eh]; try discriminate;
      destruct (Prim2SF x) as [sx | sx | | sx mx ex]; try reflexivity;
      cbn [SFcompare]; try congruence; destruct sx; congruence. }
  intros H1 H2.
  assert (Fx : finite x = true).
  { apply Hx.
    - destruct (SFcompare (Prim2SF lo) (Prim2SF x)); discriminate.
    - destruct (SFcompare (Prim2SF lo) (Prim2SF x)) as [[] |]; discriminate.
    - destruct (SFcompare (Prim2SF x) (Prim2SF hi)) as [[] |]; discriminate. }
  split; [exact Fx |]. unfold finite, value in *.
  rewrite SFcompare_val in H1, H2 by auto using Prim2SF_valid.
  destruct (Z.compare_spec (SFval (Prim2SF lo)) (SFval (Prim2SF x)));
    destruct (Z.compare_spec (SFval (Prim2SF x)) (SFval (Prim2SF hi)));
    try discriminate; lia.
Qed.

(** The latitudes and longitudes of the globe are moderate. *)
Lemma valid_coordinates_moderate (p : place float) :
  valid_coordinates p = true ->
  moderate (lat p) = true /\ moderate (lng p) = true.
Proof.
  unfold valid_coordinates. intros H.
  apply andb_prop in H as [H H4]. apply andb_prop in H as [H H3].
  apply andb_prop in H as [H1 H2].
  destruct (binary64_between (-90) (lat p) 90 eq_refl eq_refl H1 H2)
    as (F1 & L1 & U1).
  destruct (binary64_between (-180) (lng p) 180 eq_refl eq_refl H3 H4)
    as (F2 & L2 & U2).
  assert (B1 : - 2 ^ 2074 <= value (-90)) by (vm_compute; discriminate).
  assert (B2 : value 90 <= 2 ^ 2074) by (vm_compute; discriminate).
  assert (B3 : - 2 ^ 2074 <= value (-180)) by (vm_compute; discriminate).
  assert (B4 : value 180 <= 2 ^ 2074) by (vm_compute; discriminate).
  split; apply moderate_of_value; auto; lia.
Qed.

(** C4, as the code has it. For a non-empty list of places on the globe
    and a positive [grid_size]: no division of the [try] block is by zero;
    [analyze_density] returns the whole report (the number of places, the
    grid size and from one to three hotspots), or the error dict of the
    exception the [try] block raised; and when [grid_size] is below [2^1000]
    the [try] block raises nothing and it is the report that is returned. *)
Theorem binary64_valid_points_analysis (ps : list (place float)) (gs : Z) :
  ps <> [] ->
  (forall p, In p ps -> valid_coordinates p = true) ->
  1 <= gs ->
  analyze_body api ps gs <> Raise ZeroDivisionError /\
  ((exists r,
      analyze_body api ps gs = Return r /\
      analyze_density api (PlaceList ps) gs = ReportDict r /\
      total_places r = List.length ps /\
      grid_size r = gs /\
      (1 <= List.length (hotspots r) <= 3)%nat) \/
   (exists e,
      analyze_body api ps gs = Raise e /\
      analyze_density api (PlaceList ps) gs = ErrorDict (Caught e))) /\
  (gs < 2 ^ 1000 ->
   exists r,
     analyze_body api ps gs = Return r /\
     analyze_density api (PlaceList ps) gs = ReportDict r /\
     total_places r = List.length ps /\
     grid_size r = gs /\
     (1 <= List.length (hotspots r) <= 3)%nat).
Proof.
  intros Hne Hvalid Hgs. split; [| split].
  - intros H.
    apply zero_division_only_by_grid_size in H as (y & Hy & Hzero);
      [| exact binary64_trunc_no_zero_division].
    rewrite (binary64_of_int_positive gs y Hgs Hy) in Hzero. discriminate.
  - destruct (analyze_density_shape api ps gs Hne) as [H | H]; auto.
  - intros Hlt.
    assert (Hmod : forall p, In p ps ->
              moderate (lat p) = true /\ moderate (lng p) = true)
      by (intros p Hp; apply valid_coordinates_moderate, Hvalid, Hp).
    destruct (binary64_moderate_grid ps gs Hne Hmod ltac:(lia))
      as (g & Hg & Hbins).
    assert (H1000 : 0 < 2 ^ 1000) by (apply pow2_pos; lia).
    destruct (binary64_body_of_bins api ps gs g Hg Hbins ltac:(lia)) as [r Hr].
    destruct (analyze_density_shape api ps gs Hne)
      as [(e & He & _) | (r' & Hr' & Hd & Hshape)]; [congruence |].
    exists r'. auto.
Qed.

End Binary64Valid.

(** * A [grid_size] that is not positive *)

Section Binary64GridSize.

Import Binary64.

Variable api : float -> float -> geocode_response.

(** The conversion of a negative [int] is the opposite of the conversion of
    its opposite. *)
Lemma binary64_of_int_opp (n : Z) (y : float) :
  1 <= n -> Binary64.of_int n = Some y ->
  Binary64.of_int (- n) = Some (- y)%float.
Proof.
  intros Hn. destruct n as [| p | p]; try lia.
  unfold Binary64.of_int. cbn [Z.opp binary_normalize].
  rewrite binary_round_opp.
  pose proof (binary_round_positive p) as Hpos.
  destruct (binary_round prec emax false p 0) as [sx | sx | | sx m e];
    cbn [sf_positive] in Hpos; try contradiction; [discriminate |].
  destruct sx; [contradiction |]. intros [= <-]. reflexivity.
Qed.

(** With the opposite [grid_size], the step of a side that is not
    degenerate is the opposite step. *)
Lemma binary64_grid_step_opp (lo hi step : float) (n : Z) :
  1 <= n -> grid_step lo hi n = Return step ->
  grid_step lo hi (- n) =
  Return (if f_neb hi lo then PrimFloat.opp step else step).
Proof.
  intros Hn. unfold grid_step, truediv_int, truediv.
  destruct (f_neb hi lo); [| intros H; exact H].
  cbn [f_of_int f_eqb f_zero f_div f_sub Binary64.num].
  destruct (Binary64.of_int n) as [y |] eqn:Ey; [| discriminate].
  rewrite (binary64_of_int_opp n y Hn Ey), binary64_eqb_opp_zero.
  destruct (PrimFloat.eqb y 0); [discriminate |].
  intros [= <-]. rewrite binary64_div_opp_r. reflexivity.
Qed.

Lemma binary64_grid_step_zero (lo hi : float) :
  grid_step lo hi 0 =
  if f_neb hi lo then Raise ZeroDivisionError else Return f_001.
Proof. unfold grid_step. destruct (f_neb hi lo); reflexivity. Qed.

Lemma binary64_grid_step_degenerate (lo hi : float) (gs : Z) :
  f_neb hi lo = false -> grid_step lo hi gs = Return f_001.
Proof. unfold grid_step. intros ->. reflexivity. Qed.

(** C5, as the code has it. [grid_size] is not validated. For a non-empty
    list of places with moderate coordinates, a negative [grid_size] above
    [-2^1000] gives a report computed with it; [0] gives a report when all
    places share one latitude and one longitude, and the error dict of the
    caught [ZeroDivisionError] otherwise. *)
Theorem binary64_grid_size_not_validated (ps : list (place float)) (gs : Z) :
  ps <> [] ->
  (forall p, In p ps -> moderate (lat p) = true /\ moderate (lng p) = true) ->
  - 2 ^ 1000 < gs <= 0 ->
  exists lo_lat hi_lat lo_lng hi_lng,
    py_min (map lat ps) = Return lo_lat /\
    py_max (map lat ps) = Return hi_lat /\
    py_min (map lng ps) = Return lo_lng /\
    py_max (map lng ps) = Return hi_lng /\
    if (gs <? 0) || (f_eqb hi_lat lo_lat && f_eqb hi_lng lo_lng)
    then exists r,
           analyze_density api (PlaceList ps) gs = ReportDict r /\
           total_places r = List.length ps /\ grid_size r = gs /\
           (1 <= List.length (hotspots r) <= 3)%nat
    else analyze_density api (PlaceList ps) gs =
         ErrorDict (Caught ZeroDivisionError).
Proof.
  intros Hne Hmod Hgs.
  assert (Hmap : forall f : place float -> float, map f ps <> []).
  { intros f. destruct ps; [congruence | discriminate]. }
  destruct (py_min_total _ (Hmap lat)) as [lo_lat E1].
  destruct (py_max_total _ (Hmap lat)) as [hi_lat E2].
  destruct (py_min_total _ (Hmap lng)) as [lo_lng E3].
  destruct (py_max_total _ (Hmap lng)) as [hi_lng E4].
  exists lo_lat, hi_lat, lo_lng, hi_lng. repeat (split; [assumption |]).
  assert (Hreport : forall g,
            make_grid ps gs = Return g ->
            (forall p, In p ps ->
               exists b1 b2,
                 bin_of (lat p) (min_lat g) (lat_step g) = Return b1 /\
                 bin_of (lng p) (min_lng g) (lng_step g) = Return b2) ->
            exists r,
              analyze_density api (PlaceList ps) gs = ReportDict r /\
              total_places r = List.length ps /\ grid_size r = gs /\
              (1 <= List.length (hotspots r) <= 3)%nat).
  { intros g Hg Hbins.
    destruct (binary64_body_of_bins api ps gs g Hg Hbins ltac:(lia)) as [r Hr].
    destruct (analyze_density_shape api ps gs Hne)
      as [(e & He & _) | (r' & Hr' & Hd & Hshape)]; [congruence |].
    exists r'. split; assumption. }
  assert (Hgrid : forall n,
            make_grid ps n =
            (lat_step <- grid_step lo_lat hi_lat n ;;
             lng_step <- grid_step lo_lng hi_lng n ;;
             Return (mkGrid lo_lat hi_lat lo_lng hi_lng lat_step lng_step))).
  { intros n. unfold make_grid. rewrite E1, E2, E3, E4. reflexivity. }
  destruct (Z.ltb_spec gs 0) as [Hneg | Hzero]; cbn [orb].
  - (* a negative grid_size: the opposite steps and the opposite bins *)
    destruct (binary64_moderate_grid ps (- gs) Hne Hmod ltac:(lia))
      as (g & Hg & Hbins).
    rewrite Hgrid in Hg.
    apply bind_return in Hg as (s1 & S1 & Hg).
    apply bind_return in Hg as (s2 & S2 & [= <-]).
    cbn [min_lat min_lng lat_step lng_step] in Hbins.
    apply (binary64_grid_step_opp _ _ _ (- gs) ltac:(lia)) in S1, S2.
    rewrite Z.opp_involutive in S1, S2.
    apply (Hreport (mkGrid lo_lat hi_lat lo_lng hi_lng
                      (if f_neb hi_lat lo_lat then PrimFloat.opp s1 else s1)
                      (if f_neb hi_lng lo_lng then PrimFloat.opp s2 else s2))).
    + rewrite Hgrid, S1. cbn [bind]. rewrite S2. reflexivity.
    + cbn [min_lat min_lng lat_step lng_step]. intros p Hp.
      destruct (Hbins p Hp) as (b1 & b2 & Hb1 & Hb2).
      exists (if f_neb hi_lat lo_lat then - b1 else b1),
             (if f_neb hi_lng lo_lng then - b2 else b2).
      split.
      * destruct (f_neb hi_lat lo_lat);
          [apply binary64_bin_of_opp |]; exact Hb1.
      * destruct (f_neb hi_lng lo_lng);
          [apply binary64_bin_of_opp |]; exact Hb2.
  - assert (gs = 0) by lia. subst gs.
    destruct (f_eqb hi_lat lo_lat) eqn:D1; cbn [andb];
      [destruct (f_eqb hi_lng lo_lng) eqn:D2 |].
    + (* a degenerate box: the steps do not depend on grid_size *)
      destruct (binary64_moderate_grid ps 1 Hne Hmod ltac:(lia))
        as (g & Hg & Hbins).
      apply (Hreport g); [| exact Hbins].
      rewrite Hgrid in *.
      rewrite !binary64_grid_step_degenerate in *
        by (unfold f_neb; rewrite ?D1, ?D2; reflexivity).
      exact Hg.
    + unfold analyze_density, analyze_body.
      rewrite Hgrid, !binary64_grid_step_zero. unfold f_neb.
      rewrite D1, D2. cbn [negb bind].
      destruct ps; [congruence | reflexivity].
    + unfold analyze_density, analyze_body.
      rewrite Hgrid, !binary64_grid_step_zero. unfold f_neb.
      rewrite D1. cbn [negb bind].
      destruct ps; [congruence | reflexivity].
Qed.

End Binary64GridSize.

(** * The centres of the hotspots and the bounding box *)

Section Binary64Centres.

Import Binary64.

Variable api : float -> float -> geocode_response.

Lemma binary_round_not_nan (s : bool) (p : positive) (e : Z) :
  binary_round prec emax s p e <> S754_nan.
Proof.
  assert (H : binary_round prec emax false p e <> S754_nan).
  { unfold binary_round. destruct (shl_align p e _) as [mz ez].
    apply binary_round_aux_facts. lia. }
  destruct s; [| exact H]. rewrite binary_round_opp.
  destruct (binary_round prec emax false p e); try discriminate. congruence.
Qed.

(** The difference of two numbers is not [nan]. *)
Lemma SFsub_not_nan (x y : spec_float) :
  sf_finite x = true -> sf_finite y = true -> SF64sub x y <> S754_nan.
Proof.
  destruct x as [sx | sx | | sx mx ex], y as [sy | sy | | sy my ey];
    try discriminate; intros _ _; unfold SF64sub, SFsub.
  - destruct sx, sy; discriminate.
  - destruct (_ - _) as [| d | d]; cbn [binary_normalize];
      [discriminate | apply binary_round_not_nan | apply binary_round_not_nan].
Qed.

(** A step is a number that is not negative, or [+infinity]. *)
Lemma binary64_step_not_nan (lo hi step : float) (gs : Z) :
  finite lo = true -> finite hi = true -> value lo <= value hi ->
  1 <= gs ->
  grid_step lo hi gs = Return step -> Prim2SF step <> S754_nan.
Proof.
  intros Hlo Hhi Hle Hgs. unfold grid_step, truediv_int, truediv.
  destruct (f_neb hi lo); [| intros [= <-]; vm_compute; discriminate].
  cbn [f_of_int f_eqb f_zero f_div f_sub Binary64.num].
  destruct (Binary64.of_int gs) as [y |] eqn:Ey; [| discriminate].
  destruct (PrimFloat.eqb y 0) eqn:E0; [discriminate |].
  intros [= <-]. rewrite div_spec.
  destruct (binary64_of_int_bounds gs y Hgs Ey) as (my & ey & Py & Vy & _).
  rewrite Py.
  pose proof (binary64_sub_nonneg hi lo Hhi Hlo Hle) as Hnn.
  pose proof (Prim2SF_valid (hi - lo)) as Vd.
  assert (Hnan : Prim2SF (hi - lo) <> S754_nan)
    by (rewrite sub_spec; apply SFsub_not_nan; assumption).
  destruct (Prim2SF (hi - lo)) as [sd | sd | | sd md ed];
    cbn [sf_nonneg] in Hnn; try congruence; try discriminate.
  subst sd. cbn [valid_binary] in Vd.
  apply (SFdiv_facts md my ed ey Vd Vy).
Qed.

(** [row + 0.5] for a row that is not negative: a positive number, or
    [+infinity]. *)
Lemma binary64_half_more (row : Z) (frow : float) :
  0 <= row -> Binary64.of_int row = Some frow ->
  sf_nonneg (Prim2SF (frow + 0x1p-1)) /\
  sf_nonzero (Prim2SF (frow + 0x1p-1)) /\
  Prim2SF (frow + 0x1p-1) <> S754_nan /\
  (row = 0 -> finite (frow + 0x1p-1) = true).
Proof.
  intros Hrow Hf. destruct (Z.eq_dec row 0) as [-> | Hne].
  - injection Hf as <-. vm_compute. repeat split; discriminate.
  - destruct (binary64_of_int_bounds row frow ltac:(lia) Hf)
      as (m & e & Pf & Vf & _).
    rewrite add_spec, Pf.
    change (Prim2SF 0x1p-1) with (S754_finite false 4503599627370496 (-53)).
    unfold SF64add, SFadd. cbn [cond_Zopp].
    pose proof (proj1 (bounded_facts _ _ Vf)) as He.
    set (ez := Z.min e (-53)).
    match goal with
    | |- context [binary_normalize _ _ (Zpos ?a + Zpos ?b)] =>
        change (Zpos a + Zpos b) with (Zpos (a + b))
    end.
    cbn [binary_normalize].
    destruct (binary_round_facts
                (fst (shl_align m e ez) +
                 fst (shl_align 4503599627370496 (-53) ez)) ez
                ltac:(unfold ez; lia)) as (H1 & H2 & _ & H0 & _).
    split; [exact H1 |]. split; [| split; [exact H2 | contradiction]].
    destruct (binary_round _ _ _ _ _) as [s | | |]; cbn; auto.
    exact (H0 s eq_refl).
Qed.

(** The product of a positive number or [+infinity] by a number that is not
    negative or [+infinity] is not negative, and is not [nan] unless it is
    [infinity * 0]. *)
Lemma binary64_mul_nonneg (a s : float) :
  sf_nonneg (Prim2SF a) -> sf_nonzero (Prim2SF a) -> Prim2SF a <> S754_nan ->
  sf_nonneg (Prim2SF s) -> Prim2SF s <> S754_nan ->
  sf_nonzero (Prim2SF s) \/ finite a = true ->
  sf_nonneg (Prim2SF (a * s)) /\ Prim2SF (a * s) <> S754_nan.
Proof.
  unfold finite. rewrite mul_spec.
  destruct (Prim2SF a) as [sa | sa | | sa ma ea],
           (Prim2SF s) as [ss | ss | | ss ms es];
    cbn [sf_nonneg sf_nonzero sf_finite SF64mul SFmul];
    intros A1 A2 A3 S1 S2 Hor; try contradiction; try congruence;
    try subst sa; try subst ss; cbn [xorb sf_nonneg];
    try (split; [reflexivity || exact I | discriminate]).
  - destruct Hor as [[] | Hor]. discriminate.
  - split; [apply binary_round_aux_nonneg |].
    apply binary_round_aux_facts. lia.
Qed.

Lemma binary64_bin_of_zero_step (x lo step : float) (b : Z) (s : bool) :
  Prim2SF step = S754_zero s -> bin_of x lo step = Return b -> b = 0.
Proof.
  intros Hs. unfold bin_of, f_neb. cbn [f_eqb f_zero Binary64.num].
  rewrite eqb_spec, Hs. cbn. intros [= <-]. reflexivity.
Qed.

(** On one side of the box: the centre of the cell of a place is not below
    the lower bound. *)
Lemma binary64_centre_not_below (lo hi step x : float) (gs b : Z) (fb : float) :
  finite lo = true -> finite hi = true -> value lo <= value hi ->
  1 <= gs ->
  grid_step lo hi gs = Return step ->
  bin_of x lo step = Return b ->
  0 <= clamp b gs ->
  Binary64.of_int (clamp b gs) = Some fb ->
  PrimFloat.leb lo (lo + (fb + 0x1p-1) * step) = true.
Proof.
  intros Hlo Hhi Hle Hgs Hstep Hbin Hrow Hfb.
  destruct (binary64_half_more (clamp b gs) fb Hrow Hfb) as (A1 & A2 & A3 & A4).
  pose proof (binary64_step_nonneg lo hi step gs Hlo Hhi Hle Hgs Hstep) as S1.
  pose proof (binary64_step_not_nan lo hi step gs Hlo Hhi Hle Hgs Hstep) as S2.
  destruct (binary64_mul_nonneg (fb + 0x1p-1) step A1 A2 A3 S1 S2) as [T1 T2].
  - destruct (Prim2SF step) as [s | | |] eqn:Es; cbn [sf_nonzero]; auto.
    right. apply A4.
    rewrite (binary64_bin_of_zero_step x lo step b s Es Hbin).
    unfold clamp. destruct (Z.geb_spec 0 gs); [lia | reflexivity].
  - apply binary64_add_not_below; assumption.
Qed.

(** A rounding, from above: with [g] the exponent the mantissa is first cut
    to and [m1] the mantissa cut, the result is at most [(m1 + 1) * 2^g]. *)
Lemma binary_round_aux_upper (m e : Z) (l : location) (s : bool)
    (p : positive) (e' : Z) :
  0 <= m ->
  binary_round_aux prec emax false m e l = S754_finite s p e' ->
  exists g m1,
    -1074 <= g /\ e <= g /\ g <= e' /\ 0 <= m1 /\
    m1 * 2 ^ (g - e) <= m /\
    Zpos p * 2 ^ (e' - g) <= m1 + 1.
Proof.
  intros Hm H.
  destruct (binary_round_aux_spec m e l Hm)
    as (m1 & m2 & m3 & e1 & e2 & He1 & Hm1 & Hm2 & He2 & Hm3 & Heq).
  rewrite Heq in H. rewrite fexp_eq in He1, He2.
  assert (Hk : 0 <= e1 - e) by lia.
  pose proof (pow2_pos _ Hk) as HK.
  pose proof (div_pow2_bounds m (e1 - e) Hm Hk) as Hd1. rewrite <- Hm1 in Hd1.
  assert (Hm1pos : 0 <= m1) by (subst m1; apply Z.div_pos; lia).
  pose proof (div_pow2_bounds m2 (e2 - e1) ltac:(lia) ltac:(lia)) as Hd2.
  rewrite <- Hm3 in Hd2.
  destruct m3 as [| p3 | p3]; try discriminate.
  change (emax - prec) with 971 in H.
  destruct (Z.leb_spec e2 971); [| discriminate].
  injection H as <- <- <-.
  exists e1, m1. repeat split; lia.
Qed.

(** In units of [2^-1074]: the result of a rounding exceeds a number [R1]
    that is at most the number rounded by one part in [2^52 - 1], or by one
    unit. *)
Lemma binary_round_aux_rel (m e : Z) (l : location) (s : bool)
    (p : positive) (e' : Z) :
  0 <= m ->
  binary_round_aux prec emax false m e l = S754_finite s p e' ->
  bounded prec emax p e' = true ->
  exists g R1,
    -1074 <= g /\ e <= g /\ 0 <= R1 /\
    R1 * 2 ^ (g - e) <= m * 2 ^ (g + 1074) /\
    (2 ^ 52 - 1) * (Zpos p * 2 ^ (e' + 1074)) <= 2 ^ 52 * R1 + 2 ^ 52.
Proof.
  intros Hm H Hb.
  destruct (binary_round_aux_upper m e l s p e' Hm H)
    as (g & m1 & Hg & Heg & Hge' & Hm1 & Hlow & Hup).
  apply bounded_facts in Hb as (_ & _ & Hnorm).
  pose proof (pow2_pos (g + 1074) ltac:(lia)) as HG.
  pose proof (pow2_pos (g - e) ltac:(lia)) as HK.
  pose proof (pow2_pos (e' - g) ltac:(lia)) as HK'.
  exists g, (m1 * 2 ^ (g + 1074)).
  split; [exact Hg |]. split; [exact Heg |]. split; [nia |]. split.
  - replace (m1 * 2 ^ (g + 1074) * 2 ^ (g - e))
      with (m1 * 2 ^ (g - e) * 2 ^ (g + 1074)) by ring.
    apply Z.mul_le_mono_nonneg_r; lia.
  - assert (HR : Zpos p * 2 ^ (e' + 1074) =
                 Zpos p * 2 ^ (e' - g) * 2 ^ (g + 1074)).
    { rewrite <- Z.mul_assoc, <- Z.pow_add_r by lia. do 2 f_equal. lia. }
    rewrite HR.
    set (G := 2 ^ (g + 1074)) in *. set (P := Zpos p * 2 ^ (e' - g)) in *.
    assert (HPG : P * G <= (m1 + 1) * G)
      by (apply Z.mul_le_mono_nonneg_r; lia).
    set (K := 2 ^ 52) in *. assert (HK52 : 1 < K) by reflexivity.
    destruct (Z.eq_dec e' (-1074)) as [E | Hne].
    + assert (g = -1074) by lia. subst g. change G with 1 in *. nia.
    + specialize (Hnorm ltac:(lia)).
      assert (HKP : K <= P) by (unfold P; nia).
      assert (K * G <= P * G) by (apply Z.mul_le_mono_nonneg_r; lia).
      nia.
Qed.

(** The product of two positive numbers, from above. *)
Lemma SFmul_upper (ma ms p : positive) (ea es e' : Z) (s : bool) :
  -1074 <= ea -> -1074 <= es ->
  SF64mul (S754_finite false ma ea) (S754_finite false ms es) =
    S754_finite s p e' ->
  bounded prec emax p e' = true ->
  (2 ^ 52 - 1) * (Zpos p * 2 ^ (e' + 1074)) * 2 ^ 1074 <=
  2 ^ 52 * (Zpos ma * 2 ^ (ea + 1074) * (Zpos ms * 2 ^ (es + 1074))) +
  2 ^ 52 * 2 ^ 1074.
Proof.
  intros Hea Hes H Hb. unfold SF64mul, SFmul in H. cbn [xorb] in H.
  destruct (binary_round_aux_rel (Zpos (ma * ms)) (ea + es) loc_Exact s p e'
              ltac:(lia) H Hb)
    as (g & R1 & Hg & Heg & HR1 & Hlow & Hup).
  pose proof (pow2_pos (g - (ea + es)) ltac:(lia)) as HK.
  pose proof (pow2_pos 1074 ltac:(lia)) as HU.
  assert (HAS : Zpos ma * 2 ^ (ea + 1074) * (Zpos ms * 2 ^ (es + 1074)) *
                2 ^ (g - (ea + es)) =
                Zpos (ma * ms) * 2 ^ (g + 1074) * 2 ^ 1074).
  { rewrite Pos2Z.inj_mul.
    replace (Zpos ma * 2 ^ (ea + 1074) * (Zpos ms * 2 ^ (es + 1074)) *
             2 ^ (g - (ea + es)))
      with (Zpos ma * Zpos ms *
            (2 ^ (ea + 1074) * 2 ^ (es + 1074) * 2 ^ (g - (ea + es)))) by ring.
    rewrite <- !Z.mul_assoc. do 2 f_equal.
    rewrite <- !Z.pow_add_r by lia. f_equal. lia. }
  set (A := Zpos ma * 2 ^ (ea + 1074)) in *.
  set (S := Zpos ms * 2 ^ (es + 1074)) in *.
  set (T := Zpos p * 2 ^ (e' + 1074)) in *.
  set (U := 2 ^ 1074) in *. set (C := 2 ^ (g - (ea + es))) in *.
  set (K := 2 ^ 52) in *. assert (HK52 : 1 < K) by reflexivity.
  assert (H1 : R1 * U <= A * S).
  { apply Z.mul_le_mono_pos_r with C; [exact HK |].
    rewrite HAS.
    replace (R1 * U * C) with (R1 * C * U) by ring.
    apply Z.mul_le_mono_nonneg_r; lia. }
  assert (H2 : (K - 1) * T * U <= (K * R1 + K) * U)
    by (apply Z.mul_le_mono_nonneg_r; lia).
  apply Z.le_trans with ((K * R1 + K) * U); [exact H2 |].
  replace ((K * R1 + K) * U) with (K * (R1 * U) + K * U) by ring.
  apply Z.add_le_mono_r. apply Z.mul_le_mono_nonneg_l; lia.
Qed.

(** The product of two positive numbers is not an infinity when it is below
    [2^1022] and the first factor is below [1]. *)
Lemma SFmul_finite (ma ms : positive) (ea es : Z) :
  bounded prec emax ma ea = true -> bounded prec emax ms es = true ->
  ea <= -1 ->
  Zpos ma * 2 ^ (ea + 1074) * (Zpos ms * 2 ^ (es + 1074)) < 2 ^ 3170 ->
  sf_finite (SF64mul (S754_finite false ma ea) (S754_finite false ms es)) =
    true.
Proof.
  intros Va Vs Hea Hlt.
  pose proof (proj1 (bounded_facts _ _ Va)) as Ha.
  pose proof (proj1 (bounded_facts _ _ Vs)) as Hs.
  pose proof (proj2 (bounded_canonical _ _ Vs)) as Hes.
  unfold SF64mul, SFmul. cbn [xorb].
  destruct (binary_round_aux_facts (Zpos (ma * ms)) (ea + es) loc_Exact
              ltac:(lia)) as (_ & Hnan & Hfin & _).
  apply Hfin; [lia |].
    pose proof (Zdigits2_bounds (Zpos (ma * ms)) ltac:(lia)) as [Hlo _].
    set (d := Zdigits2 (Zpos (ma * ms))) in *.
    assert (Hd : 1 <= d).
    { unfold d. change (Zdigits2 (Zpos (ma * ms)))
        with (Zpos (digits2_pos (ma * ms))).
      pose proof (Pos2Z.is_pos (digits2_pos (ma * ms))). lia. }
    assert (HAS : Zpos ma * 2 ^ (ea + 1074) * (Zpos ms * 2 ^ (es + 1074)) =
                  Zpos (ma * ms) * 2 ^ (ea + es + 2148)).
    { rewrite Pos2Z.inj_mul.
      replace (ea + es + 2148) with ((ea + 1074) + (es + 1074)) by lia.
      rewrite (Z.pow_add_r 2 (ea + 1074) (es + 1074)) by lia. ring. }
    rewrite HAS in Hlt.
    assert (Hpow : 2 ^ (d - 1 + (ea + es + 2148)) < 2 ^ 3170).
    { rewrite Z.pow_add_r by lia.
      apply Z.le_lt_trans with (Zpos (ma * ms) * 2 ^ (ea + es + 2148));
        [| exact Hlt].
      apply Z.mul_le_mono_nonneg_r; [| exact Hlo].
      apply Z.lt_le_incl, pow2_pos. lia. }
    apply pow2_lt_inv in Hpow; lia.
Qed.

(** The quotient of two positive numbers, from above. *)
Lemma SFdiv_upper (mx my p : positive) (ex ey e' : Z) (s : bool) :
  bounded prec emax mx ex = true -> bounded prec emax my ey = true ->
  SF64div (S754_finite false mx ex) (S754_finite false my ey) =
    S754_finite s p e' ->
  bounded prec emax p e' = true ->
  (2 ^ 52 - 1) * (Zpos p * 2 ^ (e' + 1074)) * (Zpos my * 2 ^ (ey + 1074)) <=
  2 ^ 52 * (Zpos mx * 2 ^ (ex + 1074) * 2 ^ 1074) +
  2 ^ 52 * (Zpos my * 2 ^ (ey + 1074)).
Proof.
  intros Vx Vy H Hb.
  apply bounded_facts in Vx as (Hex & Hmx & _).
  apply bounded_facts in Vy as (Hey & Hmy & _).
  unfold SF64div, SFdiv, SFdiv_core_binary in H. cbn [xorb Zdigits2] in H.
  set (dx := Zpos (digits2_pos mx)) in *. set (dy := Zpos (digits2_pos my)) in *.
  set (e0 := Z.min (fexp prec emax (dx + ex - (dy + ey))) (ex - ey)) in *.
  assert (He0 : e0 = Z.min (Z.max (dx + ex - (dy + ey) - 53) (-1074)) (ex - ey))
    by reflexivity.
  set (sft := ex - ey - e0) in *.
  assert (Hs : 0 <= sft) by (unfold sft; lia).
  set (m' := match sft with
             | 0 => Zpos mx
             | Zpos _ => Z.shiftl (Zpos mx) sft
             | Zneg _ => 0
             end) in *.
  assert (Hm' : m' = Zpos mx * 2 ^ sft).
  { unfold m'. destruct sft as [| k | k] eqn:E; [simpl; lia | | lia].
    apply Z.shiftl_mul_pow2. lia. }
  pose proof (Z_div_mod m' (Zpos my) ltac:(lia)) as Hdiv.
  destruct (Z.div_eucl m' (Zpos my)) as [q r]. destruct Hdiv as [Hqr Hr].
  pose proof (pow2_pos sft Hs) as Hps.
  assert (Hq : 0 <= q) by nia.
  destruct (binary_round_aux_rel q e0 (new_location (Zpos my) r) s p e' Hq H Hb)
    as (g & R1 & Hg & Heg & HR1 & Hlow & Hup).
  pose proof (pow2_pos (g - e0) ltac:(lia)) as HC.
  pose proof (pow2_pos (g + 1074) ltac:(lia)) as HG.
  pose proof (pow2_pos (ey + 1074) ltac:(lia)) as HY.
  pose proof (pow2_pos (ex + 1074) ltac:(lia)) as HX.
  pose proof (pow2_pos 1074 ltac:(lia)) as HU.
  assert (HDU : Zpos mx * 2 ^ (ex + 1074) * 2 ^ 1074 * 2 ^ (g - e0) =
                m' * 2 ^ (g + 1074) * 2 ^ (ey + 1074)).
  { rewrite Hm'. rewrite <- !Z.mul_assoc. f_equal.
    rewrite <- !Z.pow_add_r by lia. f_equal. unfold sft. lia. }
  set (D := Zpos mx * 2 ^ (ex + 1074)) in *.
  set (Y := Zpos my * 2 ^ (ey + 1074)) in *.
  set (S := Zpos p * 2 ^ (e' + 1074)) in *.
  set (U := 2 ^ 1074) in *. set (C := 2 ^ (g - e0)) in *.
  set (G := 2 ^ (g + 1074)) in *. set (Py := 2 ^ (ey + 1074)) in *.
  set (K := 2 ^ 52) in *. assert (HK52 : 1 < K) by reflexivity.
  assert (H1 : R1 * Y <= D * U).
  { apply Z.mul_le_mono_pos_r with C; [exact HC |].
    rewrite HDU. unfold Y.
    replace (R1 * (Zpos my * Py) * C) with (R1 * C * (Zpos my * Py)) by ring.
    apply Z.le_trans with (q * G * (Zpos my * Py)).
    - apply Z.mul_le_mono_nonneg_r; [nia | exact Hlow].
    - replace (q * G * (Zpos my * Py)) with (q * Zpos my * (G * Py)) by ring.
      replace (m' * G * Py) with (m' * (G * Py)) by ring.
      apply Z.mul_le_mono_nonneg_r; nia. }
  assert (HYpos : 0 < Y) by (unfold Y; nia).
  assert (H2 : (K - 1) * S * Y <= (K * R1 + K) * Y)
    by (apply Z.mul_le_mono_nonneg_r; lia).
  apply Z.le_trans with ((K * R1 + K) * Y); [exact H2 |].
  replace ((K * R1 + K) * Y) with (K * (R1 * Y) + K * Y) by ring.
  apply Z.add_le_mono_r. apply Z.mul_le_mono_nonneg_l; lia.
Qed.

(** The rounding of [p * 2^e], from above: it exceeds the number by at most
    one part in [2^52], and not at all among the subnormal numbers. *)
Lemma binary_round_upper (p p' : positive) (e e' : Z) (s : bool) :
  -1074 <= e ->
  binary_round prec emax false p e = S754_finite s p' e' ->
  2 ^ 52 * (Zpos p' * 2 ^ (e' + 1074)) <=
  (2 ^ 52 + 1) * (Zpos p * 2 ^ (e + 1074)).
Proof.
  intros He H.
  destruct (binary_round_value p e He) as (m2 & Hv). cbn zeta in Hv.
  destruct Hv as (Hm2 & Hex & H1 & Hfin & Hinf).
  pose proof (SFval_magnitude p e He) as [Vlo _].
  set (dp := Zpos (digits2_pos p)) in *.
  set (f := Z.max (dp + e - 53) (-1074)) in *.
  set (V := Zpos p * 2 ^ (e + 1074)) in *.
  pose proof (pow2_pos (f + 1074) ltac:(unfold f; lia)) as HG.
  destruct (Z.lt_ge_cases (m2 * 2 ^ (f + 1074)) (2 ^ 2098)) as [Hlt | Hge];
    [| rewrite (Hinf Hge) in H; discriminate].
  destruct (Hfin Hlt) as (p'' & e'' & E & Hval).
  rewrite E in H. injection H as <- <- <-. rewrite Hval.
  pose proof (Z.mul_div_le V _ HG) as Hfloor.
  destruct (Z.eq_dec f (-1074)) as [Ef | Hne].
  - rewrite Ef in *. change (2 ^ (-1074 + 1074)) with 1 in *.
    rewrite Z.mod_1_r in Hex. rewrite (Hex eq_refl), Z.div_1_r. lia.
  - assert (Hf : f = dp + e - 53) by (unfold f in *; lia).
    assert (HVG : 2 ^ (dp + e + 1073) = 2 ^ 52 * 2 ^ (f + 1074)).
    { rewrite <- Z.pow_add_r by lia. f_equal. lia. }
    set (G := 2 ^ (f + 1074)) in *. set (K := 2 ^ 52) in *.
    assert (HK52 : 1 < K) by reflexivity.
    assert (Hm2G : m2 * G <= (V / G + 1) * G)
      by (apply Z.mul_le_mono_nonneg_r; lia).
    assert (HKm : K * (m2 * G) <= K * (V + G))
      by (apply Z.mul_le_mono_nonneg_l; lia).
    lia.
Qed.

(** The difference of two finite numbers, the first the larger one, from
    above. *)
Lemma SFsub_upper (x y : spec_float) :
  valid_binary x = true -> valid_binary y = true ->
  sf_finite x = true -> sf_finite y = true ->
  SFval y <= SFval x -> sf_finite (SF64sub x y) = true ->
  2 ^ 52 * SFval (SF64sub x y) <= (2 ^ 52 + 1) * (SFval x - SFval y).
Proof.
  destruct x as [sx | sx | | sx mx ex], y as [sy | sy | | sy my ey];
    try discriminate; intros Vx Vy _ _ Hle Hfin;
    cbn [SF64sub SFsub SFval valid_binary] in *.
  - destruct sx, sy; cbn; lia.
  - apply bounded_facts in Vy as (He & _).
    pose proof (pow2_pos (ey + 1074) ltac:(lia)).
    destruct sy; cbn [cond_Zopp negb sf_finite sf_nonneg SFval] in *; nia.
  - apply bounded_facts in Vx as (He & _).
    pose proof (pow2_pos (ex + 1074) ltac:(lia)).
    destruct sx; cbn [cond_Zopp negb sf_finite sf_nonneg SFval] in *; nia.
  - unfold SF64sub, SFsub in *.
    apply bounded_facts in Vx as (Hex & _). apply bounded_facts in Vy as (Hey & _).
    set (ez := Z.min ex ey) in *.
    pose proof (shl_align_val mx ex ez ltac:(lia) ltac:(lia)) as Hx.
    pose proof (shl_align_val my ey ez ltac:(lia) ltac:(lia)) as Hy.
    pose proof (pow2_pos (ez + 1074) ltac:(lia)) as Hp.
    set (X := Zpos (fst (shl_align mx ex ez))) in *.
    set (Y := Zpos (fst (shl_align my ey ez))) in *.
    set (D := cond_Zopp sx X - cond_Zopp sy Y) in *.
    assert (HD : D * 2 ^ (ez + 1074) =
                 cond_Zopp sx (Zpos mx * 2 ^ (ex + 1074)) -
                 cond_Zopp sy (Zpos my * 2 ^ (ey + 1074))).
    { unfold D. rewrite <- Hx, <- Hy. destruct sx, sy; cbn [cond_Zopp]; ring. }
    rewrite <- HD in *.
    destruct D as [| d | d] eqn:ED; cbn [binary_normalize] in *.
    + cbn. lia.
    + destruct (binary_round prec emax false d ez) as [s | s | | s p' e'] eqn:Er;
        try discriminate.
      * cbn [SFval]. nia.
      * pose proof (binary_round_upper d p' ez e' s ltac:(lia) Er) as Hup.
        destruct (binary_round_facts d ez ltac:(lia)) as (_ & _ & _ & _ & H4).
        destruct (H4 s p' e' Er) as (-> & _). exact Hup.
    + exfalso. pose proof (Pos2Z.neg_is_neg d). nia.
Qed.

Lemma binary64_sub_upper (x y : float) :
  finite x = true -> finite y = true ->
  value y <= value x -> value x - value y < 2 ^ 2096 ->
  2 ^ 52 * value (x - y) <= (2 ^ 52 + 1) * (value x - value y).
Proof.
  intros Hx Hy Hle Hlt.
  destruct (binary64_sub_bounds x y Hx Hy Hle Hlt) as (F & _).
  unfold finite, value in *. rewrite sub_spec in *.
  apply SFsub_upper; auto using Prim2SF_valid.
Qed.

(** An [int] from [0] to [2^53] converts to the float of the same value. *)
Lemma binary64_of_int_exact (n : Z) :
  0 <= n < 2 ^ 53 ->
  exists y, Binary64.of_int n = Some y /\ finite y = true /\
            sf_nonneg (Prim2SF y) /\ value y = n * 2 ^ 1074.
Proof.
  intros [Hn Hlt]. unfold Binary64.of_int.
  destruct n as [| p | p]; [| | lia].
  - eexists. split; [reflexivity |]. vm_compute. auto.
  - cbn [binary_normalize].
    destruct (binary_round_value p 0 ltac:(lia)) as (m2 & Hv). cbn zeta in Hv.
    destruct Hv as (Hm2 & Hex & H1 & Hfin & _).
    pose proof (SFval_magnitude p 0 ltac:(lia)) as [Vlo _].
    pose proof (Pos2Z.is_pos (digits2_pos p)) as Hd.
    set (dp := Zpos (digits2_pos p)) in *.
    change (2 ^ (0 + 1074)) with (2 ^ 1074) in *.
    assert (Hdp : dp <= 53).
    { assert (H : 2 ^ (dp + 0 + 1073) < 2 ^ (53 + 1074)).
      { apply Z.le_lt_trans with (Zpos p * 2 ^ 1074); [exact Vlo |].
        rewrite (Z.pow_add_r 2 53 1074) by lia.
        apply Z.mul_lt_mono_pos_r; [apply pow2_pos; lia | exact Hlt]. }
      apply pow2_lt_inv in H; lia. }
    replace (Z.max (dp + 0 - 53) (-1074)) with (dp - 53) in * by lia.
    pose proof (pow2_pos (dp - 53 + 1074) ltac:(lia)) as HG.
    assert (HU : 2 ^ 1074 = 2 ^ (53 - dp) * 2 ^ (dp - 53 + 1074)).
    { rewrite <- Z.pow_add_r by lia. f_equal. lia. }
    set (G := 2 ^ (dp - 53 + 1074)) in *.
    assert (Hmod : (Zpos p * 2 ^ 1074) mod G = 0).
    { rewrite HU, Z.mul_assoc. apply Z.mod_mul. lia. }
    assert (Hm2G : m2 * G = Zpos p * 2 ^ 1074).
    { rewrite (Hex Hmod). apply Z.div_exact in Hmod; lia. }
    destruct Hfin as (p' & e' & E & Hval).
    { rewrite Hm2G. change (2 ^ 2098) with (2 ^ 1024 * 2 ^ 1074).
      apply Z.mul_lt_mono_pos_r; [apply pow2_pos; lia |].
      apply Z.lt_trans with (2 ^ 53); [exact Hlt | reflexivity]. }
    rewrite E. eexists. split; [reflexivity |].
    pose proof (binary_round_positive p) as Hpos. rewrite E in Hpos.
    unfold finite, value. rewrite Prim2SF_SF2Prim by exact Hpos.
    cbn [sf_finite sf_nonneg SFval cond_Zopp]. rewrite Hval, Hm2G. auto.
Qed.

(** [row + 0.5] for a row from [0] to [2^52] is computed without rounding. *)
Lemma binary64_half_more_exact (row : Z) (frow : float) :
  0 <= row < 2 ^ 52 -> Binary64.of_int row = Some frow ->
  exists ma ea,
    Prim2SF (frow + 0x1p-1) = S754_finite false ma ea /\
    bounded prec emax ma ea = true /\ ea <= -1 /\
    Zpos ma * 2 ^ (ea + 1074) = row * 2 ^ 1074 + 2 ^ 1073.
Proof.
  intros [Hrow Hlt] Hf.
  assert (Hcan : forall ma ea,
             Prim2SF (frow + 0x1p-1) = S754_finite false ma ea ->
             Zpos ma * 2 ^ (ea + 1074) = row * 2 ^ 1074 + 2 ^ 1073 ->
             bounded prec emax ma ea = true /\ ea <= -1).
  { intros ma ea E Hval. pose proof (Prim2SF_valid (frow + 0x1p-1)) as V.
    rewrite E in V. cbn [valid_binary] in V. split; [exact V |].
    pose proof (bounded_canonical ma ea V) as [Hc _].
    pose proof (proj1 (bounded_facts ma ea V)) as He.
    pose proof (SFval_magnitude ma ea He) as [Vlo _].
    assert (H : 2 ^ (Zpos (digits2_pos ma) + ea + 1073) < 2 ^ (52 + 1074)).
    { apply Z.le_lt_trans with (Zpos ma * 2 ^ (ea + 1074)); [exact Vlo |].
      rewrite Hval. change (2 ^ (52 + 1074)) with (2 ^ 52 * 2 ^ 1074).
      change (2 ^ 1074) with (2 * 2 ^ 1073).
      assert (0 < 2 ^ 1073) by (apply pow2_pos; lia). nia. }
    apply pow2_lt_inv in H; lia. }
  destruct (Z.eq_dec row 0) as [-> | Hne].
  - injection Hf as <-. exists 4503599627370496%positive, (-53).
    split; [reflexivity |]. split; [reflexivity |]. split; [lia | reflexivity].
  - destruct (binary64_of_int_exact row) as (y & Ey & _ & _ & Hy).
    { split; [lia |]. apply Z.lt_trans with (2 ^ 52); [exact Hlt | reflexivity]. }
    rewrite Hf in Ey. injection Ey as <-.
    destruct (binary64_of_int_bounds row frow ltac:(lia) Hf)
      as (m & e & Pf & Vf & _).
    unfold value in Hy. rewrite Pf in Hy. cbn [SFval cond_Zopp] in Hy.
    assert (Hgoal : exists ma ea,
               Prim2SF (frow + 0x1p-1) = S754_finite false ma ea /\
               Zpos ma * 2 ^ (ea + 1074) = row * 2 ^ 1074 + 2 ^ 1073).
    { rewrite add_spec, Pf.
      change (Prim2SF 0x1p-1) with (S754_finite false 4503599627370496 (-53)).
      unfold SF64add, SFadd. cbn [cond_Zopp].
      pose proof (proj1 (bounded_facts _ _ Vf)) as He.
      set (ez := Z.min e (-53)).
      pose proof (shl_align_val m e ez ltac:(unfold ez; lia) ltac:(unfold ez; lia))
        as Hx.
      pose proof (shl_align_val 4503599627370496 (-53) ez
                    ltac:(unfold ez; lia) ltac:(unfold ez; lia)) as Hh.
      change (Zpos 4503599627370496 * 2 ^ (-53 + 1074)) with (2 ^ 1073) in Hh.
      match goal with
      | |- context [binary_normalize _ _ (Zpos ?a + Zpos ?b)] =>
          change (Zpos a + Zpos b) with (Zpos (a + b))
      end.
      cbn [binary_normalize].
      set (X := fst (shl_align m e ez)) in *.
      set (H := fst (shl_align 4503599627370496 (-53) ez)) in *.
      assert (Hez : -1074 <= ez) by (unfold ez; lia).
      assert (HV : Zpos (X + H) * 2 ^ (ez + 1074) = row * 2 ^ 1074 + 2 ^ 1073).
      { rewrite Pos2Z.inj_add, Z.mul_add_distr_r, Hx, Hh, Hy. reflexivity. }
      destruct (binary_round_value (X + H) ez Hez) as (m2 & Hv). cbn zeta in Hv.
      destruct Hv as (Hm2 & Hex & H1 & Hfin & _).
      pose proof (SFval_magnitude (X + H) ez Hez) as [Vlo Vhi].
      rewrite HV in *.
      set (dp := Zpos (digits2_pos (X + H))) in *.
      assert (H1073 : 0 < 2 ^ 1073) by (apply pow2_pos; lia).
      assert (H1074 : 2 ^ 1074 = 2 * 2 ^ 1073) by reflexivity.
      assert (Hhi : dp + ez <= 52).
      { assert (Hp : 2 ^ (dp + ez + 1073) < 2 ^ (52 + 1074)).
        { apply Z.le_lt_trans with (row * 2 ^ 1074 + 2 ^ 1073); [exact Vlo |].
          change (2 ^ (52 + 1074)) with (2 ^ 52 * 2 ^ 1074).
          assert ((row + 1) * 2 ^ 1074 <= 2 ^ 52 * 2 ^ 1074)
            by (apply Z.mul_le_mono_nonneg_r; lia).
          lia. }
        apply pow2_lt_inv in Hp; lia. }
      assert (Hlo : 0 <= dp + ez).
      { assert (0 <= row * 2 ^ 1074) by (apply Z.mul_nonneg_nonneg; lia).
        assert (Hp : 2 ^ 1073 < 2 ^ (dp + ez + 1074)) by lia.
        apply pow2_lt_inv in Hp; [lia |].
        pose proof (Pos2Z.is_pos (digits2_pos (X + H))). fold dp in H0. lia. }
      replace (Z.max (dp + ez - 53) (-1074)) with (dp + ez - 53) in * by lia.
      pose proof (pow2_pos (dp + ez - 53 + 1074) ltac:(lia)) as HG.
      assert (HU : 2 ^ 1073 = 2 ^ (52 - (dp + ez)) * 2 ^ (dp + ez - 53 + 1074)).
      { rewrite <- Z.pow_add_r by lia. f_equal. lia. }
      set (G := 2 ^ (dp + ez - 53 + 1074)) in *.
      assert (Hmod : (row * 2 ^ 1074 + 2 ^ 1073) mod G = 0).
      { replace (row * 2 ^ 1074 + 2 ^ 1073) with ((2 * row + 1) * 2 ^ 1073) by lia.
        rewrite HU, Z.mul_assoc. apply Z.mod_mul. lia. }
      assert (Hm2G : m2 * G = row * 2 ^ 1074 + 2 ^ 1073).
      { rewrite (Hex Hmod). apply Z.div_exact in Hmod; lia. }
      destruct Hfin as (p' & e' & E & Hval).
      { rewrite Hm2G. change (2 ^ 2098) with (2 ^ 1024 * 2 ^ 1074).
        assert (2 ^ 52 < 2 ^ 1024 - 1) by reflexivity. nia. }
      rewrite E. exists p', e'. split; [reflexivity | lia]. }
    destruct Hgoal as (ma & ea & E & Hval).
    destruct (Hcan ma ea E Hval). exists ma, ea. auto.
Qed.

(** The sum of a number and a number that is not negative does not exceed
    a number of the format that the exact sum does not exceed. *)
Lemma SFadd_not_above (x t h : spec_float) :
  valid_binary x = true -> valid_binary t = true -> valid_binary h = true ->
  sf_finite x = true -> sf_finite t = true -> sf_finite h = true ->
  sf_nonneg t ->
  SFval x + SFval t <= SFval h ->
  sf_finite (SF64add x t) = true /\ SFval (SF64add x t) <= SFval h.
Proof.
  destruct x as [sx | sx | | sx mx ex]; try discriminate;
    destruct t as [st | st | | st mt et]; try discriminate;
    cbn [sf_nonneg]; intros Vx Vt Vh _ _ Fh Hnn Hle; try subst st.
  - destruct sx, st; cbn in *; split; auto; lia.
  - cbn in *. split; [reflexivity | lia].
  - cbn in *. split; [reflexivity | lia].
  - unfold SF64add, SFadd in *. cbn [valid_binary SFval cond_Zopp] in *.
    pose proof (proj1 (bounded_facts _ _ Vx)) as Hex.
    pose proof (proj1 (bounded_facts _ _ Vt)) as Het.
    set (ez := Z.min ex et) in *.
    pose proof (shl_align_val mx ex ez ltac:(lia) ltac:(lia)) as Hx.
    pose proof (shl_align_val mt et ez ltac:(lia) ltac:(lia)) as Ht.
    pose proof (pow2_pos (ez + 1074) ltac:(lia)) as Hp.
    pose proof (pow2_pos (ex + 1074) ltac:(lia)) as Hpx.
    pose proof (pow2_pos (et + 1074) ltac:(lia)) as Hpt.
    set (X := fst (shl_align mx ex ez)) in *.
    set (Y := fst (shl_align mt et ez)) in *.
    assert (HD : (cond_Zopp sx (Zpos X) + Zpos Y) * 2 ^ (ez + 1074) =
                 cond_Zopp sx (Zpos mx * 2 ^ (ex + 1074)) +
                 Zpos mt * 2 ^ (et + 1074)).
    { rewrite <- Hx, <- Ht. destruct sx; cbn [cond_Zopp]; ring. }
    rewrite <- HD in Hle.
    destruct (cond_Zopp sx (Zpos X) + Zpos Y) as [| d | d] eqn:ED;
      cbn [binary_normalize].
    + cbn. split; [reflexivity | lia].
    + destruct h as [sh | sh | | sh mh eh]; try discriminate;
        cbn [SFval valid_binary cond_Zopp] in *; [lia |].
      pose proof (proj1 (bounded_facts _ _ Vh)) as Heh.
      pose proof (pow2_pos (eh + 1074) ltac:(lia)) as Hph.
      destruct sh; cbn [cond_Zopp] in Hle |- *; [lia |].
      destruct (binary_round_not_above d mh ez eh ltac:(lia) Vh Hle)
        as (p' & e' & -> & Hle').
      split; [reflexivity | exact Hle'].
    + rewrite binary_round_opp.
      assert (Hsx : sx = true).
      { destruct sx; [reflexivity |]. cbn [cond_Zopp] in ED. lia. }
      subst sx. cbn [cond_Zopp] in *.
      destruct (binary_round_not_above d mx ez ex ltac:(lia) Vx)
        as (p' & e' & Er & Hle').
      { rewrite <- Hx. apply Z.mul_le_mono_nonneg_r; lia. }
      rewrite Er. cbn [SFopp negb sf_finite SFval cond_Zopp].
      split; [reflexivity |].
      destruct (binary_round_facts d ez ltac:(lia)) as (_ & _ & _ & _ & H4).
      destruct (H4 _ _ _ Er) as (_ & Hlo & _). cbn [SFval cond_Zopp] in Hlo.
      destruct h as [sh | sh | | sh mh eh]; try discriminate;
        cbn [SFval valid_binary cond_Zopp] in *; [lia |].
      pose proof (proj1 (bounded_facts _ _ Vh)) as Heh.
      pose proof (pow2_pos (eh + 1074) ltac:(lia)) as Hph.
      destruct sh; cbn [cond_Zopp] in Hle |- *; [| lia].
      destruct (binary_round_not_below d mh ez eh ltac:(lia) Vh)
        as [Einf | (p'' & e'' & Er' & Hge)].
      { change (Zneg d) with (- Zpos d) in Hle. lia. }
      * congruence.
      * rewrite Er in Er'. injection Er' as <- <-. lia.
Qed.

Lemma binary64_add_not_above (x t h : float) :
  finite x = true -> finite t = true -> finite h = true ->
  sf_nonneg (Prim2SF t) ->
  value x + value t <= value h ->
  PrimFloat.leb (x + t) h = true.
Proof.
  intros Hx Ht Hh Hnn Hle. unfold finite, value in *.
  destruct (SFadd_not_above (Prim2SF x) (Prim2SF t) (Prim2SF h))
    as [F V]; auto using Prim2SF_valid.
  rewrite <- add_spec in F, V.
  apply binary64_leb_val; assumption.
Qed.

Lemma centre_algebra (K H gs row W D S T : Z) :
  0 < H -> 1 <= gs -> 12 * gs <= K -> 0 <= row < gs ->
  16 * (gs * gs) <= W -> 0 <= D -> 0 <= S -> 0 <= T ->
  K * D <= (K + 1) * W ->
  (K - 1) * S * (gs * (2 * H)) <= K * (D * (2 * H)) + K * (gs * (2 * H)) ->
  (K - 1) * T * (2 * H) <= K * ((row * (2 * H) + H) * S) + K * (2 * H) ->
  T <= W.
Proof.
  intros HH Hgs HK Hrow HW HD HS HT E1 E2 E3.
  assert (HK1 : 0 < K - 1) by lia.
  assert (HKK : 0 < K * K) by (apply Z.mul_pos_pos; lia).
  assert (Hgg : 0 < gs * gs) by (apply Z.mul_pos_pos; lia).
  assert (HKg : 0 <= K * (2 * gs - 1)) by (apply Z.mul_nonneg_nonneg; lia).
  assert (HKKgg : 0 <= K * K * (gs * gs)) by (apply Z.mul_nonneg_nonneg; lia).
  assert (HK1g : 0 < (K - 1) * gs) by (apply Z.mul_pos_pos; lia).
  assert (Hpos : 0 < 2 * ((K - 1) * (K - 1)) * gs).
  { apply Z.mul_pos_pos; [| lia]. apply Z.mul_pos_pos; [lia |].
    apply Z.mul_pos_pos; lia. }
  assert (HK6 : K * K <= 2 * (K * (K - 6 * gs))).
  { replace (2 * (K * (K - 6 * gs))) with (K * (2 * (K - 6 * gs))) by ring.
    apply Z.mul_le_mono_nonneg_l; lia. }
  assert (Hg1 : gs <= gs * gs).
  { replace gs with (gs * 1) at 1 by ring. apply Z.mul_le_mono_nonneg_l; lia. }
  assert (Ee : K * K * (2 * gs - 1) * gs + 2 * K * (K - 1) * gs <=
               4 * (K * K) * (gs * gs)).
  { assert (K * K * gs <= K * K * (gs * gs))
      by (apply Z.mul_le_mono_nonneg_l; lia).
    assert (0 <= K * gs) by (apply Z.mul_nonneg_nonneg; lia).
    replace (K * K * (2 * gs - 1) * gs + 2 * K * (K - 1) * gs)
      with (2 * (K * K * (gs * gs)) + K * K * gs - 2 * (K * gs)) by ring.
    lia. }
  assert (Eg : K * (K + 1) * (2 * gs - 1) + K * (K - 6 * gs) <=
               2 * ((K - 1) * (K - 1)) * gs).
  { assert (2 * ((K - 1) * (K - 1)) * gs -
            (K * (K + 1) * (2 * gs - 1) + K * (K - 6 * gs)) = K + 2 * gs) by ring.
    lia. }
  assert (E2' : (K - 1) * S * gs <= K * D + K * gs).
  { apply Z.mul_le_mono_pos_r with (2 * H); [lia |].
    replace ((K - 1) * S * gs * (2 * H)) with ((K - 1) * S * (gs * (2 * H))) by ring.
    replace ((K * D + K * gs) * (2 * H))
      with (K * (D * (2 * H)) + K * (gs * (2 * H))) by ring.
    exact E2. }
  assert (E3' : 2 * (K - 1) * T <= K * (2 * row + 1) * S + 2 * K).
  { apply Z.mul_le_mono_pos_r with H; [lia |].
    replace (2 * (K - 1) * T * H) with ((K - 1) * T * (2 * H)) by ring.
    replace ((K * (2 * row + 1) * S + 2 * K) * H)
      with (K * ((row * (2 * H) + H) * S) + K * (2 * H)) by ring.
    exact E3. }
  clear E2 E3.
  assert (E3'' : 2 * (K - 1) * T <= K * (2 * gs - 1) * S + 2 * K).
  { apply Z.le_trans with (K * (2 * row + 1) * S + 2 * K); [exact E3' |].
    apply Z.add_le_mono_r. apply Z.mul_le_mono_nonneg_r; [lia |].
    apply Z.mul_le_mono_nonneg_l; lia. }
  assert (Ea : 2 * (K - 1) * T * ((K - 1) * gs) <=
               (K * (2 * gs - 1) * S + 2 * K) * ((K - 1) * gs))
    by (apply Z.mul_le_mono_nonneg_r; [lia | exact E3'']).
  assert (Eb : K * (2 * gs - 1) * ((K - 1) * S * gs) <=
               K * (2 * gs - 1) * (K * D + K * gs))
    by (apply Z.mul_le_mono_nonneg_l; [lia | exact E2']).
  assert (Ec : K * (2 * gs - 1) * (K * D) <= K * (2 * gs - 1) * ((K + 1) * W))
    by (apply Z.mul_le_mono_nonneg_l; [lia | exact E1]).
  assert (Ef : K * K * (16 * (gs * gs)) <= 2 * (K * (K - 6 * gs)) * W).
  { apply Z.le_trans with (K * K * W).
    - apply Z.mul_le_mono_nonneg_l; lia.
    - apply Z.mul_le_mono_nonneg_r; lia. }
  assert (Eg' : (K * (K + 1) * (2 * gs - 1) + K * (K - 6 * gs)) * W <=
                2 * ((K - 1) * (K - 1)) * gs * W)
    by (apply Z.mul_le_mono_nonneg_r; lia).
  assert (Eh : 2 * ((K - 1) * (K - 1)) * gs * T <=
               2 * ((K - 1) * (K - 1)) * gs * W).
  { replace (2 * ((K - 1) * (K - 1)) * gs * T)
      with (2 * (K - 1) * T * ((K - 1) * gs)) by ring.
    apply Z.le_trans with ((K * (2 * gs - 1) * S + 2 * K) * ((K - 1) * gs));
      [exact Ea |].
    replace ((K * (2 * gs - 1) * S + 2 * K) * ((K - 1) * gs))
      with (K * (2 * gs - 1) * ((K - 1) * S * gs) + 2 * K * (K - 1) * gs) by ring.
    apply Z.le_trans with (K * (2 * gs - 1) * (K * D + K * gs) +
                           2 * K * (K - 1) * gs); [lia |].
    replace (K * (2 * gs - 1) * (K * D + K * gs) + 2 * K * (K - 1) * gs)
      with (K * (2 * gs - 1) * (K * D) +
            (K * K * (2 * gs - 1) * gs + 2 * K * (K - 1) * gs)) by ring.
    apply Z.le_trans with (K * (2 * gs - 1) * ((K + 1) * W) +
                           4 * (K * K) * (gs * gs)); [lia |].
    apply Z.le_trans with ((K * (K + 1) * (2 * gs - 1) + K * (K - 6 * gs)) * W);
      [| exact Eg'].
    replace ((K * (K + 1) * (2 * gs - 1) + K * (K - 6 * gs)) * W)
      with (K * (2 * gs - 1) * ((K + 1) * W) + K * (K - 6 * gs) * W) by ring.
    apply Z.add_le_mono_l.
    replace (2 * (K * (K - 6 * gs)) * W) with (2 * (K * (K - 6 * gs) * W)) in Ef
      by ring.
    replace (K * K * (16 * (gs * gs))) with (2 * (8 * (K * K * (gs * gs)))) in Ef
      by ring.
    replace (4 * (K * K) * (gs * gs)) with (4 * (K * K * (gs * gs))) by ring.
    lia. }
  apply Z.mul_le_mono_pos_l in Eh; assumption.
Qed.

(** On one side of the box, when the side is at least [16 * grid_size^2]
    units of [2^-1074] long and [grid_size] is at most [2^48]: the centre of
    a cell is not above the upper bound. *)
Lemma binary64_centre_not_above (lo hi step : float) (gs row : Z)
    (frow : float) :
  finite lo = true -> finite hi = true ->
  1 <= gs <= 2 ^ 48 ->
  16 * (gs * gs) <= value hi - value lo <= 2 ^ 2075 ->
  grid_step lo hi gs = Return step ->
  0 <= row < gs -> Binary64.of_int row = Some frow ->
  PrimFloat.leb (lo + (frow + 0x1p-1) * step) hi = true.
Proof.
  intros Hlo Hhi Hgs Hbox Hstep Hrow Hf.
  assert (H2075 : 2 ^ 2075 < 2 ^ 2096) by (apply Z.pow_lt_mono_r; lia).
  assert (Hgg : 1 <= gs * gs) by nia.
  assert (H48 : 2 ^ 48 < 2 ^ 52) by reflexivity.
  (* the divisor *)
  destruct (binary64_of_int_exact gs) as (y & Ey & _ & _ & Yval).
  { split; [lia |]. apply Z.le_lt_trans with (2 ^ 48); [lia | reflexivity]. }
  destruct (binary64_of_int_bounds gs y ltac:(lia) Ey) as (my & ey & Py & Vy & _).
  unfold value in Yval. rewrite Py in Yval. cbn [SFval cond_Zopp] in Yval.
  (* the difference *)
  destruct (binary64_sub_bounds hi lo Hhi Hlo ltac:(lia) ltac:(lia))
    as (FD & ND & LD & UD).
  pose proof (binary64_sub_upper hi lo Hhi Hlo ltac:(lia) ltac:(lia)) as E1.
  pose proof (Prim2SF_valid (hi - lo)) as VD.
  unfold finite in FD. unfold value at 3 in LD. unfold value at 1 in UD.
  unfold value at 1 in E1.
  destruct (Prim2SF (hi - lo)) as [sd | sd | | sd md ed] eqn:Ed;
    try discriminate; cbn [SFval sf_nonneg valid_binary] in *; [lia |].
  subst sd. cbn [cond_Zopp] in *.
  (* the step *)
  unfold grid_step, f_neb in Hstep.
  rewrite (binary64_eqb_val hi lo Hhi Hlo) in Hstep.
  destruct (Z.eqb_spec (value hi) (value lo)) as [Eq | Hne]; [lia |].
  cbn [negb] in Hstep. unfold truediv_int, truediv in Hstep.
  cbn [f_of_int f_eqb f_zero f_div f_sub Binary64.num] in Hstep.
  rewrite Ey in Hstep.
  destruct (PrimFloat.eqb y 0) eqn:Ey0; [discriminate |].
  injection Hstep as Hstep.
  assert (Ps : Prim2SF step =
               SF64div (S754_finite false md ed) (S754_finite false my ey)).
  { rewrite <- Hstep, div_spec, Ed, Py. reflexivity. }
  pose proof (Prim2SF_valid step) as Vs.
  destruct (SFdiv_facts md my ed ey VD Vy) as (Ns & _ & Fs & _).
  pose proof (proj1 (bounded_facts _ _ VD)) as Hed.
  pose proof (proj1 (bounded_facts _ _ Vy)) as Hey.
  pose proof (pow2_pos 1073 ltac:(lia)) as HH.
  assert (HU : 2 ^ 1074 = 2 * 2 ^ 1073) by reflexivity.
  assert (Fstep : sf_finite
            (SF64div (S754_finite false md ed) (S754_finite false my ey)) = true).
  { apply Fs. apply (magnitude_of_ratio md my ed ey 1022); lia. }
  (* the row and one half *)
  destruct (binary64_half_more_exact row frow) as (ma & ea & Pa & Va & Hea & Aval).
  { lia. } { exact Hf. }
  pose proof (proj1 (bounded_facts _ _ Va)) as Hea'.
  assert (Pt : Prim2SF ((frow + 0x1p-1) * step) =
               SF64mul (S754_finite false ma ea) (Prim2SF step)).
  { rewrite mul_spec, Pa. reflexivity. }
  pose proof (Prim2SF_valid ((frow + 0x1p-1) * step)) as Vt.
  assert (Ht : finite ((frow + 0x1p-1) * step) = true /\
               sf_nonneg (Prim2SF ((frow + 0x1p-1) * step)) /\
               value ((frow + 0x1p-1) * step) <= value hi - value lo);
    [| destruct Ht as (T1 & T2 & T3);
       apply binary64_add_not_above; auto; lia].
  unfold finite, value at 1. rewrite Pt in *. rewrite Ps in *.
  destruct (SF64div (S754_finite false md ed) (S754_finite false my ey))
    as [sq | sq | | sq ps es] eqn:Es; try discriminate.
  - (* the step is zero *)
    cbn. repeat split; auto. lia.
  - cbn [sf_nonneg valid_binary] in Ns, Vs. subst sq.
    pose proof (SFdiv_upper md my ps ed ey es false VD Vy Es Vs) as E2.
    pose proof (proj1 (bounded_facts _ _ Vs)) as Hes.
    pose proof (pow2_pos (es + 1074) ltac:(lia)) as HpS.
    rewrite Yval in E2.
    set (D := Zpos md * 2 ^ (ed + 1074)) in *.
    set (S := Zpos ps * 2 ^ (es + 1074)) in *.
    set (A := Zpos ma * 2 ^ (ea + 1074)) in *.
    assert (HS : 0 <= S) by (unfold S; apply Z.mul_nonneg_nonneg; lia).
    assert (HD : 0 <= D) by lia.
    set (W := value hi - value lo) in *.
    rewrite HU in E2, Aval.
    set (H := 2 ^ 1073) in *.
    set (K := 2 ^ 52) in *.
    assert (HK : 12 * gs <= K) by (unfold K; change (2 ^ 52) with (16 * 2 ^ 48); lia).
    (* the product is a number *)
    assert (HSg : S * gs <= 2 * (D + gs)).
    { assert (E2' : (K - 1) * S * gs <= K * D + K * gs).
      { apply Z.mul_le_mono_pos_r with (2 * H); [lia |].
        replace ((K - 1) * S * gs * (2 * H))
          with ((K - 1) * S * (gs * (2 * H))) by ring.
        replace ((K * D + K * gs) * (2 * H))
          with (K * (D * (2 * H)) + K * (gs * (2 * H))) by ring.
        exact E2. }
      assert (0 <= S * gs) by (apply Z.mul_nonneg_nonneg; lia).
      assert (HK2 : K * (S * gs) <= 2 * ((K - 1) * S * gs)).
      { replace (2 * ((K - 1) * S * gs)) with ((2 * (K - 1)) * (S * gs)) by ring.
        apply Z.mul_le_mono_nonneg_r; lia. }
      assert (HK3 : K * (S * gs) <= K * (2 * (D + gs))) by lia.
      apply Z.mul_le_mono_pos_l in HK3; lia. }
    assert (Hfin : sf_finite (SF64mul (S754_finite false ma ea)
                                (S754_finite false ps es)) = true).
    { apply SFmul_finite; auto. fold A S.
      assert (HA : A <= gs * (2 * H)).
      { assert (row * (2 * H) <= (gs - 1) * (2 * H))
          by (apply Z.mul_le_mono_nonneg_r; lia).
        lia. }
      apply Z.le_lt_trans with (gs * (2 * H) * S).
      - apply Z.mul_le_mono_nonneg_r; lia.
      - replace (gs * (2 * H) * S) with (2 * H * (S * gs)) by ring.
        apply Z.le_lt_trans with (2 * H * (2 * (D + gs))).
        + apply Z.mul_le_mono_nonneg_l; lia.
        + change (2 ^ 3170) with (2 * H * 2 ^ 2096).
          apply Z.mul_lt_mono_pos_l; [lia |].
          assert (2 ^ 2075 + 2 ^ 2075 + 2 ^ 48 < 2 ^ 2095) by reflexivity.
          change (2 ^ 2096) with (2 * 2 ^ 2095). lia. }
    destruct (SF64mul (S754_finite false ma ea) (S754_finite false ps es))
      as [st | st | | st pt et] eqn:Et; try discriminate.
    + cbn. repeat split; auto. lia.
    + cbn [valid_binary] in Vt.
      assert (Hst : st = false).
      { pose proof (binary_round_aux_nonneg (Zpos (ma * ps)) (ea + es) loc_Exact)
          as N. unfold SF64mul, SFmul in Et. cbn [xorb] in Et.
        rewrite Et in N. exact N. }
      subst st.
      pose proof (SFmul_upper ma ps pt ea es et false Hea' Hes Et Vt) as E3.
      fold A S in E3. rewrite HU, Aval in E3. fold K H in E3.
      pose proof (proj1 (bounded_facts _ _ Vt)) as Het.
      pose proof (pow2_pos (et + 1074) ltac:(lia)) as HpT.
      cbn [sf_finite sf_nonneg SFval cond_Zopp].
      set (T := Zpos pt * 2 ^ (et + 1074)) in *.
      assert (HT : 0 <= T) by (unfold T; apply Z.mul_nonneg_nonneg; lia).
      pose proof (centre_algebra K H gs row W D S T HH ltac:(lia) HK Hrow
                    ltac:(lia) HD HS HT E1 E2 E3) as HTW.
      repeat split; auto.
Qed.

(** C10, as the code has it. For places with finite coordinates and a
    positive [grid_size], the centre of every hotspot of a report is at or
    above the lower bounds of the bounding box: [min_lat <= center_lat] and
    [min_lng <= center_lng]. It is at or below an upper bound,
    [center_lat <= max_lat] or [center_lng <= max_lng], when [grid_size] is
    at most [2^48] and that side of the box is at least
    [16 * grid_size^2 * 2^-1074] and at most [2^1001] long. *)
Theorem binary64_centroid_within_box (ps : list (place float)) (gs : Z)
    (r : report float) :
  (forall q, In q ps -> finite (lat q) = true /\ finite (lng q) = true) ->
  1 <= gs ->
  analyze_density api (PlaceList ps) gs = ReportDict r ->
  exists g,
    make_grid ps gs = Return g /\
    forall h, In h (hotspots r) ->
      PrimFloat.leb (min_lat g) (center_lat h) = true /\
      PrimFloat.leb (min_lng g) (center_lng h) = true /\
      (gs <= 2 ^ 48 ->
       16 * (gs * gs) <= value (max_lat g) - value (min_lat g) <= 2 ^ 2075 ->
       PrimFloat.leb (center_lat h) (max_lat g) = true) /\
      (gs <= 2 ^ 48 ->
       16 * (gs * gs) <= value (max_lng g) - value (min_lng g) <= 2 ^ 2075 ->
       PrimFloat.leb (center_lng h) (max_lng g) = true).
Proof.
  intros Hfin Hgs H. apply analyze_density_report in H as [Hne H].
  apply analyze_body_return in H as (g & keys & details & H).
  destruct H as (Hg & Hkeys & _ & Hd & ->). cbn [hotspots].
  exists g. split; [exact Hg |]. intros h Hh.
  destruct (hotspot_cell api ps gs g keys details h Hkeys Hd Hh)
    as (row & col & frow & fcol & _ & (p & Hp & Hbins) & Er & Ec & -> & ->).
  destruct (binary64_place_bins_range ps gs g p row col Hfin Hgs Hg Hp Hbins)
    as [Hrow Hcol].
  assert (Hlats : Forall (fun y => finite y = true) (map lat ps)).
  { apply Forall_forall. intros y Hy. apply in_map_iff in Hy as (q & <- & Hq).
    apply Hfin. exact Hq. }
  assert (Hlngs : Forall (fun y => finite y = true) (map lng ps)).
  { apply Forall_forall. intros y Hy. apply in_map_iff in Hy as (q & <- & Hq).
    apply Hfin. exact Hq. }
  unfold place_bins in Hbins.
  apply bind_return in Hbins as (lat_bin & B1 & Hbins).
  apply bind_return in Hbins as (lng_bin & B2 & [= <- <-]).
  unfold make_grid in Hg.
  apply bind_return in Hg as (lo_lat & E1 & Hg).
  apply bind_return in Hg as (hi_lat & E2 & Hg).
  apply bind_return in Hg as (lo_lng & E3 & Hg).
  apply bind_return in Hg as (hi_lng & E4 & Hg).
  apply bind_return in Hg as (step_lat & E5 & Hg).
  apply bind_return in Hg as (step_lng & E6 & Hg).
  injection Hg as <-.
  cbn [min_lat max_lat min_lng max_lng lat_step lng_step] in *.
  destruct (binary64_py_min _ _ Hlats E1) as [F1 L1].
  destruct (binary64_py_max _ _ Hlats E2) as [F2 L2].
  destruct (binary64_py_min _ _ Hlngs E3) as [F3 L3].
  destruct (binary64_py_max _ _ Hlngs E4) as [F4 L4].
  pose proof (in_map lat _ _ Hp) as Hplat.
  pose proof (in_map lng _ _ Hp) as Hplng.
  cbn [f_add f_mul f_half f_of_int Binary64.num] in *.
  split; [| split; [| split]].
  - apply (binary64_centre_not_below lo_lat hi_lat step_lat (lat p) gs lat_bin);
      auto; try lia.
    specialize (L1 _ Hplat). specialize (L2 _ Hplat). lia.
  - apply (binary64_centre_not_below lo_lng hi_lng step_lng (lng p) gs lng_bin);
      auto; try lia.
    specialize (L3 _ Hplng). specialize (L4 _ Hplng). lia.
  - intros Hgs' Hside.
    apply (binary64_centre_not_above lo_lat hi_lat step_lat gs
             (clamp lat_bin gs) frow); auto; lia.
  - intros Hgs' Hside.
    apply (binary64_centre_not_above lo_lng hi_lng step_lng gs
             (clamp lng_bin gs) fcol); auto; lia.
Qed.

End Binary64Centres.

(** * The order of the places *)

Section OrderOfPlaces.

Implicit Types (keys : list string) (k : string) (c : Z).

Lemma tally_in_iff keys k c :
  In (k, c) (tally keys []) <-> In k keys /\ c = occurrences k keys.
Proof.
  split.
  - intros H. split; [| apply tally_count; exact H].
    apply (in_map fst) in H. apply tally_keys_in in H as [[] | H]. exact H.
  - intros [Hk ->].
    assert (Hin : In k (map fst (tally keys []))) by (apply tally_keys_in; auto).
    apply in_map_iff in Hin as ([k' c'] & E & Hin). simpl in E. subst k'.
    rewrite <- (tally_count _ _ _ Hin). exact Hin.
Qed.

(** The cells and their counts do not depend on the order of the scan. *)
Lemma tally_perm keys keys' :
  Permutation keys keys' -> Permutation (tally keys []) (tally keys' []).
Proof.
  intros HP. apply NoDup_Permutation.
  - apply (NoDup_map_inv fst). apply tally_nodup. constructor.
  - apply (NoDup_map_inv fst). apply tally_nodup. constructor.
  - intros [k c]. rewrite !tally_in_iff. unfold occurrences.
    rewrite (proj1 (Permutation_count_occ string_dec keys keys') HP k).
    split; intros [Hk Hc]; (split; [| exact Hc]).
    + eapply Permutation_in; eauto.
    + eapply Permutation_in; [symmetry |]; eauto.
Qed.

(** Two lists of numbers in non-increasing order with the same items are
    the same list. *)
Lemma sorted_perm_eq (l : list Z) : forall l',
  StronglySorted (fun a b => b <= a) l ->
  StronglySorted (fun a b => b <= a) l' ->
  Permutation l l' -> l = l'.
Proof.
  induction l as [| a l IH]; intros l' S S' HP.
  - apply Permutation_nil in HP. congruence.
  - destruct l' as [| a' l'];
      [apply Permutation_sym, Permutation_nil in HP; discriminate |].
    inversion S as [| ? ? Sl Ha]; subst. inversion S' as [| ? ? Sl' Ha']; subst.
    rewrite Forall_forall in Ha, Ha'.
    assert (E : a = a').
    { assert (H1 : In a (a' :: l')) by (eapply Permutation_in; [exact HP | left; reflexivity]).
      assert (H2 : In a' (a :: l))
        by (eapply Permutation_in; [symmetry; exact HP | left; reflexivity]).
      destruct H1 as [-> | H1]; [reflexivity |].
      destruct H2 as [-> | H2]; [reflexivity |].
      specialize (Ha _ H2). specialize (Ha' _ H1). lia. }
    subst a'. f_equal. apply IH; auto.
    eapply Permutation_cons_inv; eauto.
Qed.

Lemma sorted_counts_perm (d d' : dict) :
  Permutation d d' ->
  map snd (sorted_desc d) = map snd (sorted_desc d').
Proof.
  intros HP.
  assert (Hs : forall l : dict,
            StronglySorted (fun a b => b <= a) (map snd (sorted_desc l))).
  { intros l. pose proof (sorted_desc_sorted l) as H.
    induction H as [| x t Ht IH Hx]; simpl; constructor; [exact IH |].
    rewrite Forall_forall in *. intros c Hc.
    apply in_map_iff in Hc as (y & <- & Hy). apply (Hx y Hy). }
  apply sorted_perm_eq; auto.
  apply Permutation_map.
  rewrite (sorted_desc_perm d), (sorted_desc_perm d'). exact HP.
Qed.

End OrderOfPlaces.

Lemma mapM_return_map {A B : Type} (f : A -> outcome B) (d : B) (l : list A)
    (l' : list B) :
  mapM f l = Return l' ->
  l' = map (fun x => match f x with Return y => y | Raise _ => d end) l.
Proof.
  intros H. apply mapM_return in H.
  induction H as [| x y l l' Hxy _ IH]; simpl; [reflexivity |].
  rewrite Hxy, <- IH. reflexivity.
Qed.

Section Binary64Order.

Import Binary64.

Variable api : float -> float -> geocode_response.

(** Two numbers that compare equal are the same float, or two zeros. *)
Lemma binary64_eqb_cases (x y : float) :
  finite x = true -> finite y = true -> PrimFloat.eqb x y = true ->
  x = y \/
  exists s s', Prim2SF x = S754_zero s /\ Prim2SF y = S754_zero s'.
Proof.
  unfold finite. rewrite eqb_spec. unfold SFeqb. intros Hx Hy H.
  destruct (Prim2SF x) as [sx | sx | | sx mx ex] eqn:Ex; try discriminate;
    destruct (Prim2SF y) as [sy | sy | | sy my ey] eqn:Ey; try discriminate.
  - right. eauto.
  - destruct sy; discriminate.
  - destruct sx; discriminate.
  - left. apply Prim2SF_inj. rewrite Ex, Ey. cbn [SFcompare] in H.
    destruct sx, sy; try discriminate;
      destruct (Z.compare_spec ex ey) as [-> | |]; try discriminate;
      change (Pos.compare_cont Eq mx my) with (Pos.compare mx my) in H;
      destruct (Pos.compare_spec mx my) as [-> | |]; try discriminate;
      reflexivity.
Qed.

Lemma binary64_eqb_same (x : float) :
  finite x = true -> PrimFloat.eqb x x = true.
Proof. intros H. apply (binary64_ordinary x H). Qed.

(** The difference does not change when its terms are replaced by numbers
    that compare equal, unless it is a zero: then the terms are equal and
    only its sign can change. *)
Lemma binary64_sub_same (x x' y y' : float) :
  finite x = true -> finite x' = true -> finite y = true -> finite y' = true ->
  PrimFloat.eqb x x' = true -> PrimFloat.eqb y y' = true ->
  (x - y = x' - y')%float \/
  (PrimFloat.eqb x y = true /\
   exists s s', Prim2SF (x - y) = S754_zero s /\
                Prim2SF (x' - y') = S754_zero s').
Proof.
  intros Fx Fx' Fy Fy' Ex Ey.
  destruct (binary64_eqb_cases x x' Fx Fx' Ex) as [<- | (sx & sx' & Px & Px')];
    destruct (binary64_eqb_cases y y' Fy Fy' Ey) as [<- | (sy & sy' & Py & Py')].
  - left. reflexivity.
  - unfold finite in Fx. rewrite eqb_spec, !sub_spec, Py, Py'.
    destruct (Prim2SF x) as [s | s | | s m e] eqn:Px; try discriminate.
    + right. split; [reflexivity |]. unfold SF64sub, SFsub.
      destruct s, sy, sy'; eauto.
    + left. apply Prim2SF_inj. rewrite !sub_spec, Px, Py, Py'. reflexivity.
  - unfold finite in Fy. rewrite eqb_spec, !sub_spec, Px, Px'.
    destruct (Prim2SF y) as [s | s | | s m e] eqn:Py; try discriminate.
    + right. split; [reflexivity |]. unfold SF64sub, SFsub.
      destruct s, sx, sx'; eauto.
    + left. apply Prim2SF_inj. rewrite !sub_spec, Px, Px', Py. reflexivity.
  - right. rewrite eqb_spec, !sub_spec, Px, Px', Py, Py'.
    split; [reflexivity |]. unfold SF64sub, SFsub.
    destruct sx, sx', sy, sy'; eauto.
Qed.

(** [int(a / step)] does not depend on the sign of a zero [a]. *)
Lemma binary64_trunc_div_same (a a' step : float) :
  a = a' \/
  (exists s s', Prim2SF a = S754_zero s /\ Prim2SF a' = S754_zero s') ->
  Binary64.trunc (a / step) = Binary64.trunc (a' / step).
Proof.
  intros [-> | (s & s' & Pa & Pa')]; [reflexivity |].
  unfold Binary64.trunc. rewrite !div_spec, Pa, Pa'.
  destruct (Prim2SF step); reflexivity.
Qed.

(** The bin of a coordinate does not change when the lower bound is
    replaced by a number that compares equal. *)
Lemma binary64_bin_of_same (x lo lo' step : float) :
  finite x = true -> finite lo = true -> finite lo' = true ->
  PrimFloat.eqb lo lo' = true ->
  bin_of x lo' step = bin_of x lo step.
Proof.
  intros Fx Fl Fl' E. unfold bin_of, truediv.
  cbn [f_eqb f_zero f_div f_sub f_trunc Binary64.num].
  destruct (f_neb step 0%float); [| reflexivity].
  destruct (PrimFloat.eqb step 0); cbn [bind]; [reflexivity |].
  symmetry. apply binary64_trunc_div_same.
  destruct (binary64_sub_same x x lo lo' Fx Fx Fl Fl'
              (binary64_eqb_same x Fx) E) as [H | [_ H]]; auto.
Qed.

(** The step does not change when the bounds are replaced by numbers that
    compare equal. *)
Lemma binary64_grid_step_same (lo lo' hi hi' : float) (gs : Z) :
  finite lo = true -> finite lo' = true ->
  finite hi = true -> finite hi' = true ->
  PrimFloat.eqb lo lo' = true -> PrimFloat.eqb hi hi' = true ->
  grid_step lo' hi' gs = grid_step lo hi gs.
Proof.
  intros Fl Fl' Fh Fh' El Eh. unfold grid_step, f_neb.
  pose proof El as Vl. pose proof Eh as Vh.
  change (PrimFloat.eqb lo lo') with (f_eqb lo lo') in Vl.
  change (PrimFloat.eqb hi hi') with (f_eqb hi hi') in Vh.
  rewrite binary64_eqb_val in Vl, Vh by assumption.
  apply Z.eqb_eq in Vl, Vh.
  rewrite !binary64_eqb_val by assumption. rewrite <- Vl, <- Vh.
  destruct (binary64_sub_same hi hi' lo lo' Fh Fh' Fl Fl' Eh El)
    as [H | [H _]].
  - cbn [f_sub Binary64.num]. rewrite H. reflexivity.
  - change (PrimFloat.eqb hi lo) with (f_eqb hi lo) in H.
    rewrite binary64_eqb_val in H by assumption. rewrite H. reflexivity.
Qed.

(** The smallest and the largest item of a list of numbers do not depend on
    its order, up to the sign of a zero. *)
Lemma binary64_py_min_perm (l l' : list float) (m m' : float) :
  Forall (fun y => finite y = true) l -> Permutation l l' ->
  py_min l = Return m -> py_min l' = Return m' ->
  finite m = true /\ finite m' = true /\ PrimFloat.eqb m m' = true.
Proof.
  intros Hl HP E E'.
  assert (Hl' : Forall (fun y => finite y = true) l')
    by (eapply Permutation_Forall; eauto).
  destruct (binary64_py_min l m Hl E) as [F L].
  destruct (binary64_py_min l' m' Hl' E') as [F' L'].
  split; [exact F |]. split; [exact F' |].
  change (PrimFloat.eqb m m') with (f_eqb m m').
  rewrite binary64_eqb_val by assumption. apply Z.eqb_eq.
  pose proof (L _ (Permutation_in _ (Permutation_sym HP) (py_min_in _ _ E'))).
  pose proof (L' _ (Permutation_in _ HP (py_min_in _ _ E))).
  lia.
Qed.

Lemma binary64_py_max_perm (l l' : list float) (m m' : float) :
  Forall (fun y => finite y = true) l -> Permutation l l' ->
  py_max l = Return m -> py_max l' = Return m' ->
  finite m = true /\ finite m' = true /\ PrimFloat.eqb m m' = true.
Proof.
  intros Hl HP E E'.
  assert (Hl' : Forall (fun y => finite y = true) l')
    by (eapply Permutation_Forall; eauto).
  destruct (binary64_py_max l m Hl E) as [F L].
  destruct (binary64_py_max l' m' Hl' E') as [F' L'].
  split; [exact F |]. split; [exact F' |].
  change (PrimFloat.eqb m m') with (f_eqb m m').
  rewrite binary64_eqb_val by assumption. apply Z.eqb_eq.
  pose proof (L _ (Permutation_in _ (Permutation_sym HP) (py_max_in _ _ E'))).
  pose proof (L' _ (Permutation_in _ HP (py_max_in _ _ E))).
  lia.
Qed.

(** The grid of a permutation of the places: the same steps, bounds that
    compare equal, and the same bins for every place. *)
Lemma binary64_make_grid_perm (ps ps' : list (place float)) (gs : Z)
    (g : grid float) :
  (forall q, In q ps -> finite (lat q) = true /\ finite (lng q) = true) ->
  Permutation ps ps' ->
  make_grid ps gs = Return g ->
  exists g',
    make_grid ps' gs = Return g' /\
    forall p, In p ps -> place_bins g' gs p = place_bins g gs p.
Proof.
  intros Hfin HP Hg.
  assert (Hlats : Forall (fun y => finite y = true) (map lat ps)).
  { apply Forall_forall. intros y Hy. apply in_map_iff in Hy as (q & <- & Hq).
    apply Hfin. exact Hq. }
  assert (Hlngs : Forall (fun y => finite y = true) (map lng ps)).
  { apply Forall_forall. intros y Hy. apply in_map_iff in Hy as (q & <- & Hq).
    apply Hfin. exact Hq. }
  unfold make_grid in Hg.
  apply bind_return in Hg as (lo_lat & E1 & Hg).
  apply bind_return in Hg as (hi_lat & E2 & Hg).
  apply bind_return in Hg as (lo_lng & E3 & Hg).
  apply bind_return in Hg as (hi_lng & E4 & Hg).
  apply bind_return in Hg as (step_lat & E5 & Hg).
  apply bind_return in Hg as (step_lng & E6 & [= <-]).
  assert (Hne' : forall f : place float -> float, map f ps' <> []).
  { intros f E. apply map_eq_nil in E. subst ps'.
    apply Permutation_sym, Permutation_nil in HP. subst ps. discriminate. }
  destruct (py_min_total _ (Hne' lat)) as [lo_lat' E1'].
  destruct (py_max_total _ (Hne' lat)) as [hi_lat' E2'].
  destruct (py_min_total _ (Hne' lng)) as [lo_lng' E3'].
  destruct (py_max_total _ (Hne' lng)) as [hi_lng' E4'].
  destruct (binary64_py_min_perm _ _ _ _ Hlats (Permutation_map lat HP) E1 E1')
    as (F1 & F1' & Q1).
  destruct (binary64_py_max_perm _ _ _ _ Hlats (Permutation_map lat HP) E2 E2')
    as (F2 & F2' & Q2).
  destruct (binary64_py_min_perm _ _ _ _ Hlngs (Permutation_map lng HP) E3 E3')
    as (F3 & F3' & Q3).
  destruct (binary64_py_max_perm _ _ _ _ Hlngs (Permutation_map lng HP) E4 E4')
    as (F4 & F4' & Q4).
  exists (mkGrid lo_lat' hi_lat' lo_lng' hi_lng' step_lat step_lng). split.
  - unfold make_grid. rewrite E1', E2', E3', E4'. cbn [bind].
    rewrite (binary64_grid_step_same lo_lat lo_lat' hi_lat hi_lat' gs) by auto.
    rewrite E5. cbn [bind].
    rewrite (binary64_grid_step_same lo_lng lo_lng' hi_lng hi_lng' gs) by auto.
    rewrite E6. reflexivity.
  - intros p Hp. destruct (Hfin p Hp) as [Fp1 Fp2]. unfold place_bins.
    cbn [min_lat min_lng lat_step lng_step].
    rewrite (binary64_bin_of_same (lat p) lo_lat lo_lat') by auto.
    rewrite (binary64_bin_of_same (lng p) lo_lng lo_lng') by auto.
    reflexivity.
Qed.

(** On binary64, for places with finite coordinates and a [grid_size]
    between [-2^1000] and [2^1000], the counts do not depend on the order of
    the places: when the analysis of a list returns a report, the analysis of
    a permutation of the list returns a report too, with the same
    [total_places], the same bins for every place, the same cells with the
    same counts in [grid_counts] (in another order), and hotspots with the
    same counts, one by one. Only which of the cells of equal count is listed
    can change. *)
Theorem binary64_counts_do_not_depend_on_order
    (ps ps' : list (place float)) (gs : Z) (r : report float) :
  (forall q, In q ps -> finite (lat q) = true /\ finite (lng q) = true) ->
  - 2 ^ 1000 < gs <= 2 ^ 1000 ->
  Permutation ps ps' ->
  analyze_density api (PlaceList ps) gs = ReportDict r ->
  exists r' g g' cells cells',
    analyze_density api (PlaceList ps') gs = ReportDict r' /\
    total_places r' = total_places r /\
    map count (hotspots r') = map count (hotspots r) /\
    make_grid ps gs = Return g /\ make_grid ps' gs = Return g' /\
    count_places g gs ps [] = Return cells /\
    count_places g' gs ps' [] = Return cells' /\
    Permutation cells cells' /\
    forall p, In p ps -> place_bins g' gs p = place_bins g gs p.
Proof.
  intros Hfin Hgs HP H. apply analyze_density_report in H as [Hne H].
  apply analyze_body_return in H as (g & keys & details & H).
  destruct H as (Hg & Hkeys & Hcells & Hd & ->).
  assert (Hne' : ps' <> []).
  { intros ->. apply Permutation_sym, Permutation_nil in HP. contradiction. }
  assert (Hin : forall p, In p ps <-> In p ps').
  { intros p. split; apply Permutation_in; [| symmetry]; exact HP. }
  destruct (binary64_make_grid_perm ps ps' gs g Hfin HP Hg)
    as (g' & Hg' & Hbins).
  (* the keys of the permutation are a permutation of the keys *)
  set (kf := fun p => match place_key g gs p with
                      | Return k => k
                      | Raise _ => EmptyString
                      end).
  pose proof (mapM_return_map _ EmptyString _ _ Hkeys) as Ekeys.
  fold kf in Ekeys.
  assert (Hkeys' : mapM (place_key g' gs) ps' = Return (map kf ps')).
  { apply mapM_map. apply Forall_forall. intros p Hp. apply Hin in Hp.
    destruct (Forall2_in_left _ _ _ _ (mapM_return _ _ _ Hkeys) Hp)
      as (k & _ & Hk).
    unfold kf. rewrite Hk. unfold place_key in *. rewrite (Hbins p Hp).
    exact Hk. }
  assert (Hcells' : count_places g' gs ps' [] = Return (tally (map kf ps') [])).
  { rewrite count_places_tally, Hkeys'. reflexivity. }
  assert (Hperm : Permutation (tally keys []) (tally (map kf ps') [])).
  { apply tally_perm. rewrite Ekeys. apply Permutation_map. exact HP. }
  destruct (binary64_body_of_bins api ps' gs g' Hg') as [r' Hr']; [| exact Hgs |].
  { intros p Hp. apply Hin in Hp.
    destruct (Forall2_in_left _ _ _ _ (mapM_return _ _ _ Hkeys) Hp)
      as (k & _ & Hk).
    unfold place_key in Hk. rewrite <- (Hbins p Hp) in Hk.
    apply bind_return in Hk as ([row col] & Hb & _).
    unfold place_bins in Hb.
    apply bind_return in Hb as (b1 & Hb1 & Hb).
    apply bind_return in Hb as (b2 & Hb2 & _). eauto. }
  pose proof Hr' as Hbody'.
  apply analyze_body_return in Hr' as (g'' & keys'' & details' & H').
  destruct H' as (Hg'' & Hkeys'' & _ & Hd' & ->).
  rewrite Hg' in Hg''. injection Hg'' as <-.
  rewrite Hkeys' in Hkeys''. injection Hkeys'' as <-.
  exists (mkReport (List.length ps') gs details'), g, g',
    (tally keys []), (tally (map kf ps') []).
  cbn [total_places hotspots].
  split; [apply analyze_density_of_body; assumption |].
  split; [symmetry; apply Permutation_length; exact HP |].
  split; [| auto 10].
  replace (map count details') with (map snd (map hotspot_item details'))
    by (rewrite map_map; reflexivity).
  replace (map count details) with (map snd (map hotspot_item details))
    by (rewrite map_map; reflexivity).
  rewrite (hotspot_details_items api _ _ _ Hd).
  rewrite (hotspot_details_items api _ _ _ Hd').
  rewrite <- !firstn_map. f_equal. symmetry. apply sorted_counts_perm.
  exact Hperm.
Qed.

End Binary64Order.

(** * [format_address] *)

Section Addresses.

Lemma join_cons (sep x y : string) (l : list string) :
  join sep (x :: y :: l) = (x ++ sep ++ join sep (y :: l))%string.
Proof. reflexivity. Qed.

Lemma string_app_assoc (a b c : string) :
  ((a ++ b) ++ c = a ++ b ++ c)%string.
Proof.
  induction a as [| x a IH]; simpl; [reflexivity | rewrite IH; reflexivity].
Qed.

Lemma join_app (sep : string) (l1 l2 : list string) :
  l1 <> [] -> l2 <> [] ->
  join sep (l1 ++ l2) = (join sep l1 ++ sep ++ join sep l2)%string.
Proof.
  intros H1 H2. induction l1 as [| x l1 IH]; [congruence |].
  destruct l1 as [| y l1].
  - destruct l2 as [| z l2]; [congruence | reflexivity].
  - change ((x :: y :: l1) ++ l2) with (x :: y :: (l1 ++ l2)).
    rewrite !join_cons. change (y :: l1 ++ l2) with ((y :: l1) ++ l2).
    rewrite IH by discriminate. rewrite !string_app_assoc. reflexivity.
Qed.

Lemma prefix_empty (t : string) : prefix "" t = true.
Proof. destruct t; reflexivity. Qed.

Lemma split_from_no_sep (s : string) :
  contains ", " s = false -> split_from ", " 0 s = [s].
Proof.
  induction s as [| c s IH]; [reflexivity |].
  cbn [contains]. intros H. apply orb_false_iff in H as [Hp Hs].
  cbn [split_from]. rewrite Hp, (IH Hs). reflexivity.
Qed.

Lemma split_from_app_sep (s t : string) :
  contains ", " s = false ->
  split_from ", " 0 (s ++ ", " ++ t) = s :: split_from ", " 0 t.
Proof.
  induction s as [| c s IH].
  { intros _. cbn. rewrite prefix_empty. reflexivity. }
  cbn [contains]. intros H. apply orb_false_iff in H as [Hp Hs].
  change ((String c s ++ ", " ++ t)%string) with (String c (s ++ ", " ++ t)).
  cbn [split_from].
  replace (prefix ", " (String c (s ++ ", " ++ t))) with false.
  - rewrite (IH Hs). reflexivity.
  - symmetry. cbn [prefix] in *.
    destruct (ascii_dec "," c) as [E | E]; [| reflexivity].
    destruct s as [| d s]; [reflexivity |].
    cbn [append prefix] in *. destruct (ascii_dec " " d); [| reflexivity].
    rewrite prefix_empty in Hp. discriminate.
Qed.

(** The components of an address can be read back from the formatted
    string: for a list that is not empty and whose components do not contain
    the separator [", "], [format_address(l).split(", ")] is [l]. *)
Theorem format_address_split (l : list string) :
  l <> [] ->
  Forall (fun x => contains ", " x = false) l ->
  py_split ", " (format_address (Some l)) = l.
Proof.
  intros Hne Hl. unfold py_split, format_address.
  destruct l as [| x l]; [congruence |]. clear Hne.
  change (split_from ", " 0 (join ", " (x :: l)) = x :: l).
  revert x Hl. induction l as [| y l IH]; intros x Hl.
  - apply Forall_cons_iff in Hl as [Hx _]. apply split_from_no_sep. exact Hx.
  - apply Forall_cons_iff in Hl as [Hx Hl].
    rewrite join_cons, split_from_app_sep by exact Hx.
    rewrite IH by exact Hl. reflexivity.
Qed.

(** Formatting the components of two parts of an address at once gives the
    two formatted parts joined by [", "], when neither part is empty. *)
Theorem format_address_app (l1 l2 : list string) :
  l1 <> [] -> l2 <> [] ->
  format_address (Some (l1 ++ l2)) =
  (format_address (Some l1) ++ ", " ++ format_address (Some l2))%string.
Proof.
  intros H1 H2. unfold format_address.
  destruct l1 as [| x l1]; [congruence |].
  destruct l2 as [| y l2]; [congruence |].
  apply (join_app ", " (x :: l1) (y :: l2)); discriminate.
Qed.

End Addresses.

(** * [search_places] and what is done with the places found *)

Section SearchFacts.

Context {F : Type}.
Variable geocode_api : string -> http (geocode_data F).
Variable places_api : F -> F -> Z -> string -> http (places_data F).

Lemma status_not_ok_false (status : option string) :
  status_not_ok status = false <-> status = Some "OK".
Proof.
  destruct status as [st |]; simpl.
  - rewrite negb_false_iff. split.
    + intros H. apply String.eqb_eq in H. congruence.
    + intros [= ->]. reflexivity.
  - split; discriminate.
Qed.

Lemma place_entry_inr (res : place_result F) (d : place_dict F) :
  place_entry res = inr d <-> dict_of_result res d.
Proof.
  unfold place_entry, dict_of_result. destruct d as [n la lo ra ad]. simpl.
  destruct (result_location res) as [[la' lo'] |].
  - split.
    + intros [= <- <- <- <- <-]. auto.
    + intros ([= -> ->] & -> & -> & ->). reflexivity.
  - split; [discriminate | intros [H _]; discriminate].
Qed.

Lemma place_dicts_inr (results : list (place_result F)) :
  forall places,
    place_dicts results = inr places <-> Forall2 dict_of_result results places.
Proof.
  induction results as [| res results IH]; intros places; simpl.
  - split.
    + intros [= <-]. constructor.
    + intros H. inversion H. reflexivity.
  - destruct (place_entry res) as [e | d] eqn:E.
    + split; [discriminate |]. intros H. inversion H as [| ? d ? ? Hd]; subst.
      apply place_entry_inr in Hd. congruence.
    + destruct (place_dicts results) as [e | ds] eqn:E'.
      * split; [discriminate |].
        intros H. inversion H as [| ? ? ? ds ? Hds]; subst.
        apply IH in Hds. discriminate.
      * split.
        -- intros [= <-]. constructor; [apply place_entry_inr; exact E |].
           apply IH. reflexivity.
        -- intros H. inversion H as [| ? d' ? ds' Hd Hds]; subst.
           apply place_entry_inr in Hd. apply IH in Hds. congruence.
Qed.

(** What a returned list was made of. *)
Lemma search_places_list (location : string) (radius : Z)
    (place_type : string) (places : list (place_dict F)) :
  search_places geocode_api places_api location radius place_type =
    PlaceDicts places ->
  exists latitude longitude others results,
    geocode_api location =
      HttpJson (mkGeocodeData (Some "OK")
                  (Some (Some (latitude, longitude) :: others))) /\
    (places_api latitude longitude radius place_type =
       HttpJson (mkPlacesData (Some "OK") (Some results)) \/
     places_api latitude longitude radius place_type =
       HttpJson (mkPlacesData (Some "OK") None) /\ results = []) /\
    Forall2 dict_of_result results places.
Proof.
  unfold search_places.
  destruct (geocode_api location) as [| [gst gres]]; [discriminate |].
  cbn [geocode_status].
  destruct (status_not_ok gst) eqn:Eg; [discriminate |].
  apply status_not_ok_false in Eg. subst gst.
  unfold first_location. cbn [geocode_results].
  destruct gres as [[| [[latitude longitude] |] others] |]; try discriminate.
  destruct (places_api latitude longitude radius place_type)
    as [| [pst pres]] eqn:Ep; [discriminate |].
  cbn [places_status places_results].
  destruct (status_not_ok pst) eqn:Es; [discriminate |].
  apply status_not_ok_false in Es. subst pst.
  destruct (place_dicts match pres with Some l => l | None => [] end)
    as [e | ds] eqn:Ed; [discriminate |].
  intros [= <-]. apply place_dicts_inr in Ed.
  exists latitude, longitude, others,
    (match pres with Some l => l | None => [] end).
  split; [reflexivity |]. split; [| exact Ed].
  destruct pres; [left; exact Ep | right; split; [exact Ep | reflexivity]].
Qed.

(** [search_places] returns a list exactly when both requests answered
    with the status ["OK"], the geocoding answer has a first result with a
    location, and every result of the places answer has a location. The list
    then has one dict for each result, in the order of the results (none, when
    the answer has no ["results"]): its ["lat"] and ["lng"] are the location
    of the result, its ["name"] and ["address"] the name and the vicinity of
    the result when it has them, and its ["rating"] the rating of the result,
    or ["N/A"]. One result without a location and no list is returned. *)
Theorem search_places_returns_all_or_nothing (location : string) (radius : Z)
    (place_type : string) (places : list (place_dict F)) :
  search_places geocode_api places_api location radius place_type =
    PlaceDicts places <->
  exists latitude longitude others results,
    geocode_api location =
      HttpJson (mkGeocodeData (Some "OK")
                  (Some (Some (latitude, longitude) :: others))) /\
    (places_api latitude longitude radius place_type =
       HttpJson (mkPlacesData (Some "OK") (Some results)) \/
     places_api latitude longitude radius place_type =
       HttpJson (mkPlacesData (Some "OK") None) /\ results = []) /\
    Forall2 dict_of_result results places.
Proof.
  split; [apply search_places_list |].
  intros (latitude & longitude & others & results & Hg & Hp & Hd).
  unfold search_places. rewrite Hg.
  cbn [geocode_status status_not_ok String.eqb negb first_location
       geocode_results].
  apply place_dicts_inr in Hd.
  destruct Hp as [-> | [-> ->]];
    cbn [places_status places_results status_not_ok String.eqb negb];
    cbn -[place_dicts]; rewrite Hd; reflexivity.
Qed.

End SearchFacts.

Section ConsumerFacts.

Context {F : Type} {num : PyNum F} {Map : Type}.
Variable geocode_api : string -> http (geocode_data F).
Variable places_api : F -> F -> Z -> string -> http (places_data F).
Variable api : F -> F -> geocode_response.
Variable save : Map -> string -> option string.
Variable to_csv : list (place_dict F) -> string -> option string.

(** The string returned by [save_heatmap] and by [export_data] tells what
    happened: the message of success is returned exactly when the write
    returned, the message of the fallback exactly when there was nothing to
    write, and in the remaining case the message is the text of the exception
    after a fixed prefix. *)
Theorem messages_tell_outcomes (heatmap : option Map) (found : search_result F)
    (filename : string) :
  (save_heatmap save heatmap filename = ("Heatmap saved as " ++ filename)%string <->
   exists m, heatmap = Some m /\ save m filename = None) /\
  (save_heatmap save heatmap filename = "No heatmap to save" <->
   heatmap = None) /\
  (forall m e, heatmap = Some m -> save m filename = Some e ->
     save_heatmap save heatmap filename = ("Error saving heatmap: " ++ e)%string) /\
  (export_data to_csv found filename = ("Data exported to " ++ filename)%string <->
   exists d places,
     found = PlaceDicts (d :: places) /\ to_csv (d :: places) filename = None) /\
  (export_data to_csv found filename = "No data to export" <->
   forall d places, found <> PlaceDicts (d :: places)) /\
  (forall d places e,
     found = PlaceDicts (d :: places) -> to_csv (d :: places) filename = Some e ->
     export_data to_csv found filename = ("Error exporting data: " ++ e)%string).
Proof.
  unfold save_heatmap, export_data.
  split; [| split; [| split; [| split; [| split]]]].
  - destruct heatmap as [m |]; [destruct (save m filename) eqn:E |].
    + split; [discriminate | intros (m' & [= <-] & H); congruence].
    + split; [eauto | reflexivity].
    + split; [discriminate | intros (m' & H & _); discriminate].
  - destruct heatmap as [m |]; [destruct (save m filename) |];
      split; try discriminate; reflexivity.
  - intros m e -> ->. reflexivity.
  - destruct found as [err | [| d places]].
    + split; [discriminate | intros (d & l & H & _); discriminate].
    + split; [discriminate | intros (d & l & H & _); discriminate].
    + destruct (to_csv (d :: places) filename) eqn:E.
      * split; [discriminate | intros (d' & l & [= <- <-] & H); congruence].
      * split; [eauto | reflexivity].
  - destruct found as [err | [| d places]].
    + split; [discriminate | reflexivity].
    + split; [discriminate | reflexivity].
    + destruct (to_csv (d :: places) filename);
        (split; [discriminate | intros H; exfalso; apply (H d places); reflexivity]).
  - intros d places e -> ->. reflexivity.
Qed.

(** When [search_places] returns a list and [analyze_density] returns a
    report for it, [total_places] is the number of results of the places
    answer, which is at least one, and every hotspot is the cell of a place
    at the location of one of these results. *)
Theorem analysis_counts_search_results (location : string) (radius : Z)
    (place_type : string) (places : list (place_dict F)) (gs : Z)
    (r : report F) :
  search_places geocode_api places_api location radius place_type =
    PlaceDicts places ->
  analyze_density api (places_argument (PlaceDicts places)) gs = ReportDict r ->
  exists latitude longitude others results,
    geocode_api location =
      HttpJson (mkGeocodeData (Some "OK")
                  (Some (Some (latitude, longitude) :: others))) /\
    places_api latitude longitude radius place_type =
      HttpJson (mkPlacesData (Some "OK") (Some results)) /\
    total_places r = List.length results /\
    (1 <= List.length results)%nat /\
    forall h, In h (hotspots r) ->
      exists res lat lng g,
        In res results /\ result_location res = Some (lat, lng) /\
        make_grid (map analyzer_view places) gs = Return g /\
        place_key g gs (mkPlace lat lng) = Return (grid_cell h).
Proof.
  intros Hs Ha.
  apply search_places_list in Hs
    as (latitude & longitude & others & results & Hg & Hp & Hd).
  cbn [places_argument] in Ha.
  apply analyze_density_report in Ha as [Hne Ha].
  apply analyze_body_return in Ha as (g & keys & details & H).
  destruct H as (Hgrid & Hkeys & _ & Hdet & ->). cbn [total_places hotspots].
  pose proof (Forall2_length Hd) as Hlen.
  assert (Hres : results <> []).
  { intros ->. inversion Hd; subst. apply Hne. reflexivity. }
  destruct Hp as [Hp | [_ ->]]; [| congruence].
  exists latitude, longitude, others, results.
  split; [exact Hg |]. split; [exact Hp |].
  split; [rewrite length_map; auto |].
  split; [destruct results; [congruence | simpl; lia] |].
  intros h Hh.
  destruct (hotspot_cell api _ gs g keys details h Hkeys Hdet Hh)
    as (row & col & _ & _ & Hcell & (p & Hp' & Hbins) & _).
  apply in_map_iff in Hp' as (d & <- & Hdin).
  destruct (Forall2_in_right _ _ _ _ Hd Hdin) as (res & Hin & Hloc & _).
  exists res, (place_lat d), (place_lng d), g.
  repeat split; auto.
  unfold place_key.
  change (mkPlace (place_lat d) (place_lng d)) with (analyzer_view d).
  rewrite Hbins, Hcell. reflexivity.
Qed.

End ConsumerFacts.

(** * The statements at sample inputs *)

Section Witnesses.

Import Samples.

Lemma three_places_analysis :
  analyze_density offline (PlaceList three_places) 5 =
  ReportDict three_places_report.
Proof. vm_compute. reflexivity. Qed.

Lemma close_places_analysis :
  analyze_density offline (PlaceList close_places) 5 =
  ReportDict close_places_report.
Proof. vm_compute. reflexivity. Qed.

Lemma report_counts_every_place_witness :
  exists g keys cells,
    make_grid three_places 5 = Return g /\
    mapM (place_key g 5) three_places = Return keys /\
    count_places g 5 three_places [] = Return cells /\
    total_places three_places_report = List.length three_places /\
    sum_counts cells = Z.of_nat (total_places three_places_report) /\
    (forall p, In p three_places ->
       exists! cell, In cell cells /\ place_key g 5 p = Return (fst cell)) /\
    (forall k c, In (k, c) cells -> c = occurrences k keys).
Proof.
  apply (report_counts_every_place offline three_places 5 three_places_report).
  vm_compute. reflexivity.
Defined.

Lemma binary64_bins_in_range_witness :
  place_bins three_places_grid 5 (mkPlace 37%float (-122)%float) =
    Return (clamp 0 5, clamp 5 5) /\
  0 <= 0 /\ 0 <= 5 /\
  (5 <= 0 -> clamp 0 5 = 5 - 1) /\
  (5 <= 5 -> clamp 5 5 = 5 - 1) /\
  0 <= clamp 0 5 < 5 /\
  0 <= clamp 5 5 < 5.
Proof.
  apply (binary64_bins_in_range three_places 5 three_places_grid
           (mkPlace 37%float (-122)%float) 0 5).
  - intros q [<- | [<- | [<- | []]]]; split; vm_compute; reflexivity.
  - lia.
  - vm_compute. reflexivity.
  - simpl. left. reflexivity.
  - vm_compute. reflexivity.
  - vm_compute. reflexivity.
Defined.

Lemma sorted_desc_unique_witness :
  [("b", 2); ("a", 1); ("c", 1)] = sorted_desc [("a", 1); ("b", 2); ("c", 1)].
Proof.
  apply sorted_desc_unique.
  - repeat constructor; unfold count_ge; simpl; lia.
  - intros c. unfold has_count. cbn [filter snd].
    destruct (Z.eqb_spec 2 c), (Z.eqb_spec 1 c); try reflexivity. lia.
Defined.

Lemma hotspots_sorted_by_count_then_discovery_witness :
  StronglySorted (fun h h' : hotspot float => count h' <= count h)
    (hotspots close_places_report) /\
  (exists g keys,
     make_grid close_places 5 = Return g /\
     mapM (place_key g 5) close_places = Return keys /\
     forall (i j : nat) h h',
       (i < j)%nat ->
       nth_error (hotspots close_places_report) i = Some h ->
       nth_error (hotspots close_places_report) j = Some h' ->
       count h = count h' ->
       created_before keys (grid_cell h) (grid_cell h')) /\
  (forall api' : float -> float -> geocode_response,
     analyze_density api' (PlaceList close_places) 5 =
     ReportDict (mkReport (total_places close_places_report)
                   (grid_size close_places_report)
                   (map (relabel api') (hotspots close_places_report)))).
Proof.
  apply (hotspots_sorted_by_count_then_discovery offline close_places 5).
  vm_compute. reflexivity.
Defined.

Lemma binary64_degenerate_box_single_cell_witness :
  make_grid one_place 5 =
    Return (mkGrid 10%float 10%float 20%float 20%float f_001 f_001) /\
  (forall p, In p one_place ->
     place_bins (mkGrid 10%float 10%float 20%float 20%float f_001 f_001) 5 p =
     Return (0, 0)) /\
  count_places (mkGrid 10%float 10%float 20%float 20%float f_001 f_001) 5
    one_place [] = Return [("0,0", Z.of_nat (List.length one_place))] /\
  exists center_lat center_lng,
    center_lat = (10 + (0 + 0x1p-1) * 0x1.47ae147ae147bp-7)%float /\
    center_lng = (20 + (0 + 0x1p-1) * 0x1.47ae147ae147bp-7)%float /\
    analyze_density online (PlaceList one_place) 5 =
    ReportDict
      (mkReport (List.length one_place) 5
         [mkHotspot "0,0" (Z.of_nat (List.length one_place))
            center_lat center_lng
            (reverse_geocode online center_lat center_lng)]).
Proof.
  apply (binary64_degenerate_box_single_cell online one_place 5
           10%float 20%float).
  - discriminate.
  - intros p [<- | []]. split; reflexivity.
  - vm_compute. reflexivity.
  - vm_compute. reflexivity.
  - lia.
Defined.


Lemma labeling_failure_is_absorbed_witness :
  exists r',
    analyze_density offline (PlaceList three_places) 5 = ReportDict r' /\
    total_places r' = total_places three_places_report_online /\
    grid_size r' = grid_size three_places_report_online /\
    hotspots r' = map (relabel offline) (hotspots three_places_report_online) /\
    forall h', In h' (hotspots r') ->
      approximate_location h' =
        reverse_geocode offline (center_lat h') (center_lng h') /\
      (offline (center_lat h') (center_lng h') = RequestRaised ->
       approximate_location h' = "Unknown location") /\
      (forall status results,
         offline (center_lat h') (center_lng h') = JsonObject status results ->
         status <> Some "OK" \/ results = [] \/ hd_error results = Some None ->
         approximate_location h' = "Unknown location").
Proof.
  apply (labeling_failure_is_absorbed online three_places 5
           three_places_report_online offline).
  vm_compute. reflexivity.
Defined.

Lemma binary64_valid_points_analysis_witness :
  analyze_body offline three_places 5 <> Raise ZeroDivisionError /\
  ((exists r,
      analyze_body offline three_places 5 = Return r /\
      analyze_density offline (PlaceList three_places) 5 = ReportDict r /\
      total_places r = List.length three_places /\
      grid_size r = 5 /\
      (1 <= List.length (hotspots r) <= 3)%nat) \/
   (exists e,
      analyze_body offline three_places 5 = Raise e /\
      analyze_density offline (PlaceList three_places) 5 =
        ErrorDict (Caught e))) /\
  (5 < 2 ^ 1000 ->
   exists r,
     analyze_body offline three_places 5 = Return r /\
     analyze_density offline (PlaceList three_places) 5 = ReportDict r /\
     total_places r = List.length three_places /\
     grid_size r = 5 /\
     (1 <= List.length (hotspots r) <= 3)%nat).
Proof.
  apply (binary64_valid_points_analysis offline three_places 5).
  - discriminate.
  - intros p [<- | [<- | [<- | []]]]; vm_compute; reflexivity.
  - lia.
Defined.

(** With [grid_size = 2^1024] the conversion of [grid_size] to [float]
    overflows inside the [try] block, for places on the globe: the exception
    is caught and the error dict comes back. *)
Lemma overflow_in_the_try_block :
  (forall p, In p three_places -> valid_coordinates p = true) /\
  1 <= 2 ^ 1024 /\
  analyze_body offline three_places (2 ^ 1024) = Raise OverflowError /\
  analyze_density offline (PlaceList three_places) (2 ^ 1024) =
    ErrorDict (Caught OverflowError).
Proof.
  split; [intros p [<- | [<- | [<- | []]]]; vm_compute; reflexivity |].
  split; [vm_compute; discriminate |].
  split; vm_compute; reflexivity.
Qed.

Lemma binary64_grid_size_not_validated_witness :
  exists lo_lat hi_lat lo_lng hi_lng,
    py_min (map lat three_places) = Return lo_lat /\
    py_max (map lat three_places) = Return hi_lat /\
    py_min (map lng three_places) = Return lo_lng /\
    py_max (map lng three_places) = Return hi_lng /\
    if (0 <? 0) || (f_eqb hi_lat lo_lat && f_eqb hi_lng lo_lng)
    then exists r,
           analyze_density offline (PlaceList three_places) 0 = ReportDict r /\
           total_places r = List.length three_places /\ grid_size r = 0 /\
           (1 <= List.length (hotspots r) <= 3)%nat
    else analyze_density offline (PlaceList three_places) 0 =
         ErrorDict (Caught ZeroDivisionError).
Proof.
  apply (binary64_grid_size_not_validated offline three_places 0).
  - discriminate.
  - intros p [<- | [<- | [<- | []]]]; split; vm_compute; reflexivity.
  - split; [vm_compute; reflexivity | lia].
Defined.

Lemma binary64_centroid_within_box_witness :
  exists g,
    make_grid close_places 5 = Return g /\
    forall h, In h (hotspots close_places_report) ->
      PrimFloat.leb (min_lat g) (center_lat h) = true /\
      PrimFloat.leb (min_lng g) (center_lng h) = true /\
      (5 <= 2 ^ 48 ->
       16 * (5 * 5) <=
         Binary64.value (max_lat g) - Binary64.value (min_lat g) <= 2 ^ 2075 ->
       PrimFloat.leb (center_lat h) (max_lat g) = true) /\
      (5 <= 2 ^ 48 ->
       16 * (5 * 5) <=
         Binary64.value (max_lng g) - Binary64.value (min_lng g) <= 2 ^ 2075 ->
       PrimFloat.leb (center_lng h) (max_lng g) = true).
Proof.
  apply (binary64_centroid_within_box offline close_places 5
           close_places_report).
  - intros q [<- | [<- | []]]; split; vm_compute; reflexivity.
  - lia.
  - vm_compute. reflexivity.
Defined.

(** [grid_size = -1] is not refused: the places are binned and a report comes
    back. *)
Lemma negative_grid_size_gives_report :
  analyze_density offline (PlaceList one_place) (-1) =
    ReportDict
      (mkReport 1 (-1)
         [mkHotspot "-2,-2" 1 0x1.3f851eb851eb8p+3%float
            0x1.3fc28f5c28f5cp+4%float "Unknown location"]) /\
  ~ exists err, analyze_density offline (PlaceList one_place) (-1) = ErrorDict err.
Proof.
  split.
  - vm_compute. reflexivity.
  - intros [err H]. vm_compute in H. discriminate.
Qed.

(** In binary64 the centre of a hotspot can fall on the bounds of the box:
    for two places whose latitudes are neighbouring numbers, the box is not
    degenerate on either side, and the hotspots have the latitudes
    [min_lat] and [max_lat]. *)
Lemma centroid_on_the_bounds :
  exists g h1 h2,
    make_grid close_places 5 = Return g /\
    analyze_density offline (PlaceList close_places) 5 =
      ReportDict close_places_report /\
    hotspots close_places_report = [h1; h2] /\
    f_ltb (min_lat g) (max_lat g) = true /\
    f_ltb (min_lng g) (max_lng g) = true /\
    center_lat h1 = min_lat g /\
    center_lat h2 = max_lat g /\
    f_ltb (min_lat g) (center_lat h1) = false /\
    f_ltb (center_lat h2) (max_lat g) = false.
Proof.
  do 3 eexists. split; [vm_compute; reflexivity |].
  repeat split; vm_compute; reflexivity.
Qed.

Lemma centroid_beyond_the_bounds :
  exists g h1 h2,
    make_grid tiny_places 4 = Return g /\
    analyze_density offline (PlaceList tiny_places) 4 =
      ReportDict (mkReport 2 4 [h1; h2]) /\
    f_ltb (min_lat g) (max_lat g) = true /\
    f_ltb (min_lng g) (max_lng g) = true /\
    f_ltb (max_lat g) (center_lat h2) = true.
Proof.
  do 3 eexists. split; [vm_compute; reflexivity |].
  split; [vm_compute; reflexivity |].
  repeat split; vm_compute; reflexivity.
Qed.

End Witnesses.

(** * The statements about the rest of the code at sample inputs *)

Section MoreWitnesses.

Import Samples SearchSamples.

Lemma hotspot_counts_add_up_witness :
  exists g cells,
    make_grid three_places 5 = Return g /\
    count_places g 5 three_places [] = Return cells /\
    (forall h, In h (hotspots three_places_report) ->
       1 <= count h <= Z.of_nat (total_places three_places_report)) /\
    NoDup (map grid_cell (hotspots three_places_report)) /\
    sum_counts (map hotspot_item (hotspots three_places_report)) <=
      Z.of_nat (total_places three_places_report) /\
    ((List.length cells <= 3)%nat ->
     sum_counts (map hotspot_item (hotspots three_places_report)) =
     Z.of_nat (total_places three_places_report)).
Proof.
  apply (hotspot_counts_add_up offline three_places 5 three_places_report).
  vm_compute. reflexivity.
Defined.

Lemma top_hotspot_at_least_average_witness :
  exists g cells h rest,
    make_grid three_places 5 = Return g /\
    count_places g 5 three_places [] = Return cells /\
    hotspots three_places_report = h :: rest /\
    (forall cell, In cell cells -> snd cell <= count h) /\
    Z.of_nat (total_places three_places_report) <=
      count h * Z.of_nat (List.length cells).
Proof.
  apply (top_hotspot_at_least_average offline three_places 5
           three_places_report).
  vm_compute. reflexivity.
Defined.

Lemma binary64_bounding_box_witness :
  In (min_lat three_places_grid) (map lat three_places) /\
  In (max_lat three_places_grid) (map lat three_places) /\
  In (min_lng three_places_grid) (map lng three_places) /\
  In (max_lng three_places_grid) (map lng three_places) /\
  forall p, In p three_places ->
    (min_lat three_places_grid <=? lat p)%float = true /\
    (lat p <=? max_lat three_places_grid)%float = true /\
    (min_lng three_places_grid <=? lng p)%float = true /\
    (lng p <=? max_lng three_places_grid)%float = true.
Proof.
  apply (binary64_bounding_box three_places 5 three_places_grid).
  - intros q [<- | [<- | [<- | []]]]; split; vm_compute; reflexivity.
  - vm_compute. reflexivity.
Defined.

Lemma binary64_occupied_cells_bounded_witness :
  exists g cells h rest,
    make_grid three_places 5 = Return g /\
    count_places g 5 three_places [] = Return cells /\
    Z.of_nat (List.length cells) <= 5 * 5 /\
    hotspots three_places_report = h :: rest /\
    Z.of_nat (total_places three_places_report) <= count h * (5 * 5).
Proof.
  apply (binary64_occupied_cells_bounded offline three_places 5
           three_places_report).
  - intros q [<- | [<- | [<- | []]]]; split; vm_compute; reflexivity.
  - lia.
  - vm_compute. reflexivity.
Defined.

Lemma format_address_split_witness :
  py_split ", " (format_address (Some ["1 Main St"; "Springfield"; "IL 62701"])) =
  ["1 Main St"; "Springfield"; "IL 62701"].
Proof.
  apply format_address_split.
  - discriminate.
  - repeat constructor.
Defined.

Lemma format_address_app_witness :
  format_address (Some (["1 Main St"] ++ ["Springfield"; "IL 62701"])) =
  (format_address (Some ["1 Main St"]) ++ ", " ++
   format_address (Some ["Springfield"; "IL 62701"]))%string.
Proof.
  apply format_address_app; discriminate.
Defined.

Lemma analysis_counts_search_results_witness :
  exists latitude longitude others results,
    geocoder "San Francisco, CA" =
      HttpJson (mkGeocodeData (Some "OK")
                  (Some (Some (latitude, longitude) :: others))) /\
    nearby latitude longitude 5000 "restaurant" =
      HttpJson (mkPlacesData (Some "OK") (Some results)) /\
    total_places three_places_report = List.length results /\
    (1 <= List.length results)%nat /\
    forall h, In h (hotspots three_places_report) ->
      exists res lat lng g,
        In res results /\ result_location res = Some (lat, lng) /\
        make_grid (map analyzer_view three_dicts) 5 = Return g /\
        place_key g 5 (mkPlace lat lng) = Return (grid_cell h).
Proof.
  apply (analysis_counts_search_results geocoder nearby offline
           "San Francisco, CA" 5000 "restaurant" three_dicts 5
           three_places_report).
  - vm_compute. reflexivity.
  - vm_compute. reflexivity.
Defined.

Lemma binary64_analysis_completes_witness :
  exists r,
    analyze_body offline three_places 5 = Return r /\
    analyze_density offline (PlaceList three_places) 5 = ReportDict r /\
    total_places r = List.length three_places /\
    grid_size r = 5 /\
    (1 <= List.length (hotspots r) <= 3)%nat.
Proof.
  apply (binary64_analysis_completes offline three_places 5).
  - discriminate.
  - intros p [<- | [<- | [<- | []]]]; split; vm_compute; reflexivity.
  - split; [lia | reflexivity].
Defined.

Lemma binary64_counts_do_not_depend_on_order_witness :
  exists r' g g' cells cells',
    analyze_density offline (PlaceList (List.rev three_places)) 5 =
      ReportDict r' /\
    total_places r' = total_places three_places_report /\
    map count (hotspots r') = map count (hotspots three_places_report) /\
    make_grid three_places 5 = Return g /\
    make_grid (List.rev three_places) 5 = Return g' /\
    count_places g 5 three_places [] = Return cells /\
    count_places g' 5 (List.rev three_places) [] = Return cells' /\
    Permutation cells cells' /\
    forall p, In p three_places -> place_bins g' 5 p = place_bins g 5 p.
Proof.
  apply (binary64_counts_do_not_depend_on_order offline three_places
           (List.rev three_places) 5 three_places_report).
  - intros q [<- | [<- | [<- | []]]]; split; vm_compute; reflexivity.
  - split; [vm_compute; reflexivity | vm_compute; discriminate].
  - apply Permutation_rev.
  - vm_compute. reflexivity.
Defined.

End MoreWitnesses.
